(** * PhoenixNet-Labs network map: topology loader and orthogonal edge routing

    A shallow embedding of

    - [network-map/src/app/utils/network-parser.ts] ([parseNetworkConfig]),
    - the four routing components registered in [NetworkMap.tsx]
      ([OrthogonalConnectionEdge], [OrthogonalVpnEdge], [OrthogonalTrunkEdge],
      [OrthogonalSanEdge]),
    - the loading effect of [NetworkMap.tsx] ([setupNetwork]),

    together with the properties the specification states about them.
    (page.tsx carries a second revision of the parser, with a type-grouped
    layout; the embedding follows network-parser.ts.)

    Further parts of the sources are embedded after these and have
    properties of their own: the second revision of the parser
    ([ParserSnapshot]) and the toolbar of the second revision of the map
    component ([Toolbar]), node selection and the view of [NetworkMapInner],
    the editor page ([AdminPage]), the editor's height, and the client-side
    authentication with its login form ([Auth]).

    Modelling conventions.

    - A JavaScript string is its sequence of UTF-16 code units ([list N]);
      [charCodeAt], [split('')], [startsWith] and [===] all work on code units.
    - A field that the TypeScript interface declares but that the document may
      lack is an [option]: [yaml.load(...) as NetworkConfig] is an unchecked
      cast, so [undefined] is a possible run-time value of any field. Fields
      that are present have their declared type.
    - Layout coordinates computed by the parser are integers far below 2^53,
      where IEEE doubles are exact, and are modelled in [Z].
    - Anchor coordinates handed to the routing components are arbitrary
      doubles and are modelled by Rocq's primitive binary64 [float].
    - A thrown exception is the [Throw] case of [outcome]. *)

From Stdlib Require Import ZArith NArith List Floats Lia Ascii String DecimalString DecimalNat Sorted.
From stdpp Require Import gmap list.

Set Default Proof Using "Type".
Local Open Scope Z_scope.

(** ** JavaScript strings *)

Abbreviation jsstring := (list N).

(** An ASCII literal as a JavaScript string. *)
Definition js (s : string) : jsstring :=
  List.map N_of_ascii (list_ascii_of_string s).

(** [String(n)] for an array index [n]. *)
Definition js_of_nat (n : nat) : jsstring :=
  js (DecimalString.NilZero.string_of_uint (Nat.to_uint n)).

(** [`${v}`] for a value that may be [undefined]. *)
Definition tpl (v : option jsstring) : jsstring :=
  match v with
  | Some s => s
  | None => js "undefined"
  end.

(** [s.startsWith(prefix)] *)
Fixpoint startsWith (s prefix : jsstring) : bool :=
  match prefix, s with
  | [], _ => true
  | _ :: _, [] => false
  | p :: prefix', c :: s' => if (c =? p)%N then startsWith s' prefix' else false
  end.

(** [a || b] on strings: [undefined] and the empty string are falsy. *)
Definition or_default (a : option jsstring) (b : jsstring) : jsstring :=
  match a with
  | Some (c :: s) => c :: s
  | _ => b
  end.

(** ** Exceptions *)

Inductive exn : Type :=
| YAMLException  (* thrown by js-yaml on malformed text *)
| TypeError.     (* property access on undefined, call of a non-function *)

Inductive outcome (A : Type) : Type :=
| Ok (a : A)
| Throw (e : exn).
Arguments Ok {A} a.
Arguments Throw {A} e.

#[global] Instance outcome_ret : MRet outcome := @Ok.
#[global] Instance outcome_bind : MBind outcome := fun A B f m =>
  match m with
  | Ok a => f a
  | Throw e => Throw e
  end.

(** [Array.prototype.forEach] with the element index, threading the state the
    callback mutates; a throwing callback aborts the loop. *)
Fixpoint forEach_from {A S : Type} (f : A -> nat -> S -> outcome S)
    (l : list A) (i : nat) (s : S) : outcome S :=
  match l with
  | [] => Ok s
  | a :: l' => s' ← f a i s; forEach_from f l' (Datatypes.S i) s'
  end.

Definition forEach {A S : Type} (f : A -> nat -> S -> outcome S)
    (l : list A) (s : S) : outcome S :=
  forEach_from f l 0%nat s.

(** ** The configuration document (interfaces of [network-parser.ts]) *)

Record VirtualMachine : Type := mkVM {
  vm_name : jsstring;
  vm_ip : jsstring;
  vm_os : jsstring
}.

(** [BaseConnection], shared by [Connection], [TrunkConnection] and
    [SanConnection]. *)
Module Connection.
Record t : Type := mk {
  to : jsstring;
  label : option jsstring
}.
End Connection.

Module VpnConnection.
Record t : Type := mk {
  to_site : jsstring;
  label : option jsstring
}.
End VpnConnection.

Module Device.
Record t : Type := mk {
  id : option jsstring;
  type : option jsstring;
  name : option jsstring;
  ip : option jsstring;
  model : option jsstring;
  os : option jsstring;
  hypervisor_type : option jsstring;
  virtual_machines : option (list VirtualMachine);
  connections : option (list Connection.t);
  vpn_connections : option (list VpnConnection.t);
  trunk_connections : option (list Connection.t);
  san_connections : option (list Connection.t)
}.
End Device.

Module Site.
Record t : Type := mk {
  id : option jsstring;
  name : option jsstring;
  location : option jsstring;
  devices : option (list Device.t)
}.
End Site.

Record NetworkConfig : Type := mkConfig {
  cfg_name : option jsstring;
  cfg_description : option jsstring;
  sites : option (list Site.t)
}.

(** ** React Flow nodes and edges, as the parser builds them *)

Inductive NodeType : Type := networkNode | group | siteHeader.

Record NetworkNodeData : Type := mkData {
  data_label : option jsstring;
  data_type : option jsstring;
  data_ip : option jsstring;
  data_model : option jsstring;
  data_os : option jsstring;
  hypervisorType : option jsstring;
  virtualMachines : option (list VirtualMachine);
  isSiteHeader : bool
}.

(** The part of [style] that depends on the input: the box size of a site
    background and the palette picked by [site.id.startsWith('main')]. The
    remaining style entries are literals. *)
Inductive NodeStyle : Type :=
| NoStyle
| BackgroundStyle (width height : Z) (mainPalette : bool)
| HeaderStyle (mainPalette : bool).

Module Node.
Record t : Type := mk {
  id : option jsstring;
  position : Z * Z;
  data : NetworkNodeData;
  type : NodeType;
  style : NodeStyle
}.
End Node.

Inductive EdgeType : Type := connectionEdge | vpnEdge | trunkEdge | sanEdge.

Inductive EdgeData : Type :=
| ConnectionData (connectionIndex : nat)
| VpnData (isCrossSite : bool) (vpnIndex : nat)
| TrunkData (trunkIndex : nat)
| SanData (sanIndex : nat).

(** Stroke, marker, handle and z-index entries are literals fixed by the edge
    type and are left out. *)
Module Edge.
Record t : Type := mk {
  id : jsstring;
  source : option jsstring;
  target : option jsstring;
  type : EdgeType;
  label : option jsstring;
  data : EdgeData
}.
End Edge.

(** ** [parseNetworkConfig] (network-parser.ts) *)

Record Dimensions : Type := mkDim {
  width : Z;
  height : Z;
  deviceCount : nat
}.

(** The two output arrays and the three [Record<string, ...>] objects of
    [parseNetworkConfig]. The objects are keyed by [site.id]; an [undefined]
    id is the property key ["undefined"]. *)
Record Stores : Type := mkStores {
  nodes : list Node.t;
  edges : list Edge.t;
  sitePositions : gmap jsstring (Z * Z);
  siteNodeIds : gmap jsstring (list (option jsstring));
  siteDimensions : gmap jsstring Dimensions
}.

Definition emptyStores : Stores := mkStores [] [] ∅ ∅ ∅.

Definition siteSpacing : Z := 1100.
Definition deviceSpacing : Z := 250.
Definition maxDevicesPerRow : Z := 3.

(** First [networkConfig.sites.forEach]: base position and empty bookkeeping
    for every site. [site.devices.length] throws when [devices] is missing. *)
Definition placeSite (site : Site.t) (index : nat) (st : Stores) : outcome Stores :=
  let k := tpl (Site.id site) in
  match Site.devices site with
  | None => Throw TypeError
  | Some devs =>
      Ok (mkStores (nodes st) (edges st)
            (<[k := (Z.of_nat index * siteSpacing, 100)]> (sitePositions st))
            (<[k := []]> (siteNodeIds st))
            (<[k := mkDim 0 0 (length devs)]> (siteDimensions st)))
  end.

Definition set_edges (st : Stores) (es : list Edge.t) : Stores :=
  mkStores (nodes st) es (sitePositions st) (siteNodeIds st) (siteDimensions st).

(** [if (device.connections) device.connections.forEach(...)] *)
Definition connectionEdgeOf (device : Device.t) (connection : Connection.t)
    (connIdx : nat) : Edge.t :=
  Edge.mk
    (js "connection-" ++ tpl (Device.id device) ++ js "-"
       ++ Connection.to connection ++ js "-" ++ js_of_nat connIdx)
    (Device.id device)
    (Some (Connection.to connection))
    connectionEdge
    (Connection.label connection)
    (ConnectionData connIdx).

Definition processConnections (device : Device.t) (st : Stores) : outcome Stores :=
  match Device.connections device with
  | None => Ok st
  | Some cs =>
      forEach (fun connection connIdx st =>
                 Ok (set_edges st (edges st ++ [connectionEdgeOf device connection connIdx])))
              cs st
  end.

(** [if (device.vpn_connections) device.vpn_connections.forEach(...)]:
    [sites.find] by id, then [devices.find] by type. *)
Definition vpnEdgeOf (site : Site.t) (device : Device.t) (targetSite : Site.t)
    (targetRouter : Device.t) (vpnConnection : VpnConnection.t) (vpnIndex : nat) : Edge.t :=
  let isCrossSite := negb (bool_decide (Site.id targetSite = Site.id site)) in
  let edgeId := js "vpn-" ++ tpl (Device.id device) ++ js "-"
                  ++ tpl (Device.id targetRouter) ++ js "-" ++ js_of_nat vpnIndex in
  Edge.mk edgeId
    (Device.id device)
    (Device.id targetRouter)
    vpnEdge
    (Some (or_default (VpnConnection.label vpnConnection) (js "VPN")))
    (VpnData isCrossSite vpnIndex).

Definition processVpnConnection (allSites : list Site.t) (site : Site.t)
    (device : Device.t) (vpnConnection : VpnConnection.t) (vpnIndex : nat)
    (st : Stores) : outcome Stores :=
  match List.find (fun s => bool_decide (Site.id s = Some (VpnConnection.to_site vpnConnection)))
                  allSites with
  | None => Ok st
  | Some targetSite =>
      match Site.devices targetSite with
      | None => Throw TypeError
      | Some targetDevices =>
          match List.find (fun d => bool_decide (Device.type d = Some (js "router")))
                          targetDevices with
          | None => Ok st
          | Some targetRouter =>
              Ok (set_edges st
                    (edges st ++ [vpnEdgeOf site device targetSite targetRouter
                                            vpnConnection vpnIndex]))
          end
      end
  end.

Definition processVpnConnections (allSites : list Site.t) (site : Site.t)
    (device : Device.t) (st : Stores) : outcome Stores :=
  match Device.vpn_connections device with
  | None => Ok st
  | Some vs => forEach (processVpnConnection allSites site device) vs st
  end.

(** [if (device.trunk_connections) device.trunk_connections.forEach(...)] *)
Definition trunkEdgeOf (device : Device.t) (trunkConnection : Connection.t)
    (trunkIdx : nat) : Edge.t :=
  Edge.mk
    (js "trunk-" ++ tpl (Device.id device) ++ js "-"
       ++ Connection.to trunkConnection ++ js "-" ++ js_of_nat trunkIdx)
    (Device.id device)
    (Some (Connection.to trunkConnection))
    trunkEdge
    (Some (or_default (Connection.label trunkConnection) (js "Trunk")))
    (TrunkData trunkIdx).

Definition processTrunkConnections (device : Device.t) (st : Stores) : outcome Stores :=
  match Device.trunk_connections device with
  | None => Ok st
  | Some cs =>
      forEach (fun trunkConnection trunkIdx st =>
                 Ok (set_edges st (edges st ++ [trunkEdgeOf device trunkConnection trunkIdx])))
              cs st
  end.

(** [if (device.san_connections) device.san_connections.forEach(...)] *)
Definition sanEdgeOf (device : Device.t) (sanConnection : Connection.t)
    (sanIdx : nat) : Edge.t :=
  Edge.mk
    (js "san-" ++ tpl (Device.id device) ++ js "-"
       ++ Connection.to sanConnection ++ js "-" ++ js_of_nat sanIdx)
    (Device.id device)
    (Some (Connection.to sanConnection))
    sanEdge
    (Some (or_default (Connection.label sanConnection) (js "SAN")))
    (SanData sanIdx).

Definition processSanConnections (device : Device.t) (st : Stores) : outcome Stores :=
  match Device.san_connections device with
  | None => Ok st
  | Some cs =>
      forEach (fun sanConnection sanIdx st =>
                 Ok (set_edges st (edges st ++ [sanEdgeOf device sanConnection sanIdx])))
              cs st
  end.

(** The node pushed for a device: grid cell [(row, col)] of its input index. *)
Definition devicePosition (siteBasePosition : Z * Z) (deviceIndex : nat) : Z * Z :=
  let row := Z.of_nat deviceIndex / maxDevicesPerRow in
  let col := Z.of_nat deviceIndex mod maxDevicesPerRow in
  (siteBasePosition.1 + col * deviceSpacing + 150,
   siteBasePosition.2 + 100 + row * 250).

Definition deviceNode (device : Device.t) (position : Z * Z) : Node.t :=
  Node.mk (Device.id device) position
    (mkData (Device.name device) (Device.type device) (Device.ip device)
            (Device.model device) (Device.os device)
            (Device.hypervisor_type device)
            (Device.virtual_machines device)
            false)
    networkNode NoStyle.

(** Callback of [site.devices.forEach]. *)
Definition layoutDevice (allSites : list Site.t) (site : Site.t)
    (siteBasePosition : Z * Z) (device : Device.t) (deviceIndex : nat)
    (st : Stores) : outcome Stores :=
  let k := tpl (Site.id site) in
  let position := devicePosition siteBasePosition deviceIndex in
  match siteNodeIds st !! k, siteDimensions st !! k with
  | Some ids, Some dim =>
      let rightEdge := position.1 + 150 in
      let bottomEdge := position.2 + 150 in
      let dim' := mkDim (Z.max (width dim) (rightEdge - siteBasePosition.1))
                        (Z.max (height dim) (bottomEdge - siteBasePosition.2))
                        (deviceCount dim) in
      let st1 := mkStores (nodes st ++ [deviceNode device position]) (edges st)
                   (sitePositions st)
                   (<[k := ids ++ [Device.id device]]> (siteNodeIds st))
                   (<[k := dim']> (siteDimensions st)) in
      st2 ← processConnections device st1;
      st3 ← processVpnConnections allSites site device st2;
      st4 ← processTrunkConnections device st3;
      processSanConnections device st4
  | _, _ => Throw TypeError
  end.

Definition backgroundNode (sid : jsstring) (siteBasePosition : Z * Z)
    (dim : Dimensions) : Node.t :=
  Node.mk (Some (js "site-" ++ sid ++ js "-bg"))
    (siteBasePosition.1 - 50, siteBasePosition.2 - 150)
    (mkData (Some []) None None None None None None false)
    group
    (BackgroundStyle (width dim) (height dim + 100) (startsWith sid (js "main"))).

Definition headerNode (site : Site.t) (sid : jsstring) (siteBasePosition : Z * Z) : Node.t :=
  Node.mk (Some (js "site-" ++ sid ++ js "-header"))
    (siteBasePosition.1 - 20, siteBasePosition.2 - 180)
    (mkData (Site.name site) None None None None None None true)
    siteHeader
    (HeaderStyle (startsWith sid (js "main"))).

(** Callback of the second [networkConfig.sites.forEach]. The closing
    [site.id.startsWith('main')] throws when [site.id] is missing. The
    [deviceTypeCounts] subtitle text is computed and then not used; it has no
    effect and is left out. *)
Definition layoutSite (allSites : list Site.t) (site : Site.t) (siteIndex : nat)
    (st : Stores) : outcome Stores :=
  let k := tpl (Site.id site) in
  match sitePositions st !! k, Site.devices site with
  | Some siteBasePosition, Some devs =>
      st1 ← forEach (layoutDevice allSites site siteBasePosition) devs st;
      let n := Z.of_nat (length devs) in
      let minWidth := Z.max 600 (Z.min 3 n * deviceSpacing) in
      let rows := (n + maxDevicesPerRow - 1) / maxDevicesPerRow in
      let minHeight := Z.max 350 (rows * 250 + 100) in
      match siteDimensions st1 !! k, Site.id site with
      | Some dim, Some sid =>
          let dim' := mkDim (Z.max minWidth (width dim + 200))
                            (Z.max minHeight (height dim + 200))
                            (deviceCount dim) in
          Ok (mkStores
                ((backgroundNode sid siteBasePosition dim' :: nodes st1)
                   ++ [headerNode site sid siteBasePosition])
                (edges st1)
                (sitePositions st1)
                (siteNodeIds st1)
                (<[k := dim']> (siteDimensions st1)))
      | _, _ => Throw TypeError
      end
  | _, _ => Throw TypeError
  end.

(** The body of the [try] block after [yaml.load]. [None] stands for a loaded
    value that is not a mapping ([undefined], [null], a scalar, a sequence):
    reading [.sites.forEach] on it throws. *)
Definition layoutDocument (doc : option NetworkConfig)
    : outcome (list Node.t * list Edge.t) :=
  match doc with
  | None => Throw TypeError
  | Some networkConfig =>
      match sites networkConfig with
      | None => Throw TypeError
      | Some allSites =>
          st1 ← forEach placeSite allSites emptyStores;
          st2 ← forEach (layoutSite allSites) allSites st1;
          Ok (nodes st2, edges st2)
      end
  end.

(** [catch (error) { console.error(...); throw error; }] *)
Definition rethrow {A : Type} (m : outcome A) : outcome A :=
  match m with
  | Ok a => Ok a
  | Throw error => Throw error
  end.

Section Loader.

(** [yaml.load] of js-yaml, an external library: it returns the loaded value
    or throws [YAMLException]. *)
Variable yaml_load : jsstring -> outcome (option NetworkConfig).

Definition parseNetworkConfig (yamlContent : jsstring)
    : outcome (list Node.t * list Edge.t) :=
  rethrow (networkConfig ← yaml_load yamlContent; layoutDocument networkConfig).

End Loader.

(** ** Completeness of a document *)

Definition has_devices (s : Site.t) : bool :=
  match Site.devices s with Some _ => true | None => false end.

Definition has_id (s : Site.t) : bool :=
  match Site.id s with Some _ => true | None => false end.

(** The fields whose absence makes [parseNetworkConfig] throw. *)
Definition site_complete (s : Site.t) : bool := has_devices s && has_id s.

Definition document_complete (doc : option NetworkConfig) : bool :=
  match doc with
  | Some networkConfig =>
      match sites networkConfig with
      | Some allSites => forallb site_complete allSites
      | None => false
      end
  | None => false
  end.

Definition is_ok {A : Type} (m : outcome A) : bool :=
  match m with Ok _ => true | Throw _ => false end.

(** Accessors used once a site is known to be complete. *)
Definition siteKey (s : Site.t) : jsstring := tpl (Site.id s).
Definition siteDevices (s : Site.t) : list Device.t := default [] (Site.devices s).

(** ** What the loops emit, as lists *)

(** Concatenation of [g a i] over the elements of [l], [i] counting up from
    the start index: the list a pushing [forEach] appends. *)
Fixpoint emitted_from {A B : Type} (g : A -> nat -> list B) (l : list A) (i : nat)
    : list B :=
  match l with
  | [] => []
  | a :: l' => g a i ++ emitted_from g l' (S i)
  end.

Definition connectionEdges (device : Device.t) : list Edge.t :=
  emitted_from (fun c i => [connectionEdgeOf device c i])
               (default [] (Device.connections device)) 0.

Definition trunkEdges (device : Device.t) : list Edge.t :=
  emitted_from (fun c i => [trunkEdgeOf device c i])
               (default [] (Device.trunk_connections device)) 0.

Definition sanEdges (device : Device.t) : list Edge.t :=
  emitted_from (fun c i => [sanEdgeOf device c i])
               (default [] (Device.san_connections device)) 0.

(** Edges appended for one [vpn_connections] entry. *)
Definition vpnEntryEdges (allSites : list Site.t) (site : Site.t) (device : Device.t)
    (vpnConnection : VpnConnection.t) (vpnIndex : nat) : list Edge.t :=
  match List.find (fun s => bool_decide (Site.id s = Some (VpnConnection.to_site vpnConnection)))
                  allSites with
  | None => []
  | Some targetSite =>
      match List.find (fun d => bool_decide (Device.type d = Some (js "router")))
                      (siteDevices targetSite) with
      | None => []
      | Some targetRouter =>
          [vpnEdgeOf site device targetSite targetRouter vpnConnection vpnIndex]
      end
  end.

Definition vpnEdges (allSites : list Site.t) (site : Site.t) (device : Device.t)
    : list Edge.t :=
  emitted_from (vpnEntryEdges allSites site device)
               (default [] (Device.vpn_connections device)) 0.

Definition deviceEdges (allSites : list Site.t) (site : Site.t) (device : Device.t)
    : list Edge.t :=
  connectionEdges device ++ vpnEdges allSites site device
    ++ trunkEdges device ++ sanEdges device.

Definition siteEdges (allSites : list Site.t) (site : Site.t) : list Edge.t :=
  flat_map (deviceEdges allSites site) (siteDevices site).

Definition deviceNodes (siteBasePosition : Z * Z) (devs : list Device.t) (i : nat)
    : list Node.t :=
  emitted_from (fun d j => [deviceNode d (devicePosition siteBasePosition j)]) devs i.

(** [siteDimensions[site.id]] after the device at index [i] was placed. *)
Definition growDim (siteBasePosition : Z * Z) (dim : Dimensions) (i : nat) : Dimensions :=
  let position := devicePosition siteBasePosition i in
  mkDim (Z.max (width dim) (position.1 + 150 - siteBasePosition.1))
        (Z.max (height dim) (position.2 + 150 - siteBasePosition.2))
        (deviceCount dim).

Fixpoint growDims (siteBasePosition : Z * Z) (dim : Dimensions) (n i : nat) : Dimensions :=
  match n with
  | O => dim
  | S n' => growDims siteBasePosition (growDim siteBasePosition dim i) n' (S i)
  end.

(** The padded box stored for a site of [n] devices whose entry was [dim]
    when its devices were laid out. *)
Definition paddedBox (dim : Dimensions) (n : nat) : Dimensions :=
  let minWidth := Z.max 600 (Z.min 3 (Z.of_nat n) * deviceSpacing) in
  let rows := (Z.of_nat n + maxDevicesPerRow - 1) / maxDevicesPerRow in
  let minHeight := Z.max 350 (rows * 250 + 100) in
  mkDim (Z.max minWidth (width dim + 200))
        (Z.max minHeight (height dim + 200))
        (deviceCount dim).

Definition basePosition (P : gmap jsstring (Z * Z)) (s : Site.t) : Z * Z :=
  default (0, 0) (P !! siteKey s).

(** Nodes pushed (at the back) while a site is processed. *)
Definition pushedNodes (P : gmap jsstring (Z * Z)) (s : Site.t) : list Node.t :=
  deviceNodes (basePosition P s) (siteDevices s) 0
    ++ [headerNode s (siteKey s) (basePosition P s)].

(** The node unshifted (at the front) when a site is done. *)
Definition siteBackground (P : gmap jsstring (Z * Z)) (s : Site.t) (box : Dimensions)
    : Node.t :=
  backgroundNode (siteKey s) (basePosition P s) box.

(** ** Vocabulary of the specification *)

(** The connection entries of a device, each with its index in its own list,
    in the order [parseNetworkConfig] visits them. *)
Inductive entry : Type :=
| GenericEntry (c : Connection.t)
| VpnEntry (vc : VpnConnection.t)
| TrunkEntry (c : Connection.t)
| SanEntry (c : Connection.t).

Fixpoint indexed_from {A : Type} (l : list A) (i : nat) : list (A * nat) :=
  match l with
  | [] => []
  | a :: l' => (a, i) :: indexed_from l' (S i)
  end.

Definition tagged {A : Type} (tag : A -> entry) (l : option (list A)) : list (entry * nat) :=
  List.map (fun p => (tag p.1, p.2)) (indexed_from (default [] l) 0).

Definition deviceEntries (device : Device.t) : list (entry * nat) :=
  tagged GenericEntry (Device.connections device)
    ++ tagged VpnEntry (Device.vpn_connections device)
    ++ tagged TrunkEntry (Device.trunk_connections device)
    ++ tagged SanEntry (Device.san_connections device).

(** The edges the loader appends for one entry. *)
Definition entryEdges (allSites : list Site.t) (site : Site.t) (device : Device.t)
    (en : entry * nat) : list Edge.t :=
  match en.1 with
  | GenericEntry c => [connectionEdgeOf device c en.2]
  | VpnEntry vc => vpnEntryEdges allSites site device vc en.2
  | TrunkEntry c => [trunkEdgeOf device c en.2]
  | SanEntry c => [sanEdgeOf device c en.2]
  end.

(** "[to] resolves to an existing device": some device of some site has this
    id. *)
Definition device_exists (allSites : list Site.t) (target : jsstring) : bool :=
  existsb (fun s => existsb (fun d => bool_decide (Device.id d = Some target))
                            (siteDevices s))
          allSites.

Definition named (siteId : jsstring) (s : Site.t) : bool :=
  bool_decide (Site.id s = Some siteId).

Definition is_router (d : Device.t) : bool :=
  bool_decide (Device.type d = Some (js "router")).

(** "[to_site] resolves to a site containing a router": the site of that name
    (the first one, should the name be repeated) has a device of type
    [router]. *)
Definition vpn_resolves (allSites : list Site.t) (vc : VpnConnection.t) : bool :=
  match List.find (named (VpnConnection.to_site vc)) allSites with
  | Some targetSite => existsb is_router (siteDevices targetSite)
  | None => false
  end.

Definition entry_resolves (allSites : list Site.t) (e : entry) : bool :=
  match e with
  | GenericEntry c | TrunkEntry c | SanEntry c => device_exists allSites (Connection.to c)
  | VpnEntry vc => vpn_resolves allSites vc
  end.

(** [x] is the first element of [l] that satisfies [p]. *)
Definition first_such {A : Type} (p : A -> bool) (l : list A) (x : A) : Prop :=
  exists pre post, l = pre ++ x :: post /\ p x = true /\ Forall (fun y => p y = false) pre.

(** The fields section 4.1 of the specification calls required: [sites],
    per-site [id] and [devices], per-device [id] and [type]. *)
Definition device_has_required (d : Device.t) : bool :=
  match Device.id d, Device.type d with
  | Some _, Some _ => true
  | _, _ => false
  end.

Definition required_fields_present (doc : option NetworkConfig) : bool :=
  document_complete doc
  && match doc with
     | Some networkConfig =>
         forallb (fun s => forallb device_has_required (siteDevices s))
                 (default [] (sites networkConfig))
     | None => false
     end.

(** Device placements: the nodes of type [networkNode]. *)
Definition is_device_node (n : Node.t) : bool :=
  match Node.type n with networkNode => true | _ => false end.

Definition is_background (n : Node.t) : bool :=
  match Node.type n with group => true | _ => false end.

Definition is_placement_of (deviceId : option jsstring) (n : Node.t) : bool :=
  is_device_node n && bool_decide (Node.id n = deviceId).

Definition placement (ns : list Node.t) (deviceId : option jsstring) : option Node.t :=
  List.find (is_placement_of deviceId) ns.

Definition allDeviceIds (allSites : list Site.t) : list (option jsstring) :=
  flat_map (fun s => List.map Device.id (siteDevices s)) allSites.

(** Row and column of the grid cell of the device at input index [i]. *)
Definition gridCell (i : nat) : Z * Z :=
  (Z.of_nat i / maxDevicesPerRow, Z.of_nat i mod maxDevicesPerRow).

(** Horizontal extent of a site background: from its left edge to its left
    edge plus its width. *)
Definition x_range (n : Node.t) : Z * Z :=
  match Node.style n with
  | BackgroundStyle w _ _ => ((Node.position n).1, (Node.position n).1 + w)
  | _ => ((Node.position n).1, (Node.position n).1)
  end.

Definition ranges_disjoint (r1 r2 : Z * Z) : Prop := r1.2 < r2.1 \/ r2.2 < r1.1.

(** The box of a site of [n] devices whose bookkeeping entry is its own. *)
Definition siteBox (n : nat) : Dimensions :=
  paddedBox (growDims (0, 0) (mkDim 0 0 n) n 0) n.

(** The background node of the site at ordinal position [j]. *)
Definition backgroundAt (j : nat) (s : Site.t) : Node.t :=
  backgroundNode (siteKey s) (Z.of_nat j * siteSpacing, 100)
                 (siteBox (length (siteDevices s))).

(** The priority order of device types the specification gives for the
    placement inside a site; other types go with the server group. *)
Definition specPriority (t : option jsstring) : Z :=
  if bool_decide (t = Some (js "router")) then 1
  else if bool_decide (t = Some (js "firewall")) then 2
  else if bool_decide (t = Some (js "vpn")) then 3
  else if bool_decide (t = Some (js "switch")) then 4
  else if bool_decide (t = Some (js "server")) then 5
  else if bool_decide (t = Some (js "hypervisor")) then 6
  else if bool_decide (t = Some (js "storage")) then 7
  else 5.

(** Reading order of two positions: an earlier row, or the same row further
    left. *)
Definition placed_before (p q : Z * Z) : Prop :=
  p.2 < q.2 \/ (p.2 = q.2 /\ p.1 < q.1).

(** Section 4.2 step 2 as stated: inside a site a device of a higher-priority
    type is placed before a device of a lower-priority one. *)
Definition grouped_by_priority (site : Site.t) (ns : list Node.t) : Prop :=
  forall d1 d2 n1 n2,
    In d1 (siteDevices site) -> In d2 (siteDevices site) ->
    specPriority (Device.type d1) < specPriority (Device.type d2) ->
    placement ns (Device.id d1) = Some n1 ->
    placement ns (Device.id d2) = Some n2 ->
    placed_before (Node.position n1) (Node.position n2).

(** ** Sample documents *)

Definition sampleDevice (deviceId deviceType : string)
    (cs : option (list Connection.t)) (vs : option (list VpnConnection.t)) : Device.t :=
  Device.mk (Some (js deviceId)) (Some (js deviceType)) None None None None None None
            cs vs None None.

(** The two-site scenario of section 8: [hq] with a router connected to a
    switch, [branch] with a router that has a VPN to [hq]. *)
Definition hqSite : Site.t :=
  Site.mk (Some (js "hq")) (Some (js "Headquarters")) None
    (Some [sampleDevice "r1" "router" (Some [Connection.mk (js "sw1") None]) None;
           sampleDevice "sw1" "switch" None None]).

Definition branchSite : Site.t :=
  Site.mk (Some (js "branch")) (Some (js "Branch")) None
    (Some [sampleDevice "r2" "router" None (Some [VpnConnection.mk (js "hq") None])]).

Definition twoSites : NetworkConfig := mkConfig None None (Some [hqSite; branchSite]).

(** A connection to a device that does not exist. *)
Definition danglingSite : Site.t :=
  Site.mk (Some (js "hq")) None None
    (Some [sampleDevice "r1" "router" (Some [Connection.mk (js "ghost") None]) None]).

Definition danglingConfig : NetworkConfig := mkConfig None None (Some [danglingSite]).

(** A server listed before a router. *)
Definition serverFirstSite : Site.t :=
  Site.mk (Some (js "hq")) None None
    (Some [sampleDevice "s1" "server" None None; sampleDevice "r1" "router" None None]).

Definition serverFirstConfig : NetworkConfig := mkConfig None None (Some [serverFirstSite]).

(** A device with neither [id] nor [type]. *)
Definition anonymousDevice : Device.t :=
  Device.mk None None (Some (js "box")) None None None None None None None None None.

Definition untypedConfig : NetworkConfig :=
  mkConfig None None (Some [Site.mk (Some (js "hq")) None None (Some [anonymousDevice])]).

(** A router with a VPN to its own site. *)
Definition loopRouter : Device.t :=
  sampleDevice "r1" "router" None (Some [VpnConnection.mk (js "hq") None]).

Definition loopSite : Site.t :=
  Site.mk (Some (js "hq")) None None (Some [loopRouter]).

(** ** Edge routing components *)

(** [idSum] and [edgeNumber] of the routing components: the same two lines
    open [OrthogonalConnectionEdge], [OrthogonalVpnEdge],
    [OrthogonalTrunkEdge] and [OrthogonalSanEdge]. The sum of at most 2^30
    code units, each below 2^16, stays below 2^53, so the additions of
    doubles are exact and are modelled in [N]. [split] and [charCodeAt] cannot
    throw on a string, so the [catch] branch is dead. *)
Definition idSum (id : jsstring) : N :=
  fold_left (fun sum char => (sum + char)%N) id 0%N.

Definition edgeNumber (id : jsstring) : N := (idSum id mod 3)%N.

(** The sum of the character codes of an identifier, by recursion on it. *)
Fixpoint charCodeSum (id : jsstring) : N :=
  match id with
  | [] => 0%N
  | char :: rest => (char + charCodeSum rest)%N
  end.

(** A small non-negative integer as a double. *)
Definition num (n : N) : float := PrimFloat.of_uint63 (Uint63.of_Z (Z.of_N n)).

(** [Math.max] of two numbers. *)
Definition Math_max (a b : float) : float :=
  if PrimFloat.is_nan a || PrimFloat.is_nan b then PrimFloat.nan
  else if PrimFloat.ltb a b then b
  else if PrimFloat.ltb b a then a
  else if PrimFloat.get_sign a then b else a.

(** [s.toLowerCase()] on the code units [A]..[Z]; no other code unit has a
    lower-case form among the letters of ['gateway'], the only text the
    result is searched for. *)
Definition toLowerCase (s : jsstring) : jsstring :=
  List.map (fun c => if ((65 <=? c) && (c <=? 90))%N then (c + 32)%N else c) s.

(** [s.includes(sub)] *)
Fixpoint includes (s sub : jsstring) : bool :=
  startsWith s sub
  || match s with
     | [] => false
     | _ :: s' => includes s' sub
     end.

(** The commands of an SVG path [d] string, all absolute: [M x y], [H x],
    [V y]. *)
Inductive PathCommand : Type :=
| MoveTo (x y : float)
| HorizontalTo (x : float)
| VerticalTo (y : float).

(** What the [useMemo] callback of a component returns:
    [[edgePath, labelX, labelY]]. *)
Record RoutedPath : Type := mkRouted {
  edgePath : list PathCommand;
  labelX : float;
  labelY : float
}.

Module Routing.
Local Open Scope float_scope.

(** part_002, [OrthogonalConnectionEdge]. *)
Definition OrthogonalConnectionEdge (id : jsstring)
    (sourceX sourceY targetX targetY : float) : RoutedPath :=
  let edgeNumber := edgeNumber id in
  let goingRight := sourceX <? targetX in
  let nodeWidth := 150 in
  let nodeHeight := 70 in
  let nodeClearance := 10 in
  let safeHorizontalOffset := Math_max (nodeWidth / 2 + nodeClearance) 30 in
  let safeVerticalOffset := Math_max (nodeHeight / 2 + nodeClearance) 25 in
  let edgeStaggerOffset := num edgeNumber * 10 in
  let horizontalOffset := safeHorizontalOffset + edgeStaggerOffset in
  let path :=
    if abs (sourceY - targetY) <? safeVerticalOffset then
      [MoveTo sourceX sourceY; HorizontalTo targetX]
    else if abs (sourceX - targetX) <? safeHorizontalOffset then
      [MoveTo sourceX sourceY; VerticalTo targetY]
    else
      let midX := if goingRight then sourceX + horizontalOffset
                  else sourceX - horizontalOffset in
      [MoveTo sourceX sourceY; HorizontalTo midX; VerticalTo targetY;
       HorizontalTo targetX] in
  mkRouted path ((sourceX + targetX) / 2) ((sourceY + targetY) / 2 - 10).

(** part_005, [OrthogonalVpnEdge]. *)
Definition OrthogonalVpnEdge (id : jsstring)
    (sourceX sourceY targetX targetY : float) : RoutedPath :=
  let edgeNumber := edgeNumber id in
  let nodeWidth := 150 in
  let nodeHeight := 70 in
  let nodeClearance := 20 in
  let safeHorizontalOffset := Math_max (nodeWidth / 2 + nodeClearance) 80 in
  let safeVerticalOffset := Math_max (nodeHeight / 2 + nodeClearance) 50 in
  let edgeStaggerOffset := num edgeNumber * 30 in
  let horizontalOffset := safeHorizontalOffset + edgeStaggerOffset in
  let verticalOffset := safeVerticalOffset + edgeStaggerOffset in
  let isGatewayConnection := includes (toLowerCase id) (js "gateway") in
  let path :=
    if isGatewayConnection then
      let gatewayVerticalOffset := 100 + num edgeNumber * 50 in
      let direction := if (edgeNumber mod 2 =? 0)%N then 1 else -1 in
      [MoveTo sourceX sourceY;
       HorizontalTo (sourceX + horizontalOffset);
       VerticalTo (sourceY + direction * gatewayVerticalOffset);
       HorizontalTo targetX;
       VerticalTo targetY]
    else if abs (sourceY - targetY) <? safeVerticalOffset then
      let direction := if (edgeNumber mod 2 =? 0)%N then 1 else -1 in
      let detourOffset := verticalOffset * 1.5 * direction in
      [MoveTo sourceX sourceY;
       HorizontalTo (sourceX + horizontalOffset);
       VerticalTo (sourceY + detourOffset);
       HorizontalTo (targetX - horizontalOffset);
       VerticalTo targetY;
       HorizontalTo targetX]
    else
      [MoveTo sourceX sourceY;
       HorizontalTo (sourceX + horizontalOffset);
       VerticalTo targetY;
       HorizontalTo targetX] in
  mkRouted path ((sourceX + targetX) / 2)
           ((sourceY + targetY) / 2 - 15 - num edgeNumber * 5).

(** OrthogonalTrunkEdge.tsx, [OrthogonalTrunkEdge]. *)
Definition OrthogonalTrunkEdge (id : jsstring)
    (sourceX sourceY targetX targetY : float) : RoutedPath :=
  let edgeNumber := edgeNumber id in
  let horizontalDistance := abs (targetX - sourceX) in
  let verticalDistance := abs (targetY - sourceY) in
  let isCrossSiteConnection := 300 <? horizontalDistance in
  let path :=
    if isCrossSiteConnection then
      let verticalOffset := 20 + num edgeNumber * 40 in
      let midX := sourceX + (targetX - sourceX) * 0.5 in
      let offsetDirection :=
        if (edgeNumber =? 0)%N then 0 else if (edgeNumber =? 1)%N then 1 else -1 in
      if offsetDirection =? 0 then
        [MoveTo sourceX sourceY; HorizontalTo midX; VerticalTo targetY;
         HorizontalTo targetX]
      else
        let offsetY := sourceY + offsetDirection * verticalOffset in
        [MoveTo sourceX sourceY; VerticalTo offsetY; HorizontalTo midX;
         VerticalTo targetY; HorizontalTo targetX]
    else if abs (sourceY - targetY) <? 30 then
      [MoveTo sourceX sourceY; HorizontalTo targetX]
    else if abs (sourceX - targetX) <? 30 then
      [MoveTo sourceX sourceY; VerticalTo targetY]
    else
      let offsetDirection := if (edgeNumber mod 2 =? 0)%N then 1 else -1 in
      let offsetAmount := 25 + num edgeNumber * 15 in
      if verticalDistance <? horizontalDistance then
        let midY := sourceY + offsetDirection * offsetAmount in
        [MoveTo sourceX sourceY; VerticalTo midY; HorizontalTo targetX;
         VerticalTo targetY]
      else
        let midX := sourceX + offsetDirection * offsetAmount in
        [MoveTo sourceX sourceY; HorizontalTo midX; VerticalTo targetY;
         HorizontalTo targetX] in
  mkRouted path ((sourceX + targetX) / 2) ((sourceY + targetY) / 2 - 12).

(** OrthogonalSanEdge.tsx, [OrthogonalSanEdge]. *)
Definition OrthogonalSanEdge (id : jsstring)
    (sourceX sourceY targetX targetY : float) : RoutedPath :=
  let edgeNumber := edgeNumber id in
  let horizontalDistance := abs (targetX - sourceX) in
  let goingDown := sourceY <? targetY in
  let isCrossSiteConnection := 300 <? horizontalDistance in
  let path :=
    if isCrossSiteConnection then
      let verticalOffset := 40 + num edgeNumber * 50 in
      let midX := sourceX + (targetX - sourceX) * 0.5 in
      let offsetDirection :=
        if (edgeNumber =? 0)%N then 0 else if (edgeNumber =? 1)%N then -1 else 1 in
      if offsetDirection =? 0 then
        [MoveTo sourceX sourceY; HorizontalTo midX; VerticalTo targetY;
         HorizontalTo targetX]
      else
        let offsetY := sourceY + offsetDirection * verticalOffset in
        [MoveTo sourceX sourceY; VerticalTo offsetY; HorizontalTo midX;
         VerticalTo targetY; HorizontalTo targetX]
    else if abs (sourceY - targetY) <? 30 then
      [MoveTo sourceX sourceY; HorizontalTo targetX]
    else if abs (sourceX - targetX) <? 30 then
      [MoveTo sourceX sourceY; VerticalTo targetY]
    else
      let offsetDirection := if (edgeNumber mod 2 =? 0)%N then 1 else -1 in
      let offsetAmount := 35 + num edgeNumber * 20 in
      if goingDown then
        let midX := sourceX + offsetDirection * offsetAmount in
        [MoveTo sourceX sourceY; HorizontalTo midX; VerticalTo targetY;
         HorizontalTo targetX]
      else
        let midY := sourceY + offsetDirection * offsetAmount in
        [MoveTo sourceX sourceY; VerticalTo midY; HorizontalTo targetX;
         VerticalTo targetY] in
  mkRouted path ((sourceX + targetX) / 2) ((sourceY + targetY) / 2 - 12).

End Routing.

(** [edgeTypes] of NetworkMap.tsx: the component that draws an edge of each
    type. *)
Definition edgeTypes (type : EdgeType) : jsstring -> float -> float -> float -> float -> RoutedPath :=
  match type with
  | vpnEdge => Routing.OrthogonalVpnEdge
  | trunkEdge => Routing.OrthogonalTrunkEdge
  | sanEdge => Routing.OrthogonalSanEdge
  | connectionEdge => Routing.OrthogonalConnectionEdge
  end.

(** The sources hold a second snapshot of three of the components (appended
    to ConnectionEdge.tsx, to OrthogonalSanEdge.tsx and in part_004); they
    differ from the ones above in their case selection only. *)
Module RoutingSnapshot.
Local Open Scope float_scope.

(** ConnectionEdge.tsx, second part: [OrthogonalTrunkEdge]. *)
Definition OrthogonalTrunkEdge (id : jsstring)
    (sourceX sourceY targetX targetY : float) : RoutedPath :=
  let edgeNumber := edgeNumber id in
  let horizontalDistance := abs (targetX - sourceX) in
  let nodeWidth := 150 in
  let nodeHeight := 70 in
  let nodeClearance := 15 in
  let safeHorizontalOffset := Math_max (nodeWidth / 2 + nodeClearance) 60 in
  let safeVerticalOffset := Math_max (nodeHeight / 2 + nodeClearance) 40 in
  let edgeStaggerOffset := num edgeNumber * 25 in
  let horizontalOffset := safeHorizontalOffset + edgeStaggerOffset in
  let verticalOffset := safeVerticalOffset + edgeStaggerOffset in
  let path :=
    if abs (sourceY - targetY) <? safeVerticalOffset then
      let direction := if (edgeNumber mod 2 =? 0)%N then 1 else -1 in
      let detourOffset := verticalOffset * direction in
      [MoveTo sourceX sourceY;
       HorizontalTo (sourceX + horizontalOffset);
       VerticalTo (sourceY + detourOffset);
       HorizontalTo (targetX - horizontalOffset);
       VerticalTo targetY;
       HorizontalTo targetX]
    else if horizontalDistance <? safeHorizontalOffset * 2 then
      let smallOffset := 30 + num edgeNumber * 15 in
      [MoveTo sourceX sourceY;
       HorizontalTo (sourceX + smallOffset);
       VerticalTo targetY;
       HorizontalTo targetX]
    else
      [MoveTo sourceX sourceY;
       HorizontalTo (sourceX + horizontalOffset);
       VerticalTo targetY;
       HorizontalTo targetX] in
  mkRouted path ((sourceX + targetX) / 2) ((sourceY + targetY) / 2 - 12).

(** OrthogonalSanEdge.tsx, second part: [OrthogonalSanEdge]. *)
Definition OrthogonalSanEdge (id : jsstring)
    (sourceX sourceY targetX targetY : float) : RoutedPath :=
  let edgeNumber := edgeNumber id in
  let nodeWidth := 150 in
  let nodeHeight := 70 in
  let nodeClearance := 15 in
  let safeHorizontalOffset := Math_max (nodeWidth / 2 + nodeClearance) 70 in
  let safeVerticalOffset := Math_max (nodeHeight / 2 + nodeClearance) 45 in
  let edgeStaggerOffset := num edgeNumber * 30 in
  let horizontalOffset := safeHorizontalOffset + edgeStaggerOffset in
  let path :=
    if abs (sourceY - targetY) <? safeVerticalOffset then
      let direction := if (edgeNumber mod 2 =? 0)%N then -1 else 1 in
      let detourOffset := (safeVerticalOffset + edgeStaggerOffset) * direction in
      [MoveTo sourceX sourceY;
       HorizontalTo (sourceX + horizontalOffset);
       VerticalTo (sourceY + detourOffset);
       HorizontalTo (targetX - horizontalOffset);
       VerticalTo targetY;
       HorizontalTo targetX]
    else
      [MoveTo sourceX sourceY;
       HorizontalTo (sourceX + horizontalOffset);
       VerticalTo targetY;
       HorizontalTo targetX] in
  mkRouted path ((sourceX + targetX) / 2) ((sourceY + targetY) / 2 - 12).

(** part_004, [OrthogonalVpnEdge]: no stagger, distance thresholds. *)
Definition OrthogonalVpnEdge (id : jsstring)
    (sourceX sourceY targetX targetY : float) : RoutedPath :=
  let horizontalDistance := abs (targetX - sourceX) in
  let goingRight := sourceX <? targetX in
  let isLongDistanceToRight := (800 <? horizontalDistance) && goingRight in
  let isMediumDistanceToRight :=
    (400 <? horizontalDistance) && (horizontalDistance <? 700) && goingRight in
  let path :=
    if isLongDistanceToRight then
      let downwardOffset := 180 in
      [MoveTo sourceX sourceY;
       HorizontalTo (sourceX + 50);
       VerticalTo (sourceY + downwardOffset);
       HorizontalTo (targetX - 50);
       VerticalTo targetY;
       HorizontalTo targetX]
    else if isMediumDistanceToRight then
      [MoveTo sourceX sourceY; HorizontalTo targetX]
    else if abs (sourceY - targetY) <? 30 then
      [MoveTo sourceX sourceY; HorizontalTo targetX]
    else if abs (sourceX - targetX) <? 30 then
      [MoveTo sourceX sourceY; VerticalTo targetY]
    else
      let turnX := sourceX + (targetX - sourceX) / 3 in
      [MoveTo sourceX sourceY; HorizontalTo turnX; VerticalTo targetY;
       HorizontalTo targetX] in
  mkRouted path ((sourceX + targetX) / 2) ((sourceY + targetY) / 2 - 15).

End RoutingSnapshot.

(** ** Geometry of a path *)

Abbreviation Point := (float * float)%type.

(** The end point of every command of a path, in order; [H] keeps the
    current y and [V] the current x. *)
Fixpoint trace (current : Point) (commands : list PathCommand) : list Point :=
  match commands with
  | [] => []
  | c :: rest =>
      let p := match c with
               | MoveTo x y => (x, y)
               | HorizontalTo x => (x, current.2)
               | VerticalTo y => (current.1, y)
               end in
      p :: trace p rest
  end.

Definition endpoints (commands : list PathCommand) : list Point :=
  trace (0%float, 0%float) commands.

(** The segments of a polyline: its pairs of consecutive points. *)
Fixpoint segments (points : list Point) : list (Point * Point) :=
  match points with
  | p :: (q :: _) as rest => (p, q) :: segments rest
  | _ => []
  end.

(** A segment is axis-aligned when its ends agree in x or in y, so that at
    most one coordinate changes along it. *)
Definition axis_aligned (s : Point * Point) : Prop :=
  s.1.1 = s.2.1 \/ s.1.2 = s.2.2.

(** The ends of a segment differ in exactly one of x and y. *)
Definition differs_in_exactly_one (s : Point * Point) : Prop :=
  (s.1.1 <> s.2.1 /\ s.1.2 = s.2.2) \/ (s.1.1 = s.2.1 /\ s.1.2 <> s.2.2).

(** An edge identifier the loader builds, with stagger index 0. *)
Definition sampleTrunkId : jsstring := js "trunk-sw1-sw2-0".

(** ** The loading effect of [NetworkMapInner] (NetworkMap.tsx) *)

(** White space and line terminators of ECMAScript, the code units [trim]
    strips. *)
Definition isWhiteSpace (c : N) : bool :=
  existsb (N.eqb c)
    [9; 10; 11; 12; 13; 32; 160; 5760; 8232; 8233; 8239; 8287; 12288; 65279]%N
  || ((8192 <=? c) && (c <=? 8202))%N.

(** [!yamlContent.trim()] *)
Definition blank (s : jsstring) : bool := forallb isWhiteSpace s.

Inductive ErrorText : Type :=
| NoConfiguration             (* 'No network configuration provided' *)
| FailedToParse (err : exn).  (* `Failed to parse network configuration: ${...}` *)

(** The state hooks of [NetworkMapInner]. *)
Record MapState : Type := mkMap {
  shownNodes : list Node.t;
  shownEdges : list Edge.t;
  isLoading : bool;
  error : option ErrorText
}.

Section Pipeline.
Variable yaml_load : jsstring -> outcome (option NetworkConfig).

(** [setupNetwork], run by the effect whenever [yamlContent] changes: the
    state it leaves behind. A failed parse sets [error] and keeps the nodes
    and edges that were there. *)
Definition setupNetwork (yamlContent : jsstring) (s : MapState) : MapState :=
  if blank yamlContent then mkMap [] [] false (Some NoConfiguration)
  else
    match parseNetworkConfig yaml_load yamlContent with
    | Ok (parsedNodes, parsedEdges) => mkMap parsedNodes parsedEdges false None
    | Throw err => mkMap (shownNodes s) (shownEdges s) false (Some (FailedToParse err))
    end.

End Pipeline.

(** ** [useMemo] in the routing components *)

(** The properties of an edge component that its path computation can see. *)
Record EdgeProps : Type := mkProps {
  prop_id : jsstring;
  sourceX : float;
  sourceY : float;
  targetX : float;
  targetY : float;
  prop_label : option jsstring;
  prop_data : option EdgeData
}.

(** The dependency array [[id, sourceX, sourceY, targetX, targetY]]. *)
Definition dependencies (p : EdgeProps) : jsstring * float * float * float * float :=
  (prop_id p, sourceX p, sourceY p, targetX p, targetY p).

(** React compares dependencies with [Object.is]: on numbers, the same value
    with [NaN] equal to itself and [+0] different from [-0]. *)
Definition sameDependencies (d d' : jsstring * float * float * float * float) : bool :=
  let '(id, sx, sy, tx, ty) := d in
  let '(id', sx', sy', tx', ty') := d' in
  bool_decide (id = id')
  && PrimFloat.Leibniz.eqb sx sx' && PrimFloat.Leibniz.eqb sy sy'
  && PrimFloat.Leibniz.eqb tx tx' && PrimFloat.Leibniz.eqb ty ty'.

(** One render of a component whose path is
    [useMemo(() => ..., [id, sourceX, sourceY, targetX, targetY])]: the value
    it uses and the memo cell it leaves. *)
Definition renderEdge (component : jsstring -> float -> float -> float -> float -> RoutedPath)
    (p : EdgeProps)
    (cell : option (jsstring * float * float * float * float * RoutedPath))
    : RoutedPath * option (jsstring * float * float * float * float * RoutedPath) :=
  let fresh := component (prop_id p) (sourceX p) (sourceY p) (targetX p) (targetY p) in
  match cell with
  | Some (d, cached) =>
      if sameDependencies d (dependencies p) then (cached, cell)
      else (fresh, Some (dependencies p, fresh))
  | None => (fresh, Some (dependencies p, fresh))
  end.

(** The values used by a series of renders of one mounted component. *)
Fixpoint renderEdges (component : jsstring -> float -> float -> float -> float -> RoutedPath)
    (ps : list EdgeProps)
    (cell : option (jsstring * float * float * float * float * RoutedPath))
    : list RoutedPath :=
  match ps with
  | [] => []
  | p :: rest =>
      let '(value, cell') := renderEdge component p cell in
      value :: renderEdges component rest cell'
  end.

(** ** Further vocabulary for the loader's output *)

(** Nodes pushed for the site at ordinal position [j] when the site ids are
    unique: its devices and its header, laid out from [(1100 * j, 100)]. *)
Definition pushedAt (j : nat) (s : Site.t) : list Node.t :=
  deviceNodes (Z.of_nat j * siteSpacing, 100) (siteDevices s) 0
    ++ [headerNode s (siteKey s) (Z.of_nat j * siteSpacing, 100)].

(** The size [parseNetworkConfig] takes for a node when it grows a site box
    ([rightEdge = position.x + 150], [bottomEdge = position.y + 150]). *)
Definition nodeExtent : Z := 150.

(** The rectangle of a background node: its position and its [style] width
    and height. *)
Definition boxOf (n : Node.t) : Z * Z * Z * Z :=
  match Node.style n with
  | BackgroundStyle w h _ => ((Node.position n).1, (Node.position n).2, w, h)
  | _ => ((Node.position n).1, (Node.position n).2, 0, 0)
  end.

(** The footprint of a node placed at [p] lies within the rectangle. *)
Definition footprint_inside (p : Z * Z) (box : Z * Z * Z * Z) : Prop :=
  let '(x, y, w, h) := box in
  x <= p.1 /\ p.1 + nodeExtent <= x + w /\ y <= p.2 /\ p.2 + nodeExtent <= y + h.

(** Width and stored height of the box of a site of [n] devices. *)
Definition boxWidth (n : nat) : Z :=
  match n with
  | O | S O => 600
  | S (S O) => 750
  | _ => 1000
  end.

Definition boxHeight (n : nat) : Z :=
  match n with
  | O => 350
  | _ => 250 * ((Z.of_nat n + 2) / 3) + 200
  end.

Definition allDevices (allSites : list Site.t) : list Device.t :=
  flat_map siteDevices allSites.

(** The code unit of ['-'], which separates the parts of an edge id. *)
Definition dash : N := 45.

(** The index an edge carries in its [data]. *)
Definition edgeIndex (e : Edge.t) : nat :=
  match Edge.data e with
  | ConnectionData i | VpnData _ i | TrunkData i | SanData i => i
  end.

Definition edgeKey (e : Edge.t) : EdgeType * nat := (Edge.type e, edgeIndex e).

(** A device whose id is present and has no dash in it. *)
Definition plain_id (d : Device.t) : bool :=
  match Device.id d with
  | Some i => negb (existsb (N.eqb dash) i)
  | None => false
  end.

(** The devices of a document, each with its site. *)
Definition sitedDevices (allSites : list Site.t) : list (Site.t * Device.t) :=
  flat_map (fun s => List.map (pair s) (siteDevices s)) allSites.

(** The sum of the digits of a decimal numeral. *)
Fixpoint digitSum (d : Decimal.uint) : nat :=
  match d with
  | Decimal.Nil => 0
  | Decimal.D0 d => digitSum d
  | Decimal.D1 d => 1 + digitSum d
  | Decimal.D2 d => 2 + digitSum d
  | Decimal.D3 d => 3 + digitSum d
  | Decimal.D4 d => 4 + digitSum d
  | Decimal.D5 d => 5 + digitSum d
  | Decimal.D6 d => 6 + digitSum d
  | Decimal.D7 d => 7 + digitSum d
  | Decimal.D8 d => 8 + digitSum d
  | Decimal.D9 d => 9 + digitSum d
  end%nat.

(** ** The shape of a routed path *)

Abbreviation EdgeComponent := (jsstring -> float -> float -> float -> float -> RoutedPath).

(** The four registered components and the three of the second snapshot. *)
Definition allComponents : list EdgeComponent :=
  [Routing.OrthogonalConnectionEdge; Routing.OrthogonalVpnEdge;
   Routing.OrthogonalTrunkEdge; Routing.OrthogonalSanEdge;
   RoutingSnapshot.OrthogonalTrunkEdge; RoutingSnapshot.OrthogonalSanEdge;
   RoutingSnapshot.OrthogonalVpnEdge].

(** A run of [H] and [V] commands in which the two kinds alternate: no [M],
    and no two consecutive commands of the same kind. This is about the
    commands; a command may leave the current point where it is. *)
Fixpoint alternates (commands : list PathCommand) : bool :=
  match commands with
  | [] => true
  | MoveTo _ _ :: _ => false
  | HorizontalTo _ :: rest =>
      match rest with
      | HorizontalTo _ :: _ => false
      | _ => alternates rest
      end
  | VerticalTo _ :: rest =>
      match rest with
      | VerticalTo _ :: _ => false
      | _ => alternates rest
      end
  end.

(** Where a path ends. *)
Definition endPoint (path : list PathCommand) : option Point := last (endpoints path).

(** ** What [NetworkMapInner] renders (NetworkMap.tsx) *)

Inductive View : Type :=
| LoadingView                       (* 'Loading network diagram...' *)
| ErrorView (text : ErrorText)
| DiagramView (shown : list Node.t) (links : list Edge.t) (nodesDraggable : bool).

(** The three early returns and the [ReactFlow] element. Both error texts
    are non-empty strings, hence truthy. *)
Definition renderMap (mounted isAdmin : bool) (s : MapState) : View :=
  if negb mounted then LoadingView
  else if isLoading s then LoadingView
  else match error s with
       | Some text => ErrorView text
       | None => DiagramView (shownNodes s) (shownEdges s) isAdmin
       end.

(** A node of the [nodes] state with the [selected] entry that [onNodeClick]
    adds to its [data]. *)
Record SelectableNode : Type := mkSelectable {
  shown : Node.t;
  selected : option bool
}.

(** [onNodeClick]: the updater passed to [setNodes]. *)
Definition onNodeClick (node : Node.t) (nds : list SelectableNode) : list SelectableNode :=
  List.map (fun n => mkSelectable (shown n)
                       (Some (bool_decide (Node.id (shown n) = Node.id node))))
           nds.

Definition is_selected (n : SelectableNode) : bool :=
  match selected n with Some true => true | _ => false end.

(** ** The editor page ([AdminPage], part_001) *)

Module AdminPage.

Record State : Type := mkState {
  yamlContent : jsstring;
  activeYamlContent : jsstring;
  isSaved : bool
}.

(** [useState('')], [useState('')], [useState(true)] *)
Definition initial : State := mkState [] [] true.

Inductive Event : Type :=
| SampleLoaded (content : jsstring)    (* the fetch of the mount effect succeeds *)
| EditorChange (newContent : jsstring) (* [handleEditorChange] *)
| ApplyChanges.                        (* [handleApplyChanges] *)

(** One event, handled against the state of the last render. *)
Definition step (s : State) (e : Event) : State :=
  match e with
  | SampleLoaded content => mkState content content (isSaved s)
  | EditorChange newContent => mkState newContent (activeYamlContent s) false
  | ApplyChanges => mkState (yamlContent s) (yamlContent s) true
  end.

Definition run (events : list Event) : State := fold_left step events initial.

End AdminPage.

(** ** The editor's height ([YamlEditor], part_004) *)

(** [(value.match(/\n/g) || []).length + 1] *)
Definition lineCount (value : jsstring) : Z :=
  Z.of_nat (length (List.filter (N.eqb 10) value)) + 1.

(** [calculateHeight]: the pixels of [`${newHeight}px`]. *)
Definition calculateHeight (value : jsstring) : Z :=
  Z.max 300 (Z.min 600 (lineCount value * 20)).

(** ** Client-side authentication (utils/auth, after the loader in
    network-parser.ts) and the login form *)

Module Auth.

Abbreviation Storage := (gmap jsstring jsstring).

Definition ADMIN_USERNAME : jsstring := js "admin".
Definition ADMIN_PASSWORD : jsstring := js "network-admin".
Definition AUTH_TOKEN_KEY : jsstring := js "network-map-auth-token".

(** [isAuthenticated]; [window] is [None] where [typeof window] is
    ['undefined'], and holds the session storage otherwise. [getItem] gives
    [null] for a missing key, and [!!token] is false for [null] and for the
    empty string. *)
Definition isAuthenticated (window : option Storage) : bool :=
  match window with
  | None => false
  | Some sessionStorage =>
      match sessionStorage !! AUTH_TOKEN_KEY with
      | Some (_ :: _) => true
      | _ => false
      end
  end.

(** [login], called from the form in a browser: the result and the storage
    it leaves. *)
Definition login (username password : jsstring) (sessionStorage : Storage)
    : bool * Storage :=
  if bool_decide (username = ADMIN_USERNAME) && bool_decide (password = ADMIN_PASSWORD)
  then (true, <[AUTH_TOKEN_KEY := js "authenticated"]> sessionStorage)
  else (false, sessionStorage).

(** [logout] *)
Definition logout (window : option Storage) : option Storage :=
  match window with
  | None => None
  | Some sessionStorage => Some (delete AUTH_TOKEN_KEY sessionStorage)
  end.

Inductive FormError : Type :=
| EnterBoth      (* 'Please enter both username and password' *)
| InvalidLogin.  (* 'Invalid username or password' *)

(** What [handleSubmit] of [LoginForm] leaves: the error shown, whether
    [onLoginSuccess] was called, and the storage. *)
Record Submitted : Type := mkSubmitted {
  formError : option FormError;
  loginSucceeded : bool;
  storage : Storage
}.

Definition handleSubmit (username password : jsstring) (sessionStorage : Storage)
    : Submitted :=
  if bool_decide (username = []) || bool_decide (password = [])
  then mkSubmitted (Some EnterBoth) false sessionStorage
  else
    let '(success, sessionStorage') := login username password sessionStorage in
    if success then mkSubmitted None true sessionStorage'
    else mkSubmitted (Some InvalidLogin) false sessionStorage'.

End Auth.

(** ** The second revision of the parser (appended to page.tsx)

    The revision lays the devices of a site out in groups by type, with
    sizes that depend on the type; its arithmetic divides ([width / 2], the
    mean of the widths), so its numbers are kept as doubles. Array lengths
    and indices are below 2^32, where the conversion to a double is exact
    and [Math.floor (i / 3)], [i % 3] and [Math.ceil (n / 3)] agree with the
    quotient, the remainder and the rounded-up quotient of the integers. *)

(** [Math.min] of two numbers. *)
Definition Math_min (a b : float) : float :=
  if PrimFloat.is_nan a || PrimFloat.is_nan b then PrimFloat.nan
  else if PrimFloat.ltb a b then a
  else if PrimFloat.ltb b a then b
  else if PrimFloat.get_sign a then a else b.

(** An array length or index as a double. *)
Definition num_of_nat (n : nat) : float := num (N.of_nat n).

(** [s.endsWith(suffix)] *)
Definition endsWith (s suffix : jsstring) : bool :=
  startsWith (rev s) (rev suffix).

(** The names every object literal inherits from [Object.prototype]; reading
    one of them from an object without such an own property gives a function
    (an object for [__proto__]), which is truthy and has no [push]. *)
Definition inheritedKeys : list jsstring :=
  [js "constructor"; js "__defineGetter__"; js "__defineSetter__";
   js "hasOwnProperty"; js "__lookupGetter__"; js "__lookupSetter__";
   js "isPrototypeOf"; js "propertyIsEnumerable"; js "toString"; js "valueOf";
   js "__proto__"; js "toLocaleString"].

Module ParserSnapshot.
Local Open Scope float_scope.

Module NodeData.
Record t : Type := mk {
  label : option jsstring;
  type : option jsstring;
  ip : option jsstring;
  model : option jsstring;
  os : option jsstring;
  hypervisorType : option jsstring;
  virtualMachines : option (list VirtualMachine);
  siteId : option jsstring;
  subtitle : option jsstring;
  isSiteHeader : bool
}.
End NodeData.

(** The colours picked by [site.id.startsWith('main')] and
    [site.id.startsWith('data')]. *)
Inductive Palette : Type := mainColors | dataColors | otherColors.

Definition paletteOf (sid : jsstring) : Palette :=
  if startsWith sid (js "main") then mainColors
  else if startsWith sid (js "data") then dataColors
  else otherColors.

(** The part of [style] that depends on the input. *)
Inductive NodeStyle : Type :=
| DeviceStyle (width : float) (height : option float)
| BackgroundStyle (width height : float) (palette : Palette)
| HeaderStyle (palette : Palette).

Module Node.
Record t : Type := mk {
  id : option jsstring;
  position : float * float;
  data : NodeData.t;
  type : NodeType;
  style : NodeStyle
}.
End Node.

Inductive EdgeData : Type :=
| StandardData
| VpnData (isCrossSite : bool) (vpnIndex : nat) (sourceSite targetSite : option jsstring)
| TrunkData (trunkIndex : nat)
| SanData (sanIndex : nat).

Module Edge.
Record t : Type := mk {
  id : jsstring;
  source : option jsstring;
  target : option jsstring;
  type : EdgeType;
  label : option jsstring;
  data : EdgeData
}.
End Edge.

Record Dimensions : Type := mkDim {
  width : float;
  height : float;
  deviceCount : nat
}.

(** The node array and the three objects keyed by [site.id]. *)
Record Stores : Type := mkStores {
  nodes : list Node.t;
  sitePositions : gmap jsstring (float * float);
  siteNodeIds : gmap jsstring (list (option jsstring));
  siteDimensions : gmap jsstring Dimensions
}.

Definition emptyStores : Stores := mkStores [] ∅ ∅ ∅.

Definition siteSpacing : float := 1200.
Definition maxDevicesPerRow : nat := 3.

(** First [networkConfig.sites.forEach]. *)
Definition placeSite (site : Site.t) (index : nat) (st : Stores) : outcome Stores :=
  let k := tpl (Site.id site) in
  match Site.devices site with
  | None => Throw TypeError
  | Some devs =>
      Ok (mkStores (nodes st)
            (<[k := (num_of_nat index * siteSpacing + 100, 100)]> (sitePositions st))
            (<[k := []]> (siteNodeIds st))
            (<[k := mkDim 0 0 (length devs)]> (siteDimensions st)))
  end.

Record TypeConfig : Type := mkConfig {
  cfg_width : float;
  cfg_height : float;
  cfg_spacing : float
}.

Definition serverConfig : TypeConfig := mkConfig 180 140 280.

(** [deviceTypeConfig[key]], own properties. *)
Definition deviceTypeConfig (key : jsstring) : option TypeConfig :=
  if bool_decide (key = js "router") then Some (mkConfig 180 120 280)
  else if bool_decide (key = js "firewall") then Some (mkConfig 180 120 280)
  else if bool_decide (key = js "switch") then Some (mkConfig 180 120 280)
  else if bool_decide (key = js "server") then Some serverConfig
  else if bool_decide (key = js "hypervisor") then Some (mkConfig 220 180 320)
  else if bool_decide (key = js "vpn") then Some (mkConfig 180 120 280)
  else if bool_decide (key = js "storage") then Some (mkConfig 180 120 280)
  else None.

(** [Object.entries(deviceTypeOrder)], in insertion order. *)
Definition deviceTypeOrder : list (jsstring * nat) :=
  [(js "router", 1); (js "firewall", 2); (js "vpn", 3); (js "switch", 4);
   (js "server", 5); (js "hypervisor", 6); (js "storage", 7)]%nat.

(** [deviceTypeOrder[a.type] || 99]. [deviceTypeOrder] is an object
    literal: for a name it inherits from [Object.prototype] the lookup gives
    a function (an object for [__proto__]), which is truthy and not a
    number; that is [None] here. *)
Definition orderOf (device : Device.t) : option nat :=
  if bool_decide (tpl (Device.type device) ∈ inheritedKeys) then None
  else Some (default 99%nat
               (snd <$> List.find (fun entry => bool_decide (entry.1 = tpl (Device.type device)))
                                  deviceTypeOrder)).

(** The comparator of the sort, [order(a) - order(b)]. A subtraction with a
    function or an object gives [NaN], which is [None] here. *)
Definition compareOrder (a b : Device.t) : option Z :=
  match orderOf a, orderOf b with
  | Some x, Some y => Some (Z.of_nat x - Z.of_nat y)%Z
  | _, _ => None
  end.

(** Where a comparison is [NaN] the comparator is not consistent and the
    language leaves the order of the sorted array to the engine. The engine
    of this embedding ranks a device of an inherited type name with the
    unknown types. The array is read next by the grouping loop, which throws
    on such an array whatever its order, so the choice is never seen. *)
Definition rankOf (device : Device.t) : nat := default 99%nat (orderOf device).

(** [a] is not to be placed after [b]: the comparator is not positive, or
    it is [NaN] and the engine's rank decides. *)
Definition notAfter (a b : Device.t) : bool :=
  match compareOrder a b with
  | Some v => (v <=? 0)%Z
  | None => (rankOf a <=? rankOf b)%nat
  end.

(** [Array.prototype.sort] is stable. With a consistent comparator its
    result is the one of any stable sort, here insertion from the right. *)
Fixpoint insertByOrder (device : Device.t) (sorted : list Device.t) : list Device.t :=
  match sorted with
  | [] => [device]
  | d :: rest =>
      if notAfter device d then device :: sorted
      else d :: insertByOrder device rest
  end.

Definition sortByOrder (devices : list Device.t) : list Device.t :=
  foldr insertByOrder [] devices.

(** Callback of [sortedDevices.forEach] that fills [devicesByType]. *)
Definition pushByType (device : Device.t) (_ : nat)
    (devicesByType : gmap jsstring (list Device.t))
    : outcome (gmap jsstring (list Device.t)) :=
  let key := tpl (Device.type device) in
  if bool_decide (key ∈ inheritedKeys) then Throw TypeError
  else Ok (<[key := default [] (devicesByType !! key) ++ [device]]> devicesByType).

Definition deviceNode (site : Site.t) (typeConfig : TypeConfig) (device : Device.t)
    (position : float * float) : Node.t :=
  Node.mk (Device.id device) position
    (NodeData.mk (Device.name device) (Device.type device) (Device.ip device)
       (Device.model device) (Device.os device) (Device.hypervisor_type device)
       (Device.virtual_machines device) (Site.id site) None false)
    networkNode
    (DeviceStyle (cfg_width typeConfig)
       (if bool_decide (Device.type device = Some (js "hypervisor")) then None
        else Some (cfg_height typeConfig))).

Definition devicePosition (typeConfig : TypeConfig) (startX currentY : float)
    (deviceIndex : nat) : float * float :=
  let row := (deviceIndex / maxDevicesPerRow)%nat in
  let col := (deviceIndex mod maxDevicesPerRow)%nat in
  (startX + num_of_nat col * cfg_spacing typeConfig,
   currentY + num_of_nat row * (cfg_height typeConfig + 60)).

(** Callback of [devices.forEach] inside a type group. *)
Definition layoutDevice (site : Site.t) (siteBasePosition : float * float)
    (typeConfig : TypeConfig) (startX currentY : float)
    (device : Device.t) (deviceIndex : nat) (st : Stores) : outcome Stores :=
  let k := tpl (Site.id site) in
  let position := devicePosition typeConfig startX currentY deviceIndex in
  match siteNodeIds st !! k, siteDimensions st !! k with
  | Some ids, Some dim =>
      let rightEdge := position.1 + cfg_width typeConfig in
      let bottomEdge := position.2 + cfg_height typeConfig in
      let dim' := mkDim (Math_max (width dim) (rightEdge - siteBasePosition.1 + 100))
                        (Math_max (height dim) (bottomEdge - siteBasePosition.2 + 100))
                        (deviceCount dim) in
      Ok (mkStores (nodes st ++ [deviceNode site typeConfig device position])
            (sitePositions st)
            (<[k := ids ++ [Device.id device]]> (siteNodeIds st))
            (<[k := dim']> (siteDimensions st)))
  | _, _ => Throw TypeError
  end.

(** [startX] of a type group of [count] devices, centred on the width the
    site has reached. *)
Definition startXOf (siteBasePosition : float * float) (dim : Dimensions)
    (typeConfig : TypeConfig) (count : nat) : float :=
  let devicesPerRow := Math_min (num_of_nat count) (num_of_nat maxDevicesPerRow) in
  let totalWidth := devicesPerRow * cfg_spacing typeConfig in
  siteBasePosition.1 + width dim / 2 - totalWidth / 2 + cfg_spacing typeConfig / 2.

(** [rows * (typeConfig.height + 60) + 40], what a group adds to
    [currentY]. *)
Definition groupHeight (typeConfig : TypeConfig) (count : nat) : float :=
  let rows := num_of_nat ((count + maxDevicesPerRow - 1) / maxDevicesPerRow)%nat in
  rows * (cfg_height typeConfig + 60) + 40.

(** Callback of [Object.entries(deviceTypeOrder).forEach]; the state is
    [currentY] and the stores. *)
Definition layoutGroup (site : Site.t) (siteBasePosition : float * float)
    (devicesByType : gmap jsstring (list Device.t))
    (entry : jsstring * nat) (_ : nat) (s : float * Stores) : outcome (float * Stores) :=
  let k := tpl (Site.id site) in
  match devicesByType !! entry.1 with
  | None | Some [] => Ok s
  | Some devices =>
      let typeConfig := default serverConfig (deviceTypeConfig entry.1) in
      match siteDimensions s.2 !! k with
      | None => Throw TypeError
      | Some dim =>
          let startX := startXOf siteBasePosition dim typeConfig (length devices) in
          st' ← forEach (layoutDevice site siteBasePosition typeConfig startX s.1)
                        devices s.2;
          Ok (s.1 + groupHeight typeConfig (length devices), st')
      end
  end.

(** The four loops that push the edges of a device. *)
Definition connectionEdgeOf (device : Device.t) (connection : Connection.t)
    (connIdx : nat) : Edge.t :=
  Edge.mk
    (js "connection-" ++ tpl (Device.id device) ++ js "-"
       ++ Connection.to connection ++ js "-" ++ js_of_nat connIdx)
    (Device.id device)
    (Some (Connection.to connection))
    connectionEdge
    (Connection.label connection)
    StandardData.

Definition vpnEdgeOf (site : Site.t) (device : Device.t) (targetSite : Site.t)
    (targetRouter : Device.t) (vpnConnection : VpnConnection.t) (vpnIndex : nat) : Edge.t :=
  let isCrossSite := negb (bool_decide (Site.id targetSite = Site.id site)) in
  let edgeId := js "vpn-" ++ tpl (Device.id device) ++ js "-"
                  ++ tpl (Device.id targetRouter) ++ js "-" ++ js_of_nat vpnIndex in
  Edge.mk edgeId
    (Device.id device)
    (Device.id targetRouter)
    vpnEdge
    (Some (or_default (VpnConnection.label vpnConnection) (js "VPN")))
    (VpnData isCrossSite vpnIndex (Site.id site) (Site.id targetSite)).

Definition trunkEdgeOf (device : Device.t) (trunkConnection : Connection.t)
    (trunkIdx : nat) : Edge.t :=
  Edge.mk
    (js "trunk-" ++ tpl (Device.id device) ++ js "-"
       ++ Connection.to trunkConnection ++ js "-" ++ js_of_nat trunkIdx)
    (Device.id device)
    (Some (Connection.to trunkConnection))
    trunkEdge
    (Some (or_default (Connection.label trunkConnection) (js "Trunk")))
    (TrunkData trunkIdx).

Definition sanEdgeOf (device : Device.t) (sanConnection : Connection.t)
    (sanIdx : nat) : Edge.t :=
  Edge.mk
    (js "san-" ++ tpl (Device.id device) ++ js "-"
       ++ Connection.to sanConnection ++ js "-" ++ js_of_nat sanIdx)
    (Device.id device)
    (Some (Connection.to sanConnection))
    sanEdge
    (Some (or_default (Connection.label sanConnection) (js "SAN")))
    (SanData sanIdx).

Definition processVpnConnection (allSites : list Site.t) (site : Site.t)
    (device : Device.t) (vpnConnection : VpnConnection.t) (vpnIndex : nat)
    (edges : list Edge.t) : outcome (list Edge.t) :=
  match List.find (fun s => bool_decide (Site.id s = Some (VpnConnection.to_site vpnConnection)))
                  allSites with
  | None => Ok edges
  | Some targetSite =>
      match Site.devices targetSite with
      | None => Throw TypeError
      | Some targetDevices =>
          match List.find (fun d => bool_decide (Device.type d = Some (js "router")))
                          targetDevices with
          | None => Ok edges
          | Some targetRouter =>
              Ok (edges ++ [vpnEdgeOf site device targetSite targetRouter
                                      vpnConnection vpnIndex])
          end
      end
  end.

(** [if (list) list.forEach(...)] *)
Definition forEachPresent {A S : Type} (f : A -> nat -> S -> outcome S)
    (l : option (list A)) (s : S) : outcome S :=
  match l with
  | None => Ok s
  | Some l => forEach f l s
  end.

(** Callback of the second [sortedDevices.forEach]: it only pushes onto
    [edges]. *)
Definition processDevice (allSites : list Site.t) (site : Site.t)
    (device : Device.t) (_ : nat) (edges : list Edge.t) : outcome (list Edge.t) :=
  es1 ← forEachPresent (fun connection connIdx es =>
                          Ok (es ++ [connectionEdgeOf device connection connIdx]))
                       (Device.connections device) edges;
  es2 ← forEachPresent (processVpnConnection allSites site device)
                       (Device.vpn_connections device) es1;
  es3 ← forEachPresent (fun trunkConnection trunkIdx es =>
                          Ok (es ++ [trunkEdgeOf device trunkConnection trunkIdx]))
                       (Device.trunk_connections device) es2;
  forEachPresent (fun sanConnection sanIdx es =>
                    Ok (es ++ [sanEdgeOf device sanConnection sanIdx]))
                 (Device.san_connections device) es3.

Definition backgroundNode (sid : jsstring) (siteBasePosition : float * float)
    (dim : Dimensions) : Node.t :=
  Node.mk (Some (js "site-" ++ sid ++ js "-bg"))
    (siteBasePosition.1 - 100, siteBasePosition.2 - 150)
    (NodeData.mk (Some []) None None None None None None (Some sid) None false)
    group
    (BackgroundStyle (width dim) (height dim + 100) (paletteOf sid)).

Definition headerNode (site : Site.t) (sid : jsstring) (siteBasePosition : float * float)
    : Node.t :=
  Node.mk (Some (js "site-" ++ sid ++ js "-header"))
    (siteBasePosition.1 + 100, siteBasePosition.2 - 180)
    (NodeData.mk (Site.name site) None None None None None None None
       (Some (or_default (Site.location site) [])) true)
    siteHeader
    (HeaderStyle (paletteOf sid)).

(** [Math.max(800, Math.min(3, n) * (sum of the widths / n))] *)
Definition minWidthOf (devices sortedDevices : list Device.t) : float :=
  let deviceSizes :=
    List.map (fun d => default serverConfig (deviceTypeConfig (tpl (Device.type d))))
             sortedDevices in
  Math_max 800
    (Math_min 3 (num_of_nat (length devices))
     * (fold_left (fun sum size => sum + cfg_width size) deviceSizes 0
        / num_of_nat (length deviceSizes))).

(** Callback of the second [networkConfig.sites.forEach]; the state is the
    stores and the edge array. *)
Definition layoutSite (allSites : list Site.t) (site : Site.t) (siteIndex : nat)
    (s : Stores * list Edge.t) : outcome (Stores * list Edge.t) :=
  let k := tpl (Site.id site) in
  let '(st, edges) := s in
  match sitePositions st !! k, Site.devices site with
  | Some siteBasePosition, Some devs =>
      let sortedDevices := sortByOrder devs in
      devicesByType ← forEach pushByType sortedDevices ∅;
      grouped ← forEach (layoutGroup site siteBasePosition devicesByType)
                        deviceTypeOrder (siteBasePosition.2 + 120, st);
      let st1 := grouped.2 in
      edges1 ← forEach (processDevice allSites site) sortedDevices edges;
      let minWidth := minWidthOf devs sortedDevices in
      let rows := num_of_nat ((length devs + maxDevicesPerRow - 1) / maxDevicesPerRow)%nat in
      let minHeight := Math_max 400 (rows * 300) in
      match siteDimensions st1 !! k, Site.id site with
      | Some dim, Some sid =>
          let dim' := mkDim (Math_max minWidth (width dim + 200))
                            (Math_max minHeight (height dim + 200))
                            (deviceCount dim) in
          Ok (mkStores
                ((backgroundNode sid siteBasePosition dim' :: nodes st1)
                   ++ [headerNode site sid siteBasePosition])
                (sitePositions st1)
                (siteNodeIds st1)
                (<[k := dim']> (siteDimensions st1)),
              edges1)
      | _, _ => Throw TypeError
      end
  | _, _ => Throw TypeError
  end.

(** The body of the [try] block after [yaml.load]. *)
Definition layoutDocument (doc : option NetworkConfig)
    : outcome (list Node.t * list Edge.t) :=
  match doc with
  | None => Throw TypeError
  | Some networkConfig =>
      match sites networkConfig with
      | None => Throw TypeError
      | Some allSites =>
          st1 ← forEach placeSite allSites emptyStores;
          result ← forEach (layoutSite allSites) allSites (st1, []);
          Ok (nodes result.1, result.2)
      end
  end.

Definition parseNetworkConfig (yaml_load : jsstring -> outcome (option NetworkConfig))
    (yamlContent : jsstring) : outcome (list Node.t * list Edge.t) :=
  rethrow (networkConfig ← yaml_load yamlContent; layoutDocument networkConfig).

(** *** What the loops of the revision emit, as lists *)

Definition typeKey (device : Device.t) : jsstring := tpl (Device.type device).

Definition has_type (key : jsstring) (device : Device.t) : bool :=
  bool_decide (typeKey device = key).

(** No device type is a name inherited from [Object.prototype]. *)
Definition types_groupable (devices : list Device.t) : bool :=
  forallb (fun d => negb (bool_decide (typeKey d ∈ inheritedKeys))) devices.

Definition by_order (a b : Device.t) : Prop := (rankOf a <= rankOf b)%nat.

Definition has_order (p : nat) (device : Device.t) : bool := (rankOf device =? p)%nat.

(** [devicesByType] after the devices of [l] were pushed. *)
Definition groupMap (l : list Device.t) (m : gmap jsstring (list Device.t))
    : gmap jsstring (list Device.t) :=
  fold_left (fun m d => <[typeKey d := default [] (m !! typeKey d) ++ [d]]> m) l m.

Definition groupNodes (site : Site.t) (typeConfig : TypeConfig) (startX currentY : float)
    (devices : list Device.t) (i : nat) : list Node.t :=
  emitted_from (fun d j => [deviceNode site typeConfig d
                              (devicePosition typeConfig startX currentY j)])
               devices i.

Definition growDim (siteBasePosition : float * float) (typeConfig : TypeConfig)
    (startX currentY : float) (dim : Dimensions) (i : nat) : Dimensions :=
  let position := devicePosition typeConfig startX currentY i in
  mkDim (Math_max (width dim)
           (position.1 + cfg_width typeConfig - siteBasePosition.1 + 100))
        (Math_max (height dim)
           (position.2 + cfg_height typeConfig - siteBasePosition.2 + 100))
        (deviceCount dim).

Fixpoint growDims (siteBasePosition : float * float) (typeConfig : TypeConfig)
    (startX currentY : float) (dim : Dimensions) (n i : nat) : Dimensions :=
  match n with
  | O => dim
  | S n' => growDims siteBasePosition typeConfig startX currentY
              (growDim siteBasePosition typeConfig startX currentY dim i) n' (S i)
  end.

(** [currentY], the site's dimensions and the nodes pushed so far, while the
    type groups of a site are laid out. *)
Record GroupState : Type := mkGroup {
  g_currentY : float;
  g_dim : Dimensions;
  g_nodes : list Node.t
}.

Definition groupStep (site : Site.t) (siteBasePosition : float * float)
    (devicesByType : gmap jsstring (list Device.t))
    (r : GroupState) (entry : jsstring * nat) : GroupState :=
  match default [] (devicesByType !! entry.1) with
  | [] => r
  | (_ :: _) as devices =>
      let typeConfig := default serverConfig (deviceTypeConfig entry.1) in
      let startX := startXOf siteBasePosition (g_dim r) typeConfig (length devices) in
      mkGroup (g_currentY r + groupHeight typeConfig (length devices))
              (growDims siteBasePosition typeConfig startX (g_currentY r) (g_dim r)
                        (length devices) 0)
              (g_nodes r ++ groupNodes site typeConfig startX (g_currentY r) devices 0)
  end.

Definition runGroups (site : Site.t) (siteBasePosition : float * float)
    (dim : Dimensions) : GroupState :=
  fold_left (groupStep site siteBasePosition
               (groupMap (sortByOrder (siteDevices site)) ∅))
            deviceTypeOrder
            (mkGroup (siteBasePosition.2 + 120) dim []).

(** The padded box stored for a site whose entry was [dim] when its groups
    were laid out. *)
Definition paddedBox (site : Site.t) (dim : Dimensions) : Dimensions :=
  let devs := siteDevices site in
  let rows := num_of_nat ((length devs + maxDevicesPerRow - 1) / maxDevicesPerRow)%nat in
  mkDim (Math_max (minWidthOf devs (sortByOrder devs)) (width dim + 200))
        (Math_max (Math_max 400 (rows * 300)) (height dim + 200))
        (deviceCount dim).

Definition connectionEdges (device : Device.t) : list Edge.t :=
  emitted_from (fun c i => [connectionEdgeOf device c i])
               (default [] (Device.connections device)) 0.

Definition trunkEdges (device : Device.t) : list Edge.t :=
  emitted_from (fun c i => [trunkEdgeOf device c i])
               (default [] (Device.trunk_connections device)) 0.

Definition sanEdges (device : Device.t) : list Edge.t :=
  emitted_from (fun c i => [sanEdgeOf device c i])
               (default [] (Device.san_connections device)) 0.

Definition vpnEntryEdges (allSites : list Site.t) (site : Site.t) (device : Device.t)
    (vpnConnection : VpnConnection.t) (vpnIndex : nat) : list Edge.t :=
  match List.find (fun s => bool_decide (Site.id s = Some (VpnConnection.to_site vpnConnection)))
                  allSites with
  | None => []
  | Some targetSite =>
      match List.find (fun d => bool_decide (Device.type d = Some (js "router")))
                      (siteDevices targetSite) with
      | None => []
      | Some targetRouter =>
          [vpnEdgeOf site device targetSite targetRouter vpnConnection vpnIndex]
      end
  end.

Definition vpnEdges (allSites : list Site.t) (site : Site.t) (device : Device.t)
    : list Edge.t :=
  emitted_from (vpnEntryEdges allSites site device)
               (default [] (Device.vpn_connections device)) 0.

Definition deviceEdges (allSites : list Site.t) (site : Site.t) (device : Device.t)
    : list Edge.t :=
  connectionEdges device ++ vpnEdges allSites site device
    ++ trunkEdges device ++ sanEdges device.

Definition siteEdges (allSites : list Site.t) (site : Site.t) : list Edge.t :=
  flat_map (deviceEdges allSites site) (sortByOrder (siteDevices site)).

Definition basePosition (P : gmap jsstring (float * float)) (s : Site.t) : float * float :=
  default (0, 0) (P !! siteKey s).

(** The node unshifted when a site is done, and the nodes pushed while it
    is processed; [dim] is the site's entry of [siteDimensions] when its
    turn comes. *)
Definition siteBackground (P : gmap jsstring (float * float)) (s : Site.t)
    (dim : Dimensions) : Node.t :=
  backgroundNode (siteKey s) (basePosition P s)
    (paddedBox s (g_dim (runGroups s (basePosition P s) dim))).

Definition pushedNodes (P : gmap jsstring (float * float)) (s : Site.t)
    (dim : Dimensions) : list Node.t :=
  g_nodes (runGroups s (basePosition P s) dim)
    ++ [headerNode s (siteKey s) (basePosition P s)].

(** The devices of a site that get a node, in the order of their nodes:
    type by type in the order of [deviceTypeOrder], each type in input
    order. *)
Definition placedDevices (devices : list Device.t) : list Device.t :=
  flat_map (fun entry : jsstring * nat => List.filter (has_type entry.1) devices)
           deviceTypeOrder.

(** What identifies a node apart from its geometry. *)
Definition nodeCore (n : Node.t) : option jsstring * NodeType * NodeData.t :=
  (Node.id n, Node.type n, Node.data n).

Definition deviceCore (site : Site.t) (device : Device.t)
    : option jsstring * NodeType * NodeData.t :=
  nodeCore (deviceNode site serverConfig device (0, 0)).

Definition backgroundCore (site : Site.t) : option jsstring * NodeType * NodeData.t :=
  nodeCore (backgroundNode (siteKey site) (0, 0) (mkDim 0 0 0)).

Definition headerCore (site : Site.t) : option jsstring * NodeType * NodeData.t :=
  nodeCore (headerNode site (siteKey site) (0, 0)).

(** The type is one of the seven of [deviceTypeOrder]. *)
Definition known_type (device : Device.t) : bool :=
  existsb (fun entry : jsstring * nat => has_type entry.1 device) deviceTypeOrder.

(** The document loads in the revision: it is complete and no device type
    is an inherited name. *)
Definition document_groupable (doc : option NetworkConfig) : bool :=
  match doc with
  | Some networkConfig =>
      match sites networkConfig with
      | Some allSites => forallb (fun s => types_groupable (siteDevices s)) allSites
      | None => false
      end
  | None => false
  end.

(** What the two revisions agree on in an edge. *)
Definition edgeCore (e : Edge.t) : jsstring * option jsstring * option jsstring
                                    * EdgeType * option jsstring :=
  (Edge.id e, Edge.source e, Edge.target e, Edge.type e, Edge.label e).

End ParserSnapshot.

Definition edgeCore (e : Edge.t) : jsstring * option jsstring * option jsstring
                                    * EdgeType * option jsstring :=
  (Edge.id e, Edge.source e, Edge.target e, Edge.type e, Edge.label e).

(** A site without devices, and a site whose router has no id. *)
Definition emptyLab : Site.t := Site.mk (Some (js "lab")) None None (Some []).

Definition emptyLabConfig : NetworkConfig := mkConfig None None (Some [emptyLab]).

Definition namelessRouter : Device.t :=
  Device.mk None (Some (js "router")) None None None None None None None None None None.

Definition namelessSite : Site.t := Site.mk (Some (js "hq")) None None (Some [namelessRouter]).

Definition namelessConfig : NetworkConfig := mkConfig None None (Some [namelessSite]).

(** ** The toolbar of the second revision of the map component
    ([NetworkToolbar], after [LoginForm] in VpnEdge.tsx) *)

Module Toolbar.

(** [siteMap.set(siteId, label)]: a [Map] keeps the position of the first
    insertion of a key. *)
Fixpoint set (siteMap : list (jsstring * option jsstring)) (siteId : jsstring)
    (label : option jsstring) : list (jsstring * option jsstring) :=
  match siteMap with
  | [] => [(siteId, label)]
  | (key, value) :: rest =>
      if bool_decide (key = siteId) then (key, label) :: rest
      else (key, value) :: set rest siteId label
  end.

(** Callback of [nodes.forEach] in the [sites] memo. [node.id.startsWith]
    is reached only when [node.data?.siteId] is truthy, and throws when the
    node has no id. *)
Definition collectSite (node : ParserSnapshot.Node.t) (_ : nat)
    (siteMap : list (jsstring * option jsstring))
    : outcome (list (jsstring * option jsstring)) :=
  match ParserSnapshot.NodeData.siteId (ParserSnapshot.Node.data node) with
  | Some (c :: s) =>
      match ParserSnapshot.Node.id node with
      | None => Throw TypeError
      | Some id =>
          if startsWith id (js "site-") && endsWith id (js "-header")
          then Ok (set siteMap (c :: s)
                       (ParserSnapshot.NodeData.label (ParserSnapshot.Node.data node)))
          else Ok siteMap
      end
  | _ => Ok siteMap
  end.

(** The [sites] of the toolbar: the buttons it offers. *)
Definition sites (nodes : list ParserSnapshot.Node.t)
    : outcome (list (jsstring * option jsstring)) :=
  forEach collectSite nodes [].

(** An id of the form [site-...-header]. *)
Definition header_like (id : jsstring) : bool :=
  startsWith id (js "site-") && endsWith id (js "-header").

End Toolbar.

(** ** Lemmas on the loops *)

Lemma bind_Ok {A B : Type} (a : A) (f : A -> outcome B) : (Ok a ≫= f) = f a.
Proof. reflexivity. Qed.

Lemma bind_Throw {A B : Type} (e : exn) (f : A -> outcome B) : (Throw e ≫= f) = Throw e.
Proof. reflexivity. Qed.

Lemma set_edges_same (st : Stores) : set_edges st (edges st) = st.
Proof. destruct st; reflexivity. Qed.

Lemma emitted_from_singletons_lookup {A B : Type} (g : A -> nat -> B) (l : list A)
    (i j : nat) (a : A) :
  l !! j = Some a ->
  emitted_from (fun a j => [g a j]) l i !! j = Some (g a (i + j)%nat).
Proof.
  revert i j; induction l as [|b l IH]; intros i [|j] Hj; simplify_eq/=.
  - by rewrite Nat.add_0_r.
  - rewrite (IH (S i) j Hj). do 2 f_equal. lia.
Qed.

(** A [forEach] whose callback only pushes onto [edges]. *)
Lemma forEach_from_push {A : Type} (f : A -> nat -> Stores -> outcome Stores)
    (g : A -> nat -> list Edge.t) (l : list A) :
  (forall a j s, f a j s = Ok (set_edges s (edges s ++ g a j))) ->
  forall i st,
    forEach_from f l i st = Ok (set_edges st (edges st ++ emitted_from g l i)).
Proof.
  intros Hf. induction l as [|a l IH]; intros i st; simpl.
  - by rewrite app_nil_r, set_edges_same.
  - rewrite Hf, bind_Ok, IH. simpl. by rewrite <- app_assoc.
Qed.

Lemma processConnections_spec (device : Device.t) (st : Stores) :
  processConnections device st
  = Ok (set_edges st (edges st ++ connectionEdges device)).
Proof.
  unfold processConnections, connectionEdges.
  destruct (Device.connections device) as [cs|]; simpl.
  - by apply forEach_from_push.
  - by rewrite app_nil_r, set_edges_same.
Qed.

Lemma processTrunkConnections_spec (device : Device.t) (st : Stores) :
  processTrunkConnections device st
  = Ok (set_edges st (edges st ++ trunkEdges device)).
Proof.
  unfold processTrunkConnections, trunkEdges.
  destruct (Device.trunk_connections device) as [cs|]; simpl.
  - by apply forEach_from_push.
  - by rewrite app_nil_r, set_edges_same.
Qed.

Lemma processSanConnections_spec (device : Device.t) (st : Stores) :
  processSanConnections device st
  = Ok (set_edges st (edges st ++ sanEdges device)).
Proof.
  unfold processSanConnections, sanEdges.
  destruct (Device.san_connections device) as [cs|]; simpl.
  - by apply forEach_from_push.
  - by rewrite app_nil_r, set_edges_same.
Qed.

Lemma find_has_devices (allSites : list Site.t) (p : Site.t -> bool) (s : Site.t) :
  forallb has_devices allSites = true ->
  List.find p allSites = Some s ->
  Site.devices s = Some (siteDevices s).
Proof.
  intros Hall Hfind. apply find_some in Hfind as [Hin _].
  rewrite forallb_forall in Hall. specialize (Hall s Hin).
  unfold has_devices, siteDevices in *. by destruct (Site.devices s).
Qed.

Lemma processVpnConnection_spec (allSites : list Site.t) (site : Site.t)
    (device : Device.t) (vc : VpnConnection.t) (idx : nat) (st : Stores) :
  forallb has_devices allSites = true ->
  processVpnConnection allSites site device vc idx st
  = Ok (set_edges st (edges st ++ vpnEntryEdges allSites site device vc idx)).
Proof.
  intros Hall. unfold processVpnConnection, vpnEntryEdges.
  destruct (List.find _ allSites) as [ts|] eqn:Hsite.
  - rewrite (find_has_devices _ _ _ Hall Hsite).
    destruct (List.find _ (siteDevices ts)); [done |].
    by rewrite app_nil_r, set_edges_same.
  - by rewrite app_nil_r, set_edges_same.
Qed.

Lemma processVpnConnections_spec (allSites : list Site.t) (site : Site.t)
    (device : Device.t) (st : Stores) :
  forallb has_devices allSites = true ->
  processVpnConnections allSites site device st
  = Ok (set_edges st (edges st ++ vpnEdges allSites site device)).
Proof.
  intros Hall. unfold processVpnConnections, vpnEdges.
  destruct (Device.vpn_connections device) as [vs|]; simpl.
  - apply forEach_from_push. intros. by apply processVpnConnection_spec.
  - by rewrite app_nil_r, set_edges_same.
Qed.

Lemma layoutDevice_spec (allSites : list Site.t) (site : Site.t) (base : Z * Z)
    (device : Device.t) (i : nat) (st : Stores)
    (ids : list (option jsstring)) (dim : Dimensions) :
  forallb has_devices allSites = true ->
  siteNodeIds st !! siteKey site = Some ids ->
  siteDimensions st !! siteKey site = Some dim ->
  layoutDevice allSites site base device i st
  = Ok (mkStores (nodes st ++ [deviceNode device (devicePosition base i)])
                 (edges st ++ deviceEdges allSites site device)
                 (sitePositions st)
                 (<[siteKey site := ids ++ [Device.id device]]> (siteNodeIds st))
                 (<[siteKey site := growDim base dim i]> (siteDimensions st))).
Proof.
  intros Hall Hids Hdim. unfold layoutDevice. fold (siteKey site).
  rewrite Hids, Hdim.
  rewrite processConnections_spec, bind_Ok.
  rewrite processVpnConnections_spec, bind_Ok by done.
  rewrite processTrunkConnections_spec, bind_Ok.
  rewrite processSanConnections_spec.
  unfold deviceEdges, set_edges, growDim; simpl.
  by rewrite <- !app_assoc.
Qed.

Lemma layoutDevices_spec (allSites : list Site.t) (site : Site.t) (base : Z * Z)
    (devs : list Device.t) :
  forallb has_devices allSites = true ->
  forall (i : nat) (st : Stores) (ids : list (option jsstring)) (dim : Dimensions),
    siteNodeIds st !! siteKey site = Some ids ->
    siteDimensions st !! siteKey site = Some dim ->
    forEach_from (layoutDevice allSites site base) devs i st
    = Ok (mkStores (nodes st ++ deviceNodes base devs i)
                   (edges st ++ flat_map (deviceEdges allSites site) devs)
                   (sitePositions st)
                   (<[siteKey site := ids ++ List.map Device.id devs]> (siteNodeIds st))
                   (<[siteKey site := growDims base dim (length devs) i]>
                      (siteDimensions st))).
Proof.
  intros Hall. induction devs as [|d devs IH]; intros i st ids dim Hids Hdim; simpl.
  - rewrite !app_nil_r, !insert_id by done. by destruct st.
  - rewrite (layoutDevice_spec _ _ _ _ _ _ ids dim) by done.
    rewrite bind_Ok.
    rewrite (IH _ _ (ids ++ [Device.id d]) (growDim base dim i));
      simpl; [| apply lookup_insert_eq | apply lookup_insert_eq].
    unfold deviceNodes; simpl.
    by rewrite !insert_insert_eq, <- !app_assoc.
Qed.

Lemma layoutSite_spec (allSites : list Site.t) (site : Site.t) (siteIndex : nat)
    (st : Stores) (base : Z * Z) (ids : list (option jsstring)) (dim : Dimensions) :
  forallb has_devices allSites = true ->
  site_complete site = true ->
  sitePositions st !! siteKey site = Some base ->
  siteNodeIds st !! siteKey site = Some ids ->
  siteDimensions st !! siteKey site = Some dim ->
  let devs := siteDevices site in
  let box := paddedBox (growDims base dim (length devs) 0) (length devs) in
  layoutSite allSites site siteIndex st
  = Ok (mkStores
          ((backgroundNode (siteKey site) base box :: nodes st ++ deviceNodes base devs 0)
             ++ [headerNode site (siteKey site) base])
          (edges st ++ siteEdges allSites site)
          (sitePositions st)
          (<[siteKey site := ids ++ List.map Device.id devs]> (siteNodeIds st))
          (<[siteKey site := box]> (siteDimensions st))).
Proof.
  intros Hall Hc Hpos Hids Hdim devs box. subst devs box.
  unfold site_complete, has_devices, has_id in Hc.
  unfold layoutSite, siteEdges, siteDevices. fold (siteKey site).
  rewrite Hpos.
  destruct (Site.devices site) as [devs|]; [| done].
  unfold forEach.
  rewrite (layoutDevices_spec _ _ _ _ Hall _ _ ids dim), bind_Ok by done.
  simpl. rewrite lookup_insert_eq.
  unfold siteKey at 3. unfold siteKey at 3.
  destruct (Site.id site) as [sid|] eqn:Hsid; [| done].
  unfold siteKey. rewrite Hsid. simpl.
  by rewrite insert_insert_eq.
Qed.

(** ** The two site loops *)

Lemma site_complete_has_devices (l : list Site.t) :
  forallb site_complete l = true -> forallb has_devices l = true.
Proof.
  rewrite !forallb_forall. intros H s Hs. specialize (H s Hs).
  unfold site_complete in H. by apply andb_true_iff in H as [? _].
Qed.

Lemma placeSite_Some (s : Site.t) (i : nat) (st : Stores) (devs : list Device.t) :
  Site.devices s = Some devs ->
  placeSite s i st
  = Ok (mkStores (nodes st) (edges st)
          (<[siteKey s := (Z.of_nat i * siteSpacing, 100)]> (sitePositions st))
          (<[siteKey s := []]> (siteNodeIds st))
          (<[siteKey s := mkDim 0 0 (length devs)]> (siteDimensions st))).
Proof. intros H. unfold placeSite. by rewrite H. Qed.

Lemma placeSites_spec (todo : list Site.t) :
  forallb has_devices todo = true ->
  forall (i : nat) (st : Stores),
  exists st',
    forEach_from placeSite todo i st = Ok st'
    /\ nodes st' = nodes st
    /\ edges st' = edges st
    /\ (forall s, In s todo ->
          is_Some (sitePositions st' !! siteKey s)
          /\ is_Some (siteNodeIds st' !! siteKey s)
          /\ is_Some (siteDimensions st' !! siteKey s))
    /\ (forall k, ~ In k (List.map siteKey todo) ->
          sitePositions st' !! k = sitePositions st !! k
          /\ siteNodeIds st' !! k = siteNodeIds st !! k
          /\ siteDimensions st' !! k = siteDimensions st !! k)
    /\ (NoDup (List.map siteKey todo) ->
        forall j s, todo !! j = Some s ->
          sitePositions st' !! siteKey s = Some (Z.of_nat (i + j) * siteSpacing, 100)
          /\ siteNodeIds st' !! siteKey s = Some []
          /\ siteDimensions st' !! siteKey s
             = Some (mkDim 0 0 (length (siteDevices s)))).
Proof.
  induction todo as [|s todo IH]; intros Hall i st.
  - exists st. repeat split; try done; intros _ [|?] ?; done.
  - simpl in Hall. apply andb_true_iff in Hall as [Hs Hall].
    cbn [forEach_from]. unfold has_devices in Hs.
    destruct (Site.devices s) as [devs|] eqn:Hdevs; [| done].
    rewrite (placeSite_Some _ _ _ _ Hdevs), bind_Ok.
    set (st1 := mkStores _ _ _ _ _).
    destruct (IH Hall (S i) st1) as (st' & Hrun & Hn & He & Hdom & Hframe & Hnodup).
    exists st'. split; [done |]. split; [by rewrite Hn |]. split; [by rewrite He |].
    split; [| split].
    + intros s' [<- | Hin]; [| by apply Hdom].
      destruct (decide (siteKey s ∈ List.map siteKey todo)) as [Hk | Hk];
        rewrite list_elem_of_In in Hk.
      * apply in_map_iff in Hk as (s'' & Hkey & Hin). rewrite <- Hkey. by apply Hdom.
      * destruct (Hframe _ Hk) as (-> & -> & ->). subst st1; simpl.
        rewrite !lookup_insert_eq. eauto.
    + intros k Hk. simpl in Hk.
      destruct (Hframe k) as (-> & -> & ->); [tauto |].
      subst st1; simpl. rewrite !lookup_insert_ne by tauto. done.
    + intros Hnd j s' Hj. simpl in Hnd. apply NoDup_cons in Hnd as [Hk Hnd].
      destruct j as [|j]; simpl in Hj.
      * simplify_eq. rewrite list_elem_of_In in Hk.
        destruct (Hframe _ Hk) as (-> & -> & ->). subst st1; simpl.
        rewrite !lookup_insert_eq, Nat.add_0_r.
        unfold siteDevices. by rewrite Hdevs.
      * replace (i + S j)%nat with (S i + j)%nat by lia. by apply Hnodup.
Qed.

Lemma layoutSites_spec (allSites todo : list Site.t) :
  forallb has_devices allSites = true ->
  forallb site_complete todo = true ->
  forall (i : nat) (st : Stores),
    (forall s, In s todo ->
       is_Some (sitePositions st !! siteKey s)
       /\ is_Some (siteNodeIds st !! siteKey s)
       /\ is_Some (siteDimensions st !! siteKey s)) ->
    exists st' boxes,
      forEach_from (layoutSite allSites) todo i st = Ok st'
      /\ length boxes = length todo
      /\ nodes st'
         = rev (zip_with (siteBackground (sitePositions st)) todo boxes)
             ++ nodes st ++ flat_map (pushedNodes (sitePositions st)) todo
      /\ edges st' = edges st ++ flat_map (siteEdges allSites) todo
      /\ (NoDup (List.map siteKey todo) ->
          forall j s d, todo !! j = Some s ->
            siteDimensions st !! siteKey s = Some d ->
            boxes !! j
            = Some (paddedBox (growDims (basePosition (sitePositions st) s) d
                                        (length (siteDevices s)) 0)
                              (length (siteDevices s)))).
Proof.
  intros Hall. induction todo as [|s todo IH]; intros Hc i st Hdom.
  - exists st, []. repeat split; simpl; try (by rewrite ?app_nil_r);
      intros _ [|?] ?; done.
  - simpl in Hc. apply andb_true_iff in Hc as [Hs Hc].
    destruct (Hdom s) as ([base Hbase] & [ids Hids] & [dim Hdim]); [by left |].
    cbn [forEach_from]. rewrite (layoutSite_spec _ _ _ _ base ids dim) by done.
    rewrite bind_Ok.
    set (box := paddedBox _ _). set (st1 := mkStores _ _ _ _ _).
    destruct (IH Hc (S i) st1) as (st' & boxes & Hrun & Hlen & Hn & He & Hnodup).
    { intros s' Hin. destruct (Hdom s') as (? & ? & ?); [by right |].
      subst st1; simpl. split; [done |].
      split; apply lookup_insert_is_Some';  by right. }
    exists st', (box :: boxes). split; [done |]. split; [simpl; by rewrite Hlen |].
    assert (Hb : basePosition (sitePositions st) s = base)
      by (unfold basePosition; by rewrite Hbase).
    split; [| split].
    + rewrite Hn. subst st1; simpl. unfold pushedNodes, siteBackground.
      rewrite Hb. by rewrite <- !app_assoc.
    + rewrite He. subst st1; simpl. by rewrite <- app_assoc.
    + intros Hnd j s' d Hj Hd. simpl in Hnd. apply NoDup_cons in Hnd as [Hk Hnd].
      destruct j as [|j]; simpl in Hj.
      * by simplify_eq.
      * simpl. apply (Hnodup Hnd j s' d Hj). subst st1; simpl.
        rewrite lookup_insert_ne; [done |].
        intros Heq. apply Hk. rewrite Heq. apply list_elem_of_In, in_map.
        apply list_elem_of_In. by eapply list_elem_of_lookup_2.
Qed.

Lemma placeSites_throw (todo : list Site.t) :
  forallb has_devices todo = false ->
  forall (i : nat) (st : Stores), forEach_from placeSite todo i st = Throw TypeError.
Proof.
  induction todo as [|s todo IH]; intros Hall i st; [done |].
  simpl in Hall. cbn [forEach_from].
  destruct (Site.devices s) as [devs|] eqn:Hdevs.
  - rewrite (placeSite_Some _ _ _ _ Hdevs), bind_Ok. apply IH.
    unfold has_devices in Hall at 1. by rewrite Hdevs in Hall.
  - unfold placeSite. by rewrite Hdevs.
Qed.

Lemma forEach_from_throws {A S : Type} (f : A -> nat -> S -> outcome S)
    (Q : exn -> Prop) :
  (forall a i s e, f a i s = Throw e -> Q e) ->
  forall l i s e, forEach_from f l i s = Throw e -> Q e.
Proof.
  intros Hf. induction l as [|a l IH]; intros i s e; [done |].
  cbn [forEach_from]. destruct (f a i s) as [s1|e1] eqn:Hfa.
  - rewrite bind_Ok. apply IH.
  - rewrite bind_Throw. intros [= <-]. by eapply Hf.
Qed.

Lemma layoutDevice_throws (allSites : list Site.t) (site : Site.t) (base : Z * Z)
    (device : Device.t) (i : nat) (st : Stores) (e : exn) :
  forallb has_devices allSites = true ->
  layoutDevice allSites site base device i st = Throw e -> e = TypeError.
Proof.
  intros Hall.
  destruct (siteNodeIds st !! siteKey site) as [ids|] eqn:Hids;
    [destruct (siteDimensions st !! siteKey site) as [dim|] eqn:Hdim |].
  - by rewrite (layoutDevice_spec _ _ _ _ _ _ ids dim).
  - unfold layoutDevice. fold (siteKey site). rewrite Hids, Hdim. by intros [= <-].
  - unfold layoutDevice. fold (siteKey site). rewrite Hids. by intros [= <-].
Qed.

Lemma layoutSite_no_id (allSites : list Site.t) (site : Site.t) (siteIndex : nat)
    (st : Stores) :
  forallb has_devices allSites = true ->
  Site.id site = None ->
  layoutSite allSites site siteIndex st = Throw TypeError.
Proof.
  intros Hall Hid. unfold layoutSite.
  destruct (sitePositions st !! _) as [base|]; [| done].
  destruct (Site.devices site) as [devs|]; [| done].
  destruct (forEach _ devs st) as [st1|e] eqn:Hrun; [| simpl].
  - rewrite bind_Ok, Hid. by destruct (siteDimensions st1 !! _).
  - f_equal. revert Hrun. unfold forEach.
    apply (forEach_from_throws _ (fun e => e = TypeError)).
    intros d i s e'. by apply layoutDevice_throws.
Qed.

Lemma layoutSites_throw (allSites todo : list Site.t) :
  forallb has_devices allSites = true ->
  forallb has_devices todo = true ->
  forallb site_complete todo = false ->
  forall (i : nat) (st : Stores),
    (forall s, In s todo ->
       is_Some (sitePositions st !! siteKey s)
       /\ is_Some (siteNodeIds st !! siteKey s)
       /\ is_Some (siteDimensions st !! siteKey s)) ->
    forEach_from (layoutSite allSites) todo i st = Throw TypeError.
Proof.
  intros Hall. induction todo as [|s todo IH]; intros Hd Hc i st Hdom; [done |].
  simpl in Hd, Hc. apply andb_true_iff in Hd as [Hds Hd].
  cbn [forEach_from].
  destruct (site_complete s) eqn:Hs.
  - destruct (Hdom s) as ([base Hbase] & [ids Hids] & [dim Hdim]); [by left |].
    rewrite (layoutSite_spec _ _ _ _ base ids dim), bind_Ok by done.
    apply IH; [done | done |].
    intros s' Hin. destruct (Hdom s') as (? & ? & ?); [by right |].
    simpl. split; [done |]. split; apply lookup_insert_is_Some'; by right.
  - unfold site_complete in Hs. rewrite Hds in Hs. simpl in Hs.
    rewrite layoutSite_no_id; [done | done |].
    unfold has_id in Hs. by destruct (Site.id s).
Qed.

(** *** The whole of [layoutDocument] *)

Lemma layoutDocument_spec (networkConfig : NetworkConfig) (allSites : list Site.t) :
  sites networkConfig = Some allSites ->
  forallb site_complete allSites = true ->
  exists P boxes,
    layoutDocument (Some networkConfig)
    = Ok (rev (zip_with (siteBackground P) allSites boxes)
            ++ flat_map (pushedNodes P) allSites,
          flat_map (siteEdges allSites) allSites)
    /\ length boxes = length allSites
    /\ (forall s, In s allSites -> is_Some (P !! siteKey s))
    /\ (NoDup (List.map siteKey allSites) ->
        forall j s, allSites !! j = Some s ->
          let base := (Z.of_nat j * siteSpacing, 100) in
          let n := length (siteDevices s) in
          P !! siteKey s = Some base
          /\ boxes !! j = Some (paddedBox (growDims base (mkDim 0 0 n) n 0) n)).
Proof.
  intros Hsites Hc. pose proof (site_complete_has_devices _ Hc) as Hall.
  destruct (placeSites_spec allSites Hall 0 emptyStores)
    as (st1 & Hrun1 & Hn1 & He1 & Hdom1 & _ & Hnd1).
  destruct (layoutSites_spec allSites allSites Hall Hc 0 st1 Hdom1)
    as (st2 & boxes & Hrun2 & Hlen & Hn2 & He2 & Hnd2).
  exists (sitePositions st1), boxes.
  split; [| split; [done | split]].
  - unfold layoutDocument. rewrite Hsites. unfold forEach.
    rewrite Hrun1, bind_Ok, Hrun2, bind_Ok, Hn2, He2, Hn1, He1. done.
  - intros s Hin. by apply Hdom1.
  - intros Hnd j s Hj base n.
    destruct (Hnd1 Hnd j s Hj) as (Hp & _ & Hd). simpl in Hp.
    split; [done |].
    rewrite (Hnd2 Hnd j s _ Hj Hd). unfold basePosition. by rewrite Hp.
Qed.

Lemma layoutDocument_throws (doc : option NetworkConfig) :
  document_complete doc = false -> layoutDocument doc = Throw TypeError.
Proof.
  destruct doc as [cfg|]; [| done]. simpl.
  destruct (sites cfg) as [allSites|]; [| done]. intros Hc.
  unfold forEach.
  destruct (forallb has_devices allSites) eqn:Hall.
  - destruct (placeSites_spec allSites Hall 0 emptyStores)
      as (st1 & Hrun1 & _ & _ & Hdom1 & _).
    rewrite Hrun1, bind_Ok.
    by rewrite (layoutSites_throw allSites allSites Hall Hall Hc 0 st1 Hdom1).
  - by rewrite placeSites_throw.
Qed.

(** ** Edges per connection entry *)

Lemma emitted_from_indexed {A B : Type} (g : A -> nat -> list B) (l : list A) (i : nat) :
  emitted_from g l i = flat_map (fun p => g p.1 p.2) (indexed_from l i).
Proof. revert i; induction l as [|a l IH]; intros i; simpl; [done | by rewrite IH]. Qed.

Lemma flat_map_tagged {A : Type} (tag : A -> entry) (f : entry * nat -> list Edge.t)
    (l : option (list A)) :
  flat_map f (tagged tag l)
  = emitted_from (fun a i => f (tag a, i)) (default [] l) 0.
Proof.
  unfold tagged. rewrite emitted_from_indexed.
  induction (indexed_from (default [] l) 0) as [|[a i] t IH]; simpl; [done | by rewrite IH].
Qed.

Lemma deviceEdges_entries (allSites : list Site.t) (site : Site.t) (device : Device.t) :
  deviceEdges allSites site device
  = flat_map (entryEdges allSites site device) (deviceEntries device).
Proof.
  unfold deviceEntries. rewrite !flat_map_app, !flat_map_tagged. reflexivity.
Qed.

Lemma find_first_such {A : Type} (p : A -> bool) (l : list A) (x : A) :
  List.find p l = Some x <-> first_such p l x.
Proof.
  split.
  - induction l as [|a l IH]; simpl; [done |].
    destruct (p a) eqn:Hpa.
    + intros [= <-]. exists [], l. by repeat split.
    + intros Hfind. destruct (IH Hfind) as (pre & post & -> & Hpx & Hpre).
      exists (a :: pre), post. repeat split; [done |]. by constructor.
  - intros (pre & post & -> & Hpx & Hpre).
    induction Hpre as [|a pre Hpa _ IH]; simpl.
    + by rewrite Hpx.
    + by rewrite Hpa.
Qed.

Lemma find_none_Forall {A : Type} (p : A -> bool) (l : list A) :
  List.find p l = None <-> Forall (fun y => p y = false) l.
Proof.
  induction l as [|a l IH]; simpl; [by split |].
  destruct (p a) eqn:Hpa.
  - split; [done |]. intros H. inversion H; congruence.
  - rewrite IH. split; [by constructor | by inversion 1].
Qed.

Lemma existsb_find {A : Type} (p : A -> bool) (l : list A) :
  existsb p l = match List.find p l with Some _ => true | None => false end.
Proof. induction l as [|a l IH]; simpl; [done |]. by destruct (p a). Qed.

Lemma vpnEntryEdges_length (allSites : list Site.t) (site : Site.t) (device : Device.t)
    (vc : VpnConnection.t) (idx : nat) :
  length (vpnEntryEdges allSites site device vc idx)
  = if vpn_resolves allSites vc then 1%nat else 0%nat.
Proof.
  unfold vpnEntryEdges, vpn_resolves. fold (named (VpnConnection.to_site vc)).
  destruct (List.find _ allSites) as [ts|]; [| done].
  rewrite existsb_find. fold is_router.
  by destruct (List.find is_router (siteDevices ts)).
Qed.

(** C1, as the code has it. For every document that has its sites, and a
    [devices] list and an [id] for each site, the load raises nothing, and the
    edges it returns are, in document order, the edges of each connection
    entry: exactly one edge for every [connections], [trunk_connections] and
    [san_connections] entry, with the entry's [to] as target whether or not a
    device of that id exists, and for a [vpn_connections] entry one edge when
    the named site has a router and none otherwise. *)
Theorem loader_edges_per_entry (networkConfig : NetworkConfig) (allSites : list Site.t) :
  sites networkConfig = Some allSites ->
  forallb site_complete allSites = true ->
  exists ns es,
    layoutDocument (Some networkConfig) = Ok (ns, es)
    /\ es = flat_map (fun site =>
              flat_map (fun device =>
                flat_map (entryEdges allSites site device) (deviceEntries device))
                (siteDevices site))
              allSites
    /\ forall site device en,
         length (entryEdges allSites site device en)
         = match en.1 with
           | VpnEntry vc => if vpn_resolves allSites vc then 1%nat else 0%nat
           | _ => 1%nat
           end
         /\ forall e, In e (entryEdges allSites site device en) ->
              Edge.source e = Device.id device
              /\ match en.1 with
                 | GenericEntry c | TrunkEntry c | SanEntry c =>
                     Edge.target e = Some (Connection.to c)
                 | VpnEntry _ => True
                 end.
Proof.
  intros Hsites Hc.
  destruct (layoutDocument_spec _ _ Hsites Hc) as (P & boxes & Hrun & _).
  eexists _, _. split; [exact Hrun |]. split.
  - unfold siteEdges. apply flat_map_ext. intros site.
    apply flat_map_ext. intros device. apply deviceEdges_entries.
  - intros site device [[c | vc | c | c] idx]; simpl; (split; [| intros e He]).
    all: try done.
    all: try (destruct He as [<- | []]; by split).
    + apply vpnEntryEdges_length.
    + unfold entryEdges, vpnEntryEdges in He. simpl in He.
      destruct (List.find _ allSites) as [ts|]; [| done].
      destruct (List.find _ (siteDevices ts)) as [r|]; [| done].
      by destruct He as [<- | []].
Qed.

Lemma loader_edges_per_entry_witness :
  exists ns es,
    layoutDocument (Some twoSites) = Ok (ns, es) /\ length es = 2%nat.
Proof.
  destruct (loader_edges_per_entry twoSites [hqSite; branchSite] eq_refl eq_refl)
    as (ns & es & Hrun & Hes & _).
  exists ns, es. split; [exact Hrun |]. rewrite Hes. reflexivity.
Defined.

(** The claim C1 as stated fails: the only connection of [danglingConfig]
    names a device that does not exist, and the load returns one edge to it. *)
Lemma dangling_target_keeps_its_edge :
  entry_resolves [danglingSite] (GenericEntry (Connection.mk (js "ghost") None)) = false
  /\ exists ns e,
       layoutDocument (Some danglingConfig) = Ok (ns, [e])
       /\ Edge.type e = connectionEdge
       /\ Edge.source e = Some (js "r1")
       /\ Edge.target e = Some (js "ghost").
Proof.
  split; [reflexivity |].
  eexists _, _. split; [vm_compute; reflexivity |]. by repeat split.
Qed.

(** ** VPN resolution *)

Lemma vpnEdgeOf_fields (site : Site.t) (device : Device.t) (ts : Site.t) (r : Device.t)
    (vc : VpnConnection.t) (idx : nat) :
  let e := vpnEdgeOf site device ts r vc idx in
  Edge.type e = vpnEdge
  /\ Edge.source e = Device.id device
  /\ Edge.target e = Device.id r
  /\ Edge.data e = VpnData (negb (bool_decide (Site.id ts = Site.id site))) idx.
Proof. by repeat split. Qed.

Lemma indexed_from_lookup {A : Type} (l : list A) :
  forall (k i : nat) (a : A),
    l !! i = Some a -> In (a, (k + i)%nat) (indexed_from l k).
Proof.
  induction l as [|x l IH]; intros k [|i] a Hi; simplify_eq/=.
  - left. by rewrite Nat.add_0_r.
  - right. replace (k + S i)%nat with (S k + i)%nat by lia. by apply IH.
Qed.

Lemma vpn_entry_listed (device : Device.t) (vs : list VpnConnection.t) (idx : nat)
    (vc : VpnConnection.t) :
  Device.vpn_connections device = Some vs ->
  vs !! idx = Some vc ->
  In (VpnEntry vc, idx) (deviceEntries device).
Proof.
  intros Hvs Hidx. unfold deviceEntries.
  apply in_or_app. right. apply in_or_app. left.
  unfold tagged. rewrite Hvs. cbn [default from_option id].
  apply (in_map (fun p : VpnConnection.t * nat => (VpnEntry p.1, p.2))
                _ (vc, idx)).
  by apply (indexed_from_lookup vs 0 idx vc).
Qed.

(** The edges of an entry of a device of a site are among the edges of the
    document. *)
Lemma entry_edges_returned (allSites : list Site.t) (site : Site.t) (device : Device.t)
    (en : entry * nat) (e : Edge.t) :
  In site allSites ->
  In device (siteDevices site) ->
  In en (deviceEntries device) ->
  In e (entryEdges allSites site device en) ->
  In e (flat_map (fun site =>
          flat_map (fun device =>
            flat_map (entryEdges allSites site device) (deviceEntries device))
            (siteDevices site))
          allSites).
Proof.
  intros Hsite Hdevice Hen He.
  apply in_flat_map. exists site. split; [done |].
  apply in_flat_map. exists device. split; [done |].
  apply in_flat_map. by exists en.
Qed.

Lemma document_edges (networkConfig : NetworkConfig) (allSites : list Site.t) :
  sites networkConfig = Some allSites ->
  forallb site_complete allSites = true ->
  exists ns,
    layoutDocument (Some networkConfig)
    = Ok (ns, flat_map (fun site =>
                flat_map (fun device =>
                  flat_map (entryEdges allSites site device) (deviceEntries device))
                  (siteDevices site))
                allSites).
Proof.
  intros Hsites Hc.
  destruct (layoutDocument_spec _ _ Hsites Hc) as (P & boxes & Hrun & _).
  eexists. rewrite Hrun. do 2 f_equal.
  unfold siteEdges. apply flat_map_ext. intros site.
  apply flat_map_ext. intros device. apply deviceEdges_entries.
Qed.

(** C6. For every document that has its sites, and a [devices] list and an
    [id] for each site, the load raises nothing and returns, in document
    order, the edges of every connection entry; and for every
    [vpn_connections] entry of every device of the document: the entry is
    resolved to the first device of type [router] of the first site named by
    [to_site], and its one edge, from the owning device to that router, is
    among the edges returned; when no site has that id, or the named site
    has no router, the entry contributes no edge. *)
Theorem vpn_entry_resolution (networkConfig : NetworkConfig) (allSites : list Site.t) :
  sites networkConfig = Some allSites ->
  forallb site_complete allSites = true ->
  exists ns es,
    layoutDocument (Some networkConfig) = Ok (ns, es)
    /\ es = flat_map (fun site =>
              flat_map (fun device =>
                flat_map (entryEdges allSites site device) (deviceEntries device))
                (siteDevices site))
              allSites
    /\ forall site device vs idx vc,
         In site allSites ->
         In device (siteDevices site) ->
         Device.vpn_connections device = Some vs ->
         vs !! idx = Some vc ->
         In (VpnEntry vc, idx) (deviceEntries device)
         /\ (forall ts r,
               first_such (named (VpnConnection.to_site vc)) allSites ts ->
               first_such is_router (siteDevices ts) r ->
               exists e,
                 entryEdges allSites site device (VpnEntry vc, idx) = [e]
                 /\ In e es
                 /\ Edge.type e = vpnEdge
                 /\ Edge.source e = Device.id device
                 /\ Edge.target e = Device.id r)
         /\ (Forall (fun s => Site.id s <> Some (VpnConnection.to_site vc)) allSites ->
             entryEdges allSites site device (VpnEntry vc, idx) = [])
         /\ (forall ts,
               first_such (named (VpnConnection.to_site vc)) allSites ts ->
               Forall (fun d => Device.type d <> Some (js "router")) (siteDevices ts) ->
               entryEdges allSites site device (VpnEntry vc, idx) = []).
Proof.
  intros Hsites Hc.
  destruct (document_edges _ _ Hsites Hc) as (ns & Hrun).
  eexists _, _. split; [exact Hrun |]. split; [reflexivity |].
  intros site device vs idx vc Hsite Hdevice Hvs Hidx.
  pose proof (vpn_entry_listed device vs idx vc Hvs Hidx) as Hlisted.
  split; [exact Hlisted |].
  unfold entryEdges at 1 3 4. cbn [fst snd]. unfold vpnEntryEdges.
  fold (named (VpnConnection.to_site vc)). fold is_router.
  split; [| split].
  - intros ts r Hts Hr.
    pose proof Hts as Hfind_ts. pose proof Hr as Hfind_r.
    apply find_first_such in Hfind_ts. apply find_first_such in Hfind_r.
    rewrite Hfind_ts, Hfind_r. eexists. split; [reflexivity |].
    split; [| by repeat split].
    apply (entry_edges_returned allSites site device (VpnEntry vc, idx));
      [done | done | done |].
    unfold entryEdges. cbn [fst snd]. unfold vpnEntryEdges.
    fold (named (VpnConnection.to_site vc)). fold is_router.
    rewrite Hfind_ts, Hfind_r. by left.
  - intros Hnone.
    assert (List.find (named (VpnConnection.to_site vc)) allSites = None) as ->; [| done].
    apply find_none_Forall. eapply Forall_impl; [exact Hnone |].
    intros s Hs. unfold named. by apply bool_decide_eq_false.
  - intros ts Hts Hnone. apply find_first_such in Hts. rewrite Hts.
    assert (List.find is_router (siteDevices ts) = None) as ->; [| done].
    apply find_none_Forall. eapply Forall_impl; [exact Hnone |].
    intros d Hd. unfold is_router. by apply bool_decide_eq_false.
Qed.

Lemma vpn_entry_resolution_witness :
  exists ns es e,
    layoutDocument (Some twoSites) = Ok (ns, es)
    /\ In e es
    /\ Edge.source e = Some (js "r2")
    /\ Edge.target e = Some (js "r1").
Proof.
  destruct (vpn_entry_resolution twoSites [hqSite; branchSite] eq_refl eq_refl)
    as (ns & es & Hrun & _ & Hentries).
  destruct (Hentries branchSite
              (sampleDevice "r2" "router" None (Some [VpnConnection.mk (js "hq") None]))
              [VpnConnection.mk (js "hq") None] 0%nat (VpnConnection.mk (js "hq") None))
    as (_ & Hyes & _ & _).
  - right; left; reflexivity.
  - left; reflexivity.
  - reflexivity.
  - reflexivity.
  - destruct (Hyes hqSite
                (sampleDevice "r1" "router" (Some [Connection.mk (js "sw1") None]) None))
      as (e & _ & Hin & _ & Hsource & Htarget).
    + exists [], [branchSite]. by repeat split.
    + exists [], [sampleDevice "sw1" "switch" None None]. by repeat split.
    + exists ns, es, e. split; [exact Hrun |]. split; [exact Hin |].
      split; [exact Hsource | exact Htarget].
Defined.

Lemma find_unique_id (allSites : list Site.t) (site : Site.t) (sid : jsstring) :
  NoDup (List.map Site.id allSites) ->
  In site allSites ->
  Site.id site = Some sid ->
  List.find (named sid) allSites = Some site.
Proof.
  intros Hnd Hin Hid. induction allSites as [|s l IH]; [done |].
  simpl in Hnd. apply NoDup_cons in Hnd as [Hs Hnd]. simpl.
  destruct Hin as [-> | Hin].
  - unfold named at 1. by rewrite bool_decide_eq_true_2.
  - unfold named at 1. rewrite bool_decide_eq_false_2; [by apply IH |].
    intros Heq. apply Hs. rewrite Heq, <- Hid.
    apply list_elem_of_In, in_map, Hin.
Qed.

(** C10. A [vpn_connections] entry whose [to_site] is the id of the device's
    own site is kept. For every document that loads and has unique site ids,
    and every such entry of a device of a site that has a router: the load
    returns exactly one edge for the entry, to the first router of that same
    site, of type [vpnEdge] and with [isCrossSite] false; when the owning
    device is that router the edge's source and target are the same id. *)
Theorem vpn_to_own_site (networkConfig : NetworkConfig) (allSites : list Site.t) :
  sites networkConfig = Some allSites ->
  forallb site_complete allSites = true ->
  NoDup (List.map Site.id allSites) ->
  exists ns es,
    layoutDocument (Some networkConfig) = Ok (ns, es)
    /\ es = flat_map (fun site =>
              flat_map (fun device =>
                flat_map (entryEdges allSites site device) (deviceEntries device))
                (siteDevices site))
              allSites
    /\ forall site device vs idx vc r,
         In site allSites ->
         In device (siteDevices site) ->
         Device.vpn_connections device = Some vs ->
         vs !! idx = Some vc ->
         Site.id site = Some (VpnConnection.to_site vc) ->
         first_such is_router (siteDevices site) r ->
         In (VpnEntry vc, idx) (deviceEntries device)
         /\ exists e,
              entryEdges allSites site device (VpnEntry vc, idx) = [e]
              /\ In e es
              /\ Edge.type e = vpnEdge
              /\ Edge.data e = VpnData false idx
              /\ Edge.source e = Device.id device
              /\ Edge.target e = Device.id r
              /\ (device = r -> Edge.source e = Edge.target e).
Proof.
  intros Hsites Hc Hnd.
  destruct (document_edges _ _ Hsites Hc) as (ns & Hrun).
  eexists _, _. split; [exact Hrun |]. split; [reflexivity |].
  intros site device vs idx vc r Hsite Hdevice Hvs Hidx Hid Hr.
  pose proof (vpn_entry_listed device vs idx vc Hvs Hidx) as Hlisted.
  split; [exact Hlisted |].
  assert (Hentry : entryEdges allSites site device (VpnEntry vc, idx)
                   = [vpnEdgeOf site device site r vc idx]).
  { unfold entryEdges. cbn [fst snd]. unfold vpnEntryEdges.
    fold (named (VpnConnection.to_site vc)). fold is_router.
    rewrite (find_unique_id _ _ _ Hnd Hsite Hid).
    apply find_first_such in Hr. by rewrite Hr. }
  exists (vpnEdgeOf site device site r vc idx). split; [exact Hentry |].
  split.
  - apply (entry_edges_returned allSites site device (VpnEntry vc, idx));
      [done | done | done |]. rewrite Hentry. by left.
  - destruct (vpnEdgeOf_fields site device site r vc idx) as (Ht & Hs & Htg & Hd).
    repeat split; try done.
    + rewrite Hd. by rewrite bool_decide_eq_true_2.
    + intros ->. by rewrite Hs, Htg.
Qed.

Lemma vpn_to_own_site_witness :
  exists ns es e,
    layoutDocument (Some (mkConfig None None (Some [loopSite]))) = Ok (ns, es)
    /\ In e es
    /\ Edge.source e = Edge.target e.
Proof.
  destruct (vpn_to_own_site (mkConfig None None (Some [loopSite])) [loopSite]
              eq_refl eq_refl) as (ns & es & Hrun & _ & Hentries).
  - refine (bool_decide_unpack _ _). vm_compute. exact I.
  - destruct (Hentries loopSite loopRouter [VpnConnection.mk (js "hq") None] 0%nat
                (VpnConnection.mk (js "hq") None) loopRouter)
      as (_ & e & _ & Hin & _ & _ & _ & _ & Hloop).
    + by left.
    + by left.
    + reflexivity.
    + reflexivity.
    + reflexivity.
    + exists [], []. by repeat split.
    + exists ns, es, e. split; [exact Hrun |]. split; [exact Hin | by apply Hloop].
Defined.

(** ** Failures of the load *)

Lemma layoutDocument_ok (doc : option NetworkConfig) :
  is_ok (layoutDocument doc) = document_complete doc.
Proof.
  destruct (document_complete doc) eqn:Hc.
  - destruct doc as [cfg|]; [| done]. simpl in Hc.
    destruct (sites cfg) as [allSites|] eqn:Hsites; [| done].
    destruct (layoutDocument_spec _ _ Hsites Hc) as (P & boxes & -> & _). done.
  - by rewrite layoutDocument_throws.
Qed.

(** C7, as the code has it. [parseNetworkConfig] rethrows whatever
    [yaml.load] throws on malformed text. On a loaded document it throws a
    [TypeError] exactly when [sites] is missing or some site lacks [devices]
    or [id], and returns nodes and edges otherwise; whether a device has an
    [id] or a [type] plays no part, and no error of a schema kind exists. *)
Theorem load_failures (yaml_load : jsstring -> outcome (option NetworkConfig))
    (yamlContent : jsstring) :
  parseNetworkConfig yaml_load yamlContent
  = match yaml_load yamlContent with
    | Throw error => Throw error
    | Ok doc =>
        if document_complete doc then layoutDocument doc else Throw TypeError
    end
  /\ forall doc, is_ok (layoutDocument doc) = document_complete doc.
Proof.
  split; [| apply layoutDocument_ok].
  unfold parseNetworkConfig.
  destruct (yaml_load yamlContent) as [doc|error]; [| done].
  rewrite bind_Ok.
  destruct (document_complete doc) eqn:Hc.
  - by destruct (layoutDocument doc).
  - by rewrite layoutDocument_throws.
Qed.

(** The claim C7 as stated fails: the one device of [untypedConfig] has
    neither [id] nor [type], and the document is laid out, not rejected. *)
Lemma missing_device_fields_accepted :
  required_fields_present (Some untypedConfig) = false
  /\ exists ns,
       layoutDocument (Some untypedConfig) = Ok (ns, [])
       /\ placement ns None
          = Some (deviceNode anonymousDevice (150, 200)).
Proof.
  split; [reflexivity |].
  eexists. split; [vm_compute; reflexivity | reflexivity].
Qed.

(** ** Node placement *)

Lemma filter_flat_map {A B : Type} (p : B -> bool) (f : A -> list B) (l : list A) :
  List.filter p (flat_map f l) = flat_map (fun a => List.filter p (f a)) l.
Proof. induction l as [|a l IH]; simpl; [done |]. by rewrite List.filter_app, IH. Qed.

Lemma filter_rev {A : Type} (p : A -> bool) (l : list A) :
  List.filter p (rev l) = rev (List.filter p l).
Proof.
  induction l as [|a l IH]; simpl; [done |].
  rewrite List.filter_app, IH. simpl. destruct (p a); simpl; [done | by rewrite app_nil_r].
Qed.

Lemma filter_all {A : Type} (p : A -> bool) (l : list A) :
  Forall (fun a => p a = true) l -> List.filter p l = l.
Proof. induction 1 as [|a l Ha _ IH]; simpl; [done |]. by rewrite Ha, IH. Qed.

Lemma filter_none {A : Type} (p : A -> bool) (l : list A) :
  Forall (fun a => p a = false) l -> List.filter p l = [].
Proof. induction 1 as [|a l Ha _ IH]; simpl; [done |]. by rewrite Ha. Qed.

Lemma flat_map_nil {A B : Type} (l : list A) :
  flat_map (fun _ : A => @nil B) l = [].
Proof. by induction l. Qed.

Lemma backgrounds_are_groups (P : gmap jsstring (Z * Z)) (l : list Site.t)
    (boxes : list Dimensions) :
  Forall (fun n => Node.type n = group) (zip_with (siteBackground P) l boxes).
Proof.
  revert boxes; induction l as [|s l IH]; intros [|b boxes]; simpl; try done.
  constructor; [done | apply IH].
Qed.

Lemma deviceNodes_are_devices (base : Z * Z) (devs : list Device.t) (i : nat) :
  Forall (fun n => Node.type n = networkNode) (deviceNodes base devs i).
Proof.
  unfold deviceNodes. revert i; induction devs as [|d devs IH]; intros i; simpl; [done |].
  constructor; [done | apply IH].
Qed.

Lemma deviceNodes_ids (base : Z * Z) (devs : list Device.t) (i : nat) :
  List.map Node.id (deviceNodes base devs i) = List.map Device.id devs.
Proof.
  unfold deviceNodes. revert i; induction devs as [|d devs IH]; intros i; simpl; [done |].
  by rewrite IH.
Qed.

Lemma deviceNodes_lookup (base : Z * Z) (devs : list Device.t) (i : nat) (d : Device.t) :
  devs !! i = Some d ->
  deviceNodes base devs 0 !! i = Some (deviceNode d (devicePosition base i)).
Proof.
  intros Hi. unfold deviceNodes.
  by rewrite (emitted_from_singletons_lookup _ _ _ _ _ Hi).
Qed.

Lemma pushedNodes_devices (P : gmap jsstring (Z * Z)) (s : Site.t) :
  List.filter is_device_node (pushedNodes P s)
  = deviceNodes (basePosition P s) (siteDevices s) 0.
Proof.
  unfold pushedNodes. rewrite List.filter_app. simpl. rewrite app_nil_r.
  apply filter_all. eapply Forall_impl; [apply deviceNodes_are_devices |].
  intros n Hn. unfold is_device_node. by rewrite Hn.
Qed.

Lemma pushedNodes_backgrounds (P : gmap jsstring (Z * Z)) (s : Site.t) :
  List.filter is_background (pushedNodes P s) = [].
Proof.
  unfold pushedNodes. rewrite List.filter_app. simpl.
  rewrite filter_none; [done |].
  eapply Forall_impl; [apply deviceNodes_are_devices |].
  intros n Hn. unfold is_background. by rewrite Hn.
Qed.

(** Device placements and site backgrounds among the nodes of a load. *)
Lemma layout_device_nodes (P : gmap jsstring (Z * Z)) (l : list Site.t)
    (boxes : list Dimensions) :
  List.filter is_device_node
    (rev (zip_with (siteBackground P) l boxes) ++ flat_map (pushedNodes P) l)
  = flat_map (fun s => deviceNodes (basePosition P s) (siteDevices s) 0) l.
Proof.
  rewrite List.filter_app, filter_rev, filter_none, filter_flat_map; simpl.
  - apply flat_map_ext. intros s. apply pushedNodes_devices.
  - eapply Forall_impl; [apply backgrounds_are_groups |].
    intros n Hn. unfold is_device_node. by rewrite Hn.
Qed.

Lemma layout_backgrounds (P : gmap jsstring (Z * Z)) (l : list Site.t)
    (boxes : list Dimensions) :
  List.filter is_background
    (rev (zip_with (siteBackground P) l boxes) ++ flat_map (pushedNodes P) l)
  = rev (zip_with (siteBackground P) l boxes).
Proof.
  rewrite List.filter_app, filter_rev, filter_all, filter_flat_map.
  - rewrite (flat_map_ext _ (fun _ => [])); [| intros s; apply pushedNodes_backgrounds].
    rewrite flat_map_nil. by rewrite app_nil_r.
  - eapply Forall_impl; [apply backgrounds_are_groups |].
    intros n Hn. unfold is_background. by rewrite Hn.
Qed.

Lemma NoDup_map_eq {A B : Type} (f : A -> B) (l : list A) (a b : A) :
  NoDup (List.map f l) -> In a l -> In b l -> f a = f b -> a = b.
Proof.
  induction l as [|x l IH]; simpl; [done |].
  intros Hnd Ha Hb Hf. apply NoDup_cons in Hnd as [Hx Hnd].
  destruct Ha as [-> | Ha], Hb as [-> | Hb]; try done.
  - exfalso. apply Hx. rewrite Hf. apply list_elem_of_In, in_map, Hb.
  - exfalso. apply Hx. rewrite <- Hf. apply list_elem_of_In, in_map, Ha.
  - by apply IH.
Qed.

Lemma unique_match_count {A B : Type} `{EqDecision B} (f : A -> B) (l : list A) (a : A) :
  NoDup (List.map f l) -> In a l ->
  length (List.filter (fun x => bool_decide (f x = f a)) l) = 1%nat.
Proof.
  induction l as [|x l IH]; simpl; [done |].
  intros Hnd Ha. apply NoDup_cons in Hnd as [Hx Hnd].
  destruct Ha as [-> | Ha].
  - rewrite bool_decide_eq_true_2 by done. simpl. f_equal.
    rewrite filter_none; [done |]. apply List.Forall_forall. intros y Hy.
    apply bool_decide_eq_false_2. intros Heq. apply Hx. rewrite <- Heq.
    apply list_elem_of_In, in_map, Hy.
  - rewrite bool_decide_eq_false_2; [by apply IH |].
    intros Heq. apply Hx. rewrite Heq. apply list_elem_of_In, in_map, Ha.
Qed.

Lemma filter_filter_and {A : Type} (p q : A -> bool) (l : list A) :
  List.filter (fun x => p x && q x) l = List.filter q (List.filter p l).
Proof.
  induction l as [|x l IH]; simpl; [done |].
  destruct (p x); simpl; [| done]. destruct (q x); by rewrite IH.
Qed.

Lemma find_unique {A B : Type} `{EqDecision B} (p : A -> bool) (f : A -> B)
    (l : list A) (a : A) :
  NoDup (List.map f (List.filter p l)) -> In a l -> p a = true ->
  List.find (fun x => p x && bool_decide (f x = f a)) l = Some a.
Proof.
  intros Hnd Ha Hpa.
  destruct (List.find _ l) as [b|] eqn:Hfind.
  - apply find_some in Hfind as [Hb Hpb].
    apply andb_true_iff in Hpb as [Hpb Hfb]. apply bool_decide_eq_true in Hfb.
    f_equal. apply (NoDup_map_eq f (List.filter p l)); try done;
      by apply filter_In.
  - exfalso. apply (find_none _ _ Hfind a) in Ha.
    by rewrite Hpa, bool_decide_eq_true_2 in Ha.
Qed.

(** Two different input indices are two different grid cells, a whole pitch
    apart in x or in y. *)
Lemma gridCell_inj (i j : nat) : gridCell i = gridCell j -> i = j.
Proof.
  unfold gridCell, maxDevicesPerRow. intros [= Hrow Hcol].
  pose proof (Z.div_mod (Z.of_nat i) 3). pose proof (Z.div_mod (Z.of_nat j) 3). lia.
Qed.

Lemma devicePosition_cell (base : Z * Z) (i : nat) :
  devicePosition base i
  = (base.1 + 150 + deviceSpacing * (gridCell i).2,
     base.2 + 100 + 250 * (gridCell i).1).
Proof. unfold devicePosition, gridCell. simpl. f_equal; lia. Qed.

Lemma devicePosition_apart (base : Z * Z) (i j : nat) :
  i <> j ->
  deviceSpacing <= Z.abs ((devicePosition base i).1 - (devicePosition base j).1)
  \/ deviceSpacing <= Z.abs ((devicePosition base i).2 - (devicePosition base j).2).
Proof.
  intros Hij. rewrite !devicePosition_cell.
  unfold gridCell, maxDevicesPerRow, deviceSpacing. simpl.
  pose proof (Z.div_mod (Z.of_nat i) 3). pose proof (Z.div_mod (Z.of_nat j) 3).
  lia.
Qed.

Lemma device_nodes_ids (P : gmap jsstring (Z * Z)) (l : list Site.t) :
  List.map Node.id (flat_map (fun s => deviceNodes (basePosition P s) (siteDevices s) 0) l)
  = allDeviceIds l.
Proof.
  unfold allDeviceIds. induction l as [|s l IH]; simpl; [done |].
  by rewrite List.map_app, deviceNodes_ids, IH.
Qed.

(** C8. In a document whose device ids are all different, the load returns
    exactly one device placement per device id, and two different devices of
    one site stand in different cells of the site's grid, at least one grid
    pitch (250) apart in x or in y. *)
Theorem device_placements_distinct (networkConfig : NetworkConfig)
    (allSites : list Site.t) :
  sites networkConfig = Some allSites ->
  forallb site_complete allSites = true ->
  NoDup (allDeviceIds allSites) ->
  exists ns es,
    layoutDocument (Some networkConfig) = Ok (ns, es)
    /\ (forall site device,
          In site allSites -> In device (siteDevices site) ->
          length (List.filter (is_placement_of (Device.id device)) ns) = 1%nat)
    /\ (forall site i j d1 d2,
          In site allSites ->
          siteDevices site !! i = Some d1 ->
          siteDevices site !! j = Some d2 ->
          i <> j ->
          exists base n1 n2,
            placement ns (Device.id d1) = Some n1
            /\ placement ns (Device.id d2) = Some n2
            /\ Node.position n1 = devicePosition base i
            /\ Node.position n2 = devicePosition base j
            /\ gridCell i <> gridCell j
            /\ (deviceSpacing <= Z.abs ((Node.position n1).1 - (Node.position n2).1)
                \/ deviceSpacing <= Z.abs ((Node.position n1).2 - (Node.position n2).2))).
Proof.
  intros Hsites Hc Hnd.
  destruct (layoutDocument_spec _ _ Hsites Hc) as (P & boxes & Hrun & _).
  eexists _, _. split; [exact Hrun |].
  set (ns := rev _ ++ _).
  set (D := flat_map (fun s => deviceNodes (basePosition P s) (siteDevices s) 0) allSites).
  assert (HD : List.filter is_device_node ns = D) by apply layout_device_nodes.
  assert (HndD : NoDup (List.map Node.id D)) by (subst D; by rewrite device_nodes_ids).
  assert (Hnode : forall site i d, In site allSites -> siteDevices site !! i = Some d ->
            In (deviceNode d (devicePosition (basePosition P site) i)) D).
  { intros site i d Hs Hi. subst D. apply in_flat_map. exists site. split; [done |].
    apply list_elem_of_In. eapply list_elem_of_lookup_2.
    by apply deviceNodes_lookup. }
  assert (Hplace : forall site i d, In site allSites -> siteDevices site !! i = Some d ->
            placement ns (Device.id d)
            = Some (deviceNode d (devicePosition (basePosition P site) i))).
  { intros site i d Hs Hi. unfold placement, is_placement_of.
    apply (find_unique is_device_node Node.id ns
             (deviceNode d (devicePosition (basePosition P site) i))).
    - by rewrite HD.
    - pose proof (Hnode site i d Hs Hi) as Hin. rewrite <- HD in Hin.
      by apply filter_In in Hin as [? _].
    - done. }
  split.
  - intros site device Hs Hd.
    apply list_elem_of_In, list_elem_of_lookup in Hd as [i Hi].
    unfold is_placement_of. rewrite filter_filter_and, HD.
    apply (unique_match_count Node.id D
             (deviceNode device (devicePosition (basePosition P site) i)) HndD).
    by eapply Hnode.
  - intros site i j d1 d2 Hs Hi Hj Hij.
    exists (basePosition P site), (deviceNode d1 (devicePosition (basePosition P site) i)),
           (deviceNode d2 (devicePosition (basePosition P site) j)).
    split; [by eapply Hplace |]. split; [by eapply Hplace |].
    split; [done |]. split; [done |].
    split; [intros Heq; by apply Hij, gridCell_inj |].
    by apply devicePosition_apart.
Qed.

Lemma device_placements_distinct_witness :
  exists ns es,
    layoutDocument (Some twoSites) = Ok (ns, es)
    /\ length (List.filter (is_placement_of (Some (js "sw1"))) ns) = 1%nat.
Proof.
  destruct (device_placements_distinct twoSites [hqSite; branchSite] eq_refl eq_refl)
    as (ns & es & Hrun & Hone & _).
  - refine (bool_decide_unpack _ _). vm_compute. exact I.
  - exists ns, es. split; [exact Hrun |].
    apply (Hone hqSite (sampleDevice "sw1" "switch" None None)); simpl; tauto.
Defined.

(** C2, as the code has it. The device placements of a load are, site by
    site and in input order, one node per device; the device at input index
    [i] of its site stands in row [i / 3], column [i mod 3] of the site's
    grid, whatever its type. *)
Theorem devices_placed_in_input_order (networkConfig : NetworkConfig)
    (allSites : list Site.t) :
  sites networkConfig = Some allSites ->
  forallb site_complete allSites = true ->
  exists P ns es,
    layoutDocument (Some networkConfig) = Ok (ns, es)
    /\ List.filter is_device_node ns
       = flat_map (fun site => deviceNodes (basePosition P site) (siteDevices site) 0)
                  allSites
    /\ forall site i d,
         siteDevices site !! i = Some d ->
         deviceNodes (basePosition P site) (siteDevices site) 0 !! i
         = Some (deviceNode d
                   ((basePosition P site).1 + 150 + deviceSpacing * (gridCell i).2,
                    (basePosition P site).2 + 100 + 250 * (gridCell i).1)).
Proof.
  intros Hsites Hc.
  destruct (layoutDocument_spec _ _ Hsites Hc) as (P & boxes & Hrun & _).
  exists P. eexists _, _. split; [exact Hrun |]. split.
  - apply layout_device_nodes.
  - intros site i d Hi. rewrite <- devicePosition_cell. by apply deviceNodes_lookup.
Qed.

Lemma devices_placed_in_input_order_witness :
  exists ns es,
    layoutDocument (Some serverFirstConfig) = Ok (ns, es)
    /\ List.map Node.id (List.filter is_device_node ns) = [Some (js "s1"); Some (js "r1")].
Proof.
  destruct (devices_placed_in_input_order serverFirstConfig [serverFirstSite]
              eq_refl eq_refl) as (P & ns & es & Hrun & Hnodes & _).
  exists ns, es. split; [exact Hrun |].
  rewrite Hnodes, device_nodes_ids. reflexivity.
Defined.

(** The claim C2 as stated fails: in [serverFirstConfig] the server comes
    first in the input and gets the first cell, the router the second, though
    the router has the higher priority. *)
Lemma server_placed_before_router :
  exists ns es,
    layoutDocument (Some serverFirstConfig) = Ok (ns, es)
    /\ ~ grouped_by_priority serverFirstSite ns.
Proof.
  eexists _, _. split; [vm_compute; reflexivity |].
  intros H.
  specialize (H (sampleDevice "r1" "router" None None)
                (sampleDevice "s1" "server" None None)
                (deviceNode (sampleDevice "r1" "router" None None) (400, 200))
                (deviceNode (sampleDevice "s1" "server" None None) (150, 200))).
  destruct H as [Hy | [_ Hx]]; try reflexivity; simpl in *; try tauto; lia.
Qed.

(** ** Site pitch and background boxes *)

Lemma growDim_base (base : Z * Z) (dim : Dimensions) (i : nat) :
  growDim base dim i = growDim (0, 0) dim i.
Proof. unfold growDim, devicePosition. simpl. f_equal; f_equal; lia. Qed.

Lemma growDims_base (base : Z * Z) (n : nat) :
  forall dim i, growDims base dim n i = growDims (0, 0) dim n i.
Proof.
  induction n as [|n IH]; intros dim i; simpl; [done |].
  by rewrite IH, growDim_base.
Qed.

Lemma growDims_width (n : nat) :
  forall dim i,
    width dim <= 800 -> width (growDims (0, 0) dim n i) <= 800.
Proof.
  induction n as [|n IH]; intros dim i Hw; simpl; [done |].
  apply IH. unfold growDim, devicePosition, maxDevicesPerRow, deviceSpacing. simpl.
  pose proof (Z.mod_pos_bound (Z.of_nat i) 3). lia.
Qed.

Lemma siteBox_width (n : nat) : 600 <= width (siteBox n) <= 1000.
Proof.
  unfold siteBox, paddedBox, deviceSpacing. simpl.
  pose proof (growDims_width n (mkDim 0 0 n) 0). simpl in *. lia.
Qed.

Lemma NoDup_siteKeys (allSites : list Site.t) :
  forallb site_complete allSites = true ->
  NoDup (List.map Site.id allSites) ->
  NoDup (List.map siteKey allSites).
Proof.
  induction allSites as [|s l IH]; simpl; [intros; apply NoDup_nil_2 |].
  intros Hc Hnd. apply andb_true_iff in Hc as [Hs Hc].
  apply NoDup_cons in Hnd as [Hnin Hnd]. apply NoDup_cons. split; [| by apply IH].
  intros Hin. apply Hnin.
  apply list_elem_of_In, in_map_iff in Hin as (s' & Hkey & Hin').
  apply list_elem_of_In, in_map_iff. exists s'. split; [| done].
  rewrite forallb_forall in Hc. specialize (Hc s' Hin').
  unfold site_complete, has_id, siteKey in *.
  apply andb_true_iff in Hs as [_ Hs]. apply andb_true_iff in Hc as [_ Hc].
  destruct (Site.id s), (Site.id s'); simpl in *; congruence.
Qed.

Lemma backgroundAt_range (j : nat) (s : Site.t) :
  (x_range (backgroundAt j s)).1 = Z.of_nat j * siteSpacing - 50
  /\ (x_range (backgroundAt j s)).2 <= Z.of_nat j * siteSpacing + 950.
Proof.
  unfold backgroundAt, backgroundNode, x_range.
  cbn [Node.style Node.position fst snd].
  pose proof (siteBox_width (length (siteDevices s))). lia.
Qed.

Lemma device_nodes_by_index (P : gmap jsstring (Z * Z)) (l : list Site.t) :
  forall g : nat -> nat,
    (forall j s, l !! j = Some s ->
       basePosition P s = (Z.of_nat (g j) * siteSpacing, 100)) ->
    flat_map (fun s => deviceNodes (basePosition P s) (siteDevices s) 0) l
    = concat (imap (fun j s => deviceNodes (Z.of_nat (g j) * siteSpacing, 100)
                                           (siteDevices s) 0) l).
Proof.
  induction l as [|s l IH]; intros g Hbase; simpl; [done |].
  rewrite (Hbase 0%nat s eq_refl). f_equal.
  apply (IH (fun j => g (S j))). intros j s' Hj. by apply (Hbase (S j)).
Qed.

(** C9. With unique site ids, the site at ordinal position [j] gets the base
    position [(1100 * j, 100)]: its devices are laid out from there and its
    background box starts 50 to the left of it. A box is between 600 and 1000
    wide, less than the pitch, so the horizontal extents of the boxes of two
    different sites do not meet, whatever the number of devices. *)
Theorem site_pitch_separates_boxes (networkConfig : NetworkConfig)
    (allSites : list Site.t) :
  sites networkConfig = Some allSites ->
  forallb site_complete allSites = true ->
  NoDup (List.map Site.id allSites) ->
  exists ns es,
    layoutDocument (Some networkConfig) = Ok (ns, es)
    /\ List.filter is_background ns = rev (imap backgroundAt allSites)
    /\ List.filter is_device_node ns
       = concat (imap (fun j s => deviceNodes (Z.of_nat j * siteSpacing, 100)
                                              (siteDevices s) 0) allSites)
    /\ (forall n, 600 <= width (siteBox n) <= 1000)
    /\ (forall i j si sj,
          allSites !! i = Some si -> allSites !! j = Some sj -> i <> j ->
          ranges_disjoint (x_range (backgroundAt i si)) (x_range (backgroundAt j sj))).
Proof.
  intros Hsites Hc Hids. pose proof (NoDup_siteKeys _ Hc Hids) as Hnd.
  destruct (layoutDocument_spec _ _ Hsites Hc) as (P & boxes & Hrun & Hlen & _ & Hpos).
  specialize (Hpos Hnd).
  eexists _, _. split; [exact Hrun |].
  split; [| split; [| split]].
  - rewrite layout_backgrounds. f_equal.
    apply list_eq. intros j. rewrite lookup_zip_with, list_lookup_imap.
    destruct (allSites !! j) as [s|] eqn:Hj; simpl; [| done].
    destruct (Hpos j s Hj) as [Hp Hb]. rewrite Hb. simpl.
    unfold siteBackground, backgroundAt, basePosition, siteBox.
    by rewrite Hp, growDims_base.
  - rewrite layout_device_nodes.
    assert (forall j s, allSites !! j = Some s ->
              basePosition P s = (Z.of_nat j * siteSpacing, 100)) as Hbase.
    { intros j s Hj. destruct (Hpos j s Hj) as [Hp _]. unfold basePosition. by rewrite Hp. }
    exact (device_nodes_by_index P allSites (fun j => j) Hbase).
  - apply siteBox_width.
  - intros i j si sj _ _ Hij. unfold ranges_disjoint.
    destruct (backgroundAt_range i si) as [Hi1 Hi2].
    destruct (backgroundAt_range j sj) as [Hj1 Hj2].
    unfold siteSpacing in *. lia.
Qed.

(** Why the site ids must differ: the stores are keyed by site id, so two
    sites of one id both get the position written last, and their boxes
    start at the same x. *)
Lemma repeated_site_id_shares_position :
  let site (deviceId : string) :=
    Site.mk (Some (js "a")) None None (Some [sampleDevice deviceId "server" None None]) in
  exists ns es,
    layoutDocument (Some (mkConfig None None (Some [site "d1"%string; site "d2"%string])))
    = Ok (ns, es)
    /\ List.map Node.position (List.filter is_background ns) = [(1050, -50); (1050, -50)].
Proof. eexists _, _. split; [vm_compute; reflexivity | reflexivity]. Qed.

Lemma site_pitch_separates_boxes_witness :
  exists ns es,
    layoutDocument (Some twoSites) = Ok (ns, es)
    /\ ranges_disjoint (x_range (backgroundAt 0 hqSite)) (x_range (backgroundAt 1 branchSite)).
Proof.
  destruct (site_pitch_separates_boxes twoSites [hqSite; branchSite] eq_refl eq_refl)
    as (ns & es & Hrun & _ & _ & _ & Hapart).
  - refine (bool_decide_unpack _ _). vm_compute. exact I.
  - exists ns, es. split; [exact Hrun |].
    apply (Hapart 0%nat 1%nat hqSite branchSite eq_refl eq_refl). lia.
Defined.

(** ** Stagger index *)

Lemma fold_left_sum (id : jsstring) (acc : N) :
  fold_left (fun sum char => (sum + char)%N) id acc = (acc + charCodeSum id)%N.
Proof.
  revert acc; induction id as [|char rest IH]; intros acc; simpl.
  - by rewrite N.add_0_r.
  - rewrite IH. lia.
Qed.

Lemma idSum_charCodeSum (id : jsstring) : idSum id = charCodeSum id.
Proof. unfold idSum. by rewrite fold_left_sum. Qed.

(** The sum of the code units (below 2^16 each) of a string shorter than
    2^30 is below 2^53, where the additions of doubles are exact. *)
Lemma idSum_exact (id : jsstring) :
  Forall (fun char => (char < 65536)%N) id ->
  (N.of_nat (length id) < 1073741824)%N ->
  (idSum id < 9007199254740992)%N.
Proof.
  intros Hunits Hlen. rewrite idSum_charCodeSum.
  assert (charCodeSum id <= 65536 * N.of_nat (length id))%N as Hsum; [| lia].
  clear Hlen. induction Hunits as [|char rest Hchar _ IH]; [done |].
  cbn [charCodeSum length]. lia.
Qed.

(** C4. The stagger index of an edge identifier is the sum of its character
    codes modulo 3, hence 0, 1 or 2, and it is all the connection, trunk and
    SAN components take from the identifier: two identifiers with the same
    index are routed alike. *)
Theorem stagger_index (id : jsstring) :
  edgeNumber id = (charCodeSum id mod 3)%N
  /\ (edgeNumber id = 0 \/ edgeNumber id = 1 \/ edgeNumber id = 2)%N
  /\ forall id' sx sy tx ty,
       edgeNumber id' = edgeNumber id ->
       Routing.OrthogonalTrunkEdge id' sx sy tx ty = Routing.OrthogonalTrunkEdge id sx sy tx ty
       /\ Routing.OrthogonalSanEdge id' sx sy tx ty = Routing.OrthogonalSanEdge id sx sy tx ty
       /\ Routing.OrthogonalConnectionEdge id' sx sy tx ty
          = Routing.OrthogonalConnectionEdge id sx sy tx ty.
Proof.
  split; [| split].
  - unfold edgeNumber. by rewrite idSum_charCodeSum.
  - unfold edgeNumber. pose proof (N.mod_upper_bound (idSum id) 3 ltac:(lia)) as Hlt.
    revert Hlt. generalize (idSum id mod 3)%N. intros r Hlt. lia.
  - intros id' sx sy tx ty Heq.
    unfold Routing.OrthogonalTrunkEdge, Routing.OrthogonalSanEdge,
      Routing.OrthogonalConnectionEdge.
    by rewrite Heq.
Qed.

(** ** Axis-aligned paths *)

Ltac route_cases :=
  cbv zeta;
  repeat match goal with
         | |- context [if ?b then _ else _] => destruct b
         end;
  cbn [edgePath endpoints trace segments fst snd];
  repeat match goal with
         | |- Forall _ _ => constructor
         end;
  cbn [fst snd]; auto.

Lemma connection_axis_aligned (id : jsstring) (sx sy tx ty : float) :
  Forall axis_aligned
    (segments (endpoints (edgePath (Routing.OrthogonalConnectionEdge id sx sy tx ty)))).
Proof. unfold Routing.OrthogonalConnectionEdge, axis_aligned. route_cases. Qed.

Lemma vpn_axis_aligned (id : jsstring) (sx sy tx ty : float) :
  Forall axis_aligned
    (segments (endpoints (edgePath (Routing.OrthogonalVpnEdge id sx sy tx ty)))).
Proof. unfold Routing.OrthogonalVpnEdge, axis_aligned. route_cases. Qed.

Lemma trunk_axis_aligned (id : jsstring) (sx sy tx ty : float) :
  Forall axis_aligned
    (segments (endpoints (edgePath (Routing.OrthogonalTrunkEdge id sx sy tx ty)))).
Proof. unfold Routing.OrthogonalTrunkEdge, axis_aligned. route_cases. Qed.

Lemma san_axis_aligned (id : jsstring) (sx sy tx ty : float) :
  Forall axis_aligned
    (segments (endpoints (edgePath (Routing.OrthogonalSanEdge id sx sy tx ty)))).
Proof. unfold Routing.OrthogonalSanEdge, axis_aligned. route_cases. Qed.

Lemma snapshot_axis_aligned (id : jsstring) (sx sy tx ty : float) :
  Forall axis_aligned
    (segments (endpoints (edgePath (RoutingSnapshot.OrthogonalTrunkEdge id sx sy tx ty))))
  /\ Forall axis_aligned
       (segments (endpoints (edgePath (RoutingSnapshot.OrthogonalSanEdge id sx sy tx ty))))
  /\ Forall axis_aligned
       (segments (endpoints (edgePath (RoutingSnapshot.OrthogonalVpnEdge id sx sy tx ty)))).
Proof.
  unfold RoutingSnapshot.OrthogonalTrunkEdge, RoutingSnapshot.OrthogonalSanEdge,
    RoutingSnapshot.OrthogonalVpnEdge, axis_aligned.
  repeat split; route_cases.
Qed.

(** C5, as the code has it. For every pair of anchors and every edge
    identifier, the path each of the four registered components computes is
    a sequence of axis-aligned segments: the two ends of every segment agree
    in x or in y, so no segment is diagonal; a segment may have length zero.
    The same holds for the second snapshot of the trunk, SAN and VPN
    components. *)
Theorem routed_paths_axis_aligned (type : EdgeType) (id : jsstring)
    (sourceX sourceY targetX targetY : float) :
  Forall axis_aligned
    (segments (endpoints (edgePath (edgeTypes type id sourceX sourceY targetX targetY))))
  /\ Forall axis_aligned
       (segments (endpoints (edgePath
          (RoutingSnapshot.OrthogonalTrunkEdge id sourceX sourceY targetX targetY))))
  /\ Forall axis_aligned
       (segments (endpoints (edgePath
          (RoutingSnapshot.OrthogonalSanEdge id sourceX sourceY targetX targetY))))
  /\ Forall axis_aligned
       (segments (endpoints (edgePath
          (RoutingSnapshot.OrthogonalVpnEdge id sourceX sourceY targetX targetY)))).
Proof.
  split; [| apply snapshot_axis_aligned].
  destruct type; simpl.
  - apply connection_axis_aligned.
  - apply vpn_axis_aligned.
  - apply trunk_axis_aligned.
  - apply san_axis_aligned.
Qed.

(** The claim C5 as stated fails: a trunk between two devices of one row,
    350 apart, with stagger index 0, runs [M 300 235 H 475 V 235 H 650]; the
    ends of its vertical segment are the same point. *)
Lemma trunk_path_has_empty_segment :
  edgePath (edgeTypes trunkEdge sampleTrunkId 300 235 650 235)
  = [MoveTo 300 235; HorizontalTo 475; VerticalTo 235; HorizontalTo 650]
  /\ ~ Forall differs_in_exactly_one
         (segments (endpoints (edgePath (edgeTypes trunkEdge sampleTrunkId 300 235 650 235)))).
Proof.
  split; [vm_compute; reflexivity |].
  intros Hall.
  assert (In ((475, 235), (475, 235))%float
             (segments (endpoints (edgePath (edgeTypes trunkEdge sampleTrunkId 300 235 650 235)))))
    as Hin by (vm_compute; tauto).
  rewrite List.Forall_forall in Hall. specialize (Hall _ Hin).
  destruct Hall as [[Hx _] | [_ Hy]]; [apply Hx | apply Hy]; reflexivity.
Qed.

(** ** Determinism of the pipeline *)

Lemma sameDependencies_eq (d d' : jsstring * float * float * float * float) :
  sameDependencies d d' = true -> d = d'.
Proof.
  destruct d as [[[[id sx] sy] tx] ty], d' as [[[[id' sx'] sy'] tx'] ty'].
  unfold sameDependencies. rewrite !andb_true_iff.
  intros [[[[Hid Hsx] Hsy] Htx] Hty].
  apply bool_decide_eq_true in Hid.
  apply FloatAxioms.Leibniz.eqb_spec in Hsx, Hsy, Htx, Hty. congruence.
Qed.

(** A memo cell is coherent when the value it holds is the one its
    dependencies compute. *)
Lemma renderEdges_fresh
    (component : jsstring -> float -> float -> float -> float -> RoutedPath)
    (ps : list EdgeProps) :
  forall cell,
    (forall id sx sy tx ty v,
        cell = Some (id, sx, sy, tx, ty, v) -> v = component id sx sy tx ty) ->
    renderEdges component ps cell
    = List.map (fun p => component (prop_id p) (sourceX p) (sourceY p) (targetX p) (targetY p))
               ps.
Proof.
  induction ps as [|p rest IH]; intros cell Hcell; [done |].
  cbn [renderEdges List.map]. unfold renderEdge.
  destruct cell as [[d cached]|].
  - destruct (sameDependencies d (dependencies p)) eqn:Hsame.
    + apply sameDependencies_eq in Hsame. subst d. unfold dependencies in Hcell.
      rewrite (Hcell _ _ _ _ _ _ eq_refl). f_equal. apply IH.
      by intros id sx sy tx ty v [= <- <- <- <- <- <-].
    + f_equal. apply IH. by intros id sx sy tx ty v [= <- <- <- <- <- <-].
  - f_equal. apply IH. by intros id sx sy tx ty v [= <- <- <- <- <- <-].
Qed.

(** C3. Loading the same text again changes nothing: [setupNetwork] is
    idempotent. A load that succeeds leaves nodes and edges that depend on
    the text alone, not on what was shown before. And in every series of
    renders of a mounted edge component the path in use is the one its
    current identifier and anchors compute, whatever was rendered before and
    whatever the other properties are. *)
Theorem pipeline_deterministic
    (yaml_load : jsstring -> outcome (option NetworkConfig)) (yamlContent : jsstring) :
  (forall s,
      setupNetwork yaml_load yamlContent (setupNetwork yaml_load yamlContent s)
      = setupNetwork yaml_load yamlContent s)
  /\ (forall s s',
        is_ok (parseNetworkConfig yaml_load yamlContent) = true ->
        setupNetwork yaml_load yamlContent s = setupNetwork yaml_load yamlContent s')
  /\ (forall type ps,
        renderEdges (edgeTypes type) ps None
        = List.map (fun p => edgeTypes type (prop_id p) (sourceX p) (sourceY p)
                                       (targetX p) (targetY p)) ps).
Proof.
  split; [| split].
  - intros s. unfold setupNetwork.
    destruct (blank yamlContent); [done |].
    by destruct (parseNetworkConfig yaml_load yamlContent) as [[ns es]|err].
  - intros s s' Hok. unfold setupNetwork.
    destruct (blank yamlContent); [done |].
    by destruct (parseNetworkConfig yaml_load yamlContent) as [[ns es]|err].
  - intros type ps. by apply renderEdges_fresh.
Qed.

(** ** Further properties of [parseNetworkConfig] *)

Lemma pushed_nodes_by_index (P : gmap jsstring (Z * Z)) (l : list Site.t) :
  forall g : nat -> nat,
    (forall j s, l !! j = Some s ->
       basePosition P s = (Z.of_nat (g j) * siteSpacing, 100)) ->
    flat_map (pushedNodes P) l = concat (imap (fun j s => pushedAt (g j) s) l).
Proof.
  induction l as [|s l IH]; intros g Hbase; simpl; [done |].
  unfold pushedNodes at 1, pushedAt at 1. rewrite (Hbase 0%nat s eq_refl). f_equal.
  apply (IH (fun j => g (S j))). intros j s' Hj. by apply (Hbase (S j)).
Qed.

(** The whole result of a load of a document with unique site ids. *)
Lemma layoutDocument_unique_ids (networkConfig : NetworkConfig) (allSites : list Site.t) :
  sites networkConfig = Some allSites ->
  forallb site_complete allSites = true ->
  NoDup (List.map Site.id allSites) ->
  layoutDocument (Some networkConfig)
  = Ok (rev (imap backgroundAt allSites) ++ concat (imap pushedAt allSites),
        flat_map (siteEdges allSites) allSites).
Proof.
  intros Hsites Hc Hids. pose proof (NoDup_siteKeys _ Hc Hids) as Hnd.
  destruct (layoutDocument_spec _ _ Hsites Hc) as (P & boxes & Hrun & Hlen & _ & Hpos).
  specialize (Hpos Hnd). rewrite Hrun.
  assert (zip_with (siteBackground P) allSites boxes = imap backgroundAt allSites) as ->.
  { apply list_eq. intros j. rewrite lookup_zip_with, list_lookup_imap.
    destruct (allSites !! j) as [s|] eqn:Hj; simpl; [| done].
    destruct (Hpos j s Hj) as [Hp Hb]. rewrite Hb. simpl.
    unfold siteBackground, backgroundAt, basePosition, siteBox.
    by rewrite Hp, growDims_base. }
  rewrite (pushed_nodes_by_index P allSites (fun j => j)); [done |].
  intros j s Hj. destruct (Hpos j s Hj) as [Hp _]. unfold basePosition. by rewrite Hp.
Qed.

Lemma length_deviceNodes (base : Z * Z) (devs : list Device.t) (i : nat) :
  length (deviceNodes base devs i) = length devs.
Proof. rewrite <- (length_map Node.id), deviceNodes_ids. apply length_map. Qed.

Lemma length_pushed (P : gmap jsstring (Z * Z)) (l : list Site.t) :
  length (flat_map (pushedNodes P) l)
  = (length (allDevices l) + length l)%nat.
Proof.
  unfold allDevices. induction l as [|s l IH]; simpl; [done |].
  unfold pushedNodes at 1.
  rewrite !length_app, IH, length_deviceNodes. simpl. lia.
Qed.

Lemma pushed_not_backgrounds (P : gmap jsstring (Z * Z)) (l : list Site.t) :
  Forall (fun n => is_background n = false) (flat_map (pushedNodes P) l).
Proof.
  induction l as [|s l IH]; simpl; [done |].
  apply Forall_app. split; [| done]. unfold pushedNodes.
  apply Forall_app. split; [| by repeat constructor].
  eapply Forall_impl; [apply deviceNodes_are_devices |].
  intros n Hn. unfold is_background. by rewrite Hn.
Qed.

(** X1. A load returns one background per site, one node per device and one
    header per site, and nothing else; all the backgrounds stand before all
    the other nodes of the array, whatever the number of sites. *)
Theorem backgrounds_come_first (networkConfig : NetworkConfig) (allSites : list Site.t) :
  sites networkConfig = Some allSites ->
  forallb site_complete allSites = true ->
  exists ns es,
    layoutDocument (Some networkConfig) = Ok (ns, es)
    /\ length ns = (length (allDevices allSites) + 2 * length allSites)%nat
    /\ length (List.filter is_device_node ns) = length (allDevices allSites)
    /\ Forall (fun n => is_background n = true) (take (length allSites) ns)
    /\ Forall (fun n => is_background n = false) (drop (length allSites) ns).
Proof.
  intros Hsites Hc.
  destruct (layoutDocument_spec _ _ Hsites Hc) as (P & boxes & Hrun & Hlen & _).
  eexists _, _. split; [exact Hrun |].
  assert (Hbg : length (rev (zip_with (siteBackground P) allSites boxes)) = length allSites).
  { rewrite length_rev, length_zip_with. lia. }
  split; [| split; [| split]].
  - rewrite length_app, Hbg, length_pushed. lia.
  - rewrite layout_device_nodes. unfold allDevices.
    clear. induction allSites as [|s l IH]; simpl; [done |].
    by rewrite !length_app, IH, length_deviceNodes.
  - rewrite <- Hbg at 1. rewrite take_app_length.
    apply Forall_rev. eapply Forall_impl; [apply backgrounds_are_groups |].
    intros n Hn. unfold is_background. by rewrite Hn.
  - rewrite <- Hbg at 1. rewrite drop_app_length. apply pushed_not_backgrounds.
Qed.

Lemma backgrounds_come_first_witness :
  exists ns es,
    layoutDocument (Some twoSites) = Ok (ns, es) /\ length ns = 7%nat.
Proof.
  destruct (backgrounds_come_first twoSites [hqSite; branchSite] eq_refl eq_refl)
    as (ns & es & Hrun & Hlen & _).
  exists ns, es. split; [exact Hrun | exact Hlen].
Defined.

(** *** The size of a site box *)

Lemma growDims_snoc (base : Z * Z) (n : nat) :
  forall dim i,
    growDims base dim (S n) i = growDim base (growDims base dim n i) (i + n).
Proof.
  induction n as [|n IH]; intros dim i.
  - simpl. by rewrite Nat.add_0_r.
  - change (growDims base dim (S (S n)) i)
      with (growDims base (growDim base dim i) (S n) (S i)).
    rewrite IH. simpl. do 2 f_equal. lia.
Qed.

Lemma growDims_fresh (n c : nat) :
  growDims (0, 0) (mkDim 0 0 c) n 0
  = mkDim (match n with O => 0 | S O => 300 | S (S O) => 550 | _ => 800 end)
          (250 * ((Z.of_nat n + 2) / 3)) c.
Proof.
  induction n as [|n IH]; [done |].
  rewrite growDims_snoc, IH. simpl (0 + n)%nat.
  unfold growDim, devicePosition, maxDevicesPerRow, deviceSpacing.
  cbn [width height deviceCount fst snd].
  f_equal.
  - destruct n as [|[|[|n]]]; [done | done | done |].
    pose proof (Z.mod_pos_bound (Z.of_nat (S (S (S n)))) 3). lia.
  - pose proof (Z.div_mod (Z.of_nat n) 3).
    pose proof (Z.mod_pos_bound (Z.of_nat n) 3).
    pose proof (Z.div_mod (Z.of_nat n + 2) 3).
    pose proof (Z.mod_pos_bound (Z.of_nat n + 2) 3).
    pose proof (Z.div_mod (Z.of_nat (S n) + 2) 3).
    pose proof (Z.mod_pos_bound (Z.of_nat (S n) + 2) 3).
    lia.
Qed.

Lemma siteBox_table (n : nat) : siteBox n = mkDim (boxWidth n) (boxHeight n) n.
Proof.
  unfold siteBox. rewrite growDims_fresh.
  unfold paddedBox, deviceSpacing, maxDevicesPerRow, boxWidth, boxHeight.
  cbn [width height deviceCount].
  replace (Z.of_nat n + 3 - 1) with (Z.of_nat n + 2) by lia.
  f_equal.
  - destruct n as [|[|[|n]]]; lia.
  - destruct n as [|n]; [done |].
    pose proof (Z.div_mod (Z.of_nat (S n) + 2) 3).
    pose proof (Z.mod_pos_bound (Z.of_nat (S n) + 2) 3). lia.
Qed.

(** X2. With unique site ids the background of the site at ordinal position
    [j] starts at [(1100 * j - 50, -50)], and its size depends on the number
    [n] of devices of the site alone: 600 wide for at most one device, 750
    for two, 1000 for three or more; 450 high for an empty site and
    [250 * ceil(n / 3) + 300] otherwise. *)
Theorem site_box_sizes (networkConfig : NetworkConfig) (allSites : list Site.t) :
  sites networkConfig = Some allSites ->
  forallb site_complete allSites = true ->
  NoDup (List.map Site.id allSites) ->
  exists ns es,
    layoutDocument (Some networkConfig) = Ok (ns, es)
    /\ List.map boxOf (List.filter is_background ns)
       = rev (imap (fun j s =>
                      let n := length (siteDevices s) in
                      (Z.of_nat j * siteSpacing - 50, -50, boxWidth n, boxHeight n + 100))
                   allSites).
Proof.
  intros Hsites Hc Hids.
  eexists _, _. split; [by apply layoutDocument_unique_ids |].
  rewrite List.filter_app, filter_rev, filter_all.
  - rewrite (filter_none is_background (concat _)), app_nil_r.
    + rewrite List.map_rev. f_equal.
      apply list_eq. intros j. rewrite list_lookup_fmap, !list_lookup_imap.
      destruct (allSites !! j) as [s|]; simpl; [| done].
      unfold boxOf, backgroundAt, backgroundNode. cbn [Node.style Node.position fst snd].
      rewrite siteBox_table. cbn [width height]. do 2 f_equal; try (f_equal; lia).
    + apply Forall_concat, Forall_forall. intros l Hl.
      apply list_elem_of_lookup in Hl as [j Hj]. rewrite list_lookup_imap in Hj.
      destruct (allSites !! j) as [s|]; simplify_eq/=.
      unfold pushedAt. apply Forall_app. split; [| by repeat constructor].
      eapply Forall_impl; [apply deviceNodes_are_devices |].
      intros n Hn. unfold is_background. by rewrite Hn.
  - apply Forall_forall. intros n Hn.
    apply list_elem_of_lookup in Hn as [j Hj]. rewrite list_lookup_imap in Hj.
    by destruct (allSites !! j) as [s|]; simplify_eq/=.
Qed.

Lemma site_box_sizes_witness :
  exists ns es,
    layoutDocument (Some twoSites) = Ok (ns, es)
    /\ List.map boxOf (List.filter is_background ns)
       = [(1050, -50, 600, 550); (-50, -50, 750, 550)].
Proof.
  destruct (site_box_sizes twoSites [hqSite; branchSite] eq_refl eq_refl)
    as (ns & es & Hrun & Hboxes).
  - refine (bool_decide_unpack _ _). vm_compute. exact I.
  - exists ns, es. split; [exact Hrun | exact Hboxes].
Defined.

Lemma in_rev_imap {A B : Type} (f : nat -> A -> B) (l : list A) (j : nat) (a : A) :
  l !! j = Some a -> In (f j a) (rev (imap f l)).
Proof.
  intros Hj. apply in_rev. rewrite rev_involutive.
  apply list_elem_of_In. eapply list_elem_of_lookup_2.
  rewrite list_lookup_imap, Hj. reflexivity.
Qed.

Lemma in_concat_imap {A B : Type} (f : nat -> A -> list B) (l : list A) (j : nat)
    (a : A) (b : B) :
  l !! j = Some a -> In b (f j a) -> In b (concat (imap f l)).
Proof.
  intros Hj Hb. apply in_concat. exists (f j a). split; [| done].
  apply list_elem_of_In. eapply list_elem_of_lookup_2.
  rewrite list_lookup_imap, Hj. reflexivity.
Qed.

(** X3. With unique site ids every device node lies inside the background
    box of its own site: taking a node to be 150 by 150, as the loader does
    when it sizes the box, the node's footprint is within the rectangle of
    the site's background, for any number of devices. *)
Theorem devices_inside_site_box (networkConfig : NetworkConfig) (allSites : list Site.t) :
  sites networkConfig = Some allSites ->
  forallb site_complete allSites = true ->
  NoDup (List.map Site.id allSites) ->
  exists ns es,
    layoutDocument (Some networkConfig) = Ok (ns, es)
    /\ forall j s i d,
         allSites !! j = Some s ->
         siteDevices s !! i = Some d ->
         let p := devicePosition (Z.of_nat j * siteSpacing, 100) i in
         In (backgroundAt j s) ns
         /\ In (deviceNode d p) ns
         /\ footprint_inside p (boxOf (backgroundAt j s)).
Proof.
  intros Hsites Hc Hids.
  eexists _, _. split; [by apply layoutDocument_unique_ids |].
  intros j s i d Hj Hi p. split; [| split].
  - apply in_or_app. left. by apply in_rev_imap.
  - apply in_or_app. right. eapply in_concat_imap; [exact Hj |].
    unfold pushedAt. apply in_or_app. left.
    apply list_elem_of_In. eapply list_elem_of_lookup_2. by apply deviceNodes_lookup.
  - unfold boxOf, backgroundAt, backgroundNode. cbn [Node.style Node.position fst snd].
    rewrite siteBox_table. cbn [width height].
    apply lookup_lt_Some in Hi.
    subst p. unfold footprint_inside, devicePosition, nodeExtent, boxWidth, boxHeight,
      maxDevicesPerRow, deviceSpacing, siteSpacing.
    cbn [fst snd].
    pose proof (Z.div_mod (Z.of_nat i) 3).
    pose proof (Z.mod_pos_bound (Z.of_nat i) 3).
    set (n := length (siteDevices s)) in *.
    pose proof (Z.div_mod (Z.of_nat n + 2) 3).
    pose proof (Z.mod_pos_bound (Z.of_nat n + 2) 3).
    destruct n as [|[|[|n]]]; [lia | | |].
    all: repeat split; try lia.
Qed.

Lemma devices_inside_site_box_witness :
  exists ns es,
    layoutDocument (Some twoSites) = Ok (ns, es)
    /\ footprint_inside (400, 200) (boxOf (backgroundAt 0 hqSite)).
Proof.
  destruct (devices_inside_site_box twoSites [hqSite; branchSite] eq_refl eq_refl)
    as (ns & es & Hrun & Hin).
  - refine (bool_decide_unpack _ _). vm_compute. exact I.
  - exists ns, es. split; [exact Hrun |].
    exact (proj2 (proj2 (Hin 0%nat hqSite 1%nat (sampleDevice "sw1" "switch" None None)
                             eq_refl eq_refl))).
Defined.

(** *** Where edges start and end *)

Lemma in_emitted_singletons {A B : Type} (g : A -> nat -> B) (l : list A) (k : nat) (b : B) :
  In b (emitted_from (fun a i => [g a i]) l k) ->
  exists a i, In a l /\ (k <= i)%nat /\ b = g a i.
Proof.
  revert k; induction l as [|a l IH]; intros k; simpl; [done |].
  intros [<- | Hin].
  - exists a, k. repeat split; [by left | lia].
  - destruct (IH _ Hin) as (a' & i & Ha & Hi & ->).
    exists a', i. repeat split; [by right | lia].
Qed.

Lemma in_emitted_from {A B : Type} (g : A -> nat -> list B) (l : list A) (k : nat) (b : B) :
  In b (emitted_from g l k) ->
  exists a i, In a l /\ (k <= i)%nat /\ In b (g a i).
Proof.
  revert k; induction l as [|a l IH]; intros k; simpl; [done |].
  intros Hin. apply in_app_or in Hin as [Hin | Hin].
  - exists a, k. repeat split; [by left | lia | done].
  - destruct (IH _ Hin) as (a' & i & Ha & Hi & Hb).
    exists a', i. repeat split; [by right | lia | done].
Qed.

(** What one edge of a device looks like. *)
Lemma in_deviceEdges (allSites : list Site.t) (site : Site.t) (device : Device.t)
    (e : Edge.t) :
  In e (deviceEdges allSites site device) ->
  (exists c i, e = connectionEdgeOf device c i)
  \/ (exists c i, e = trunkEdgeOf device c i)
  \/ (exists c i, e = sanEdgeOf device c i)
  \/ (exists ts r vc i,
        List.find (named (VpnConnection.to_site vc)) allSites = Some ts
        /\ List.find is_router (siteDevices ts) = Some r
        /\ e = vpnEdgeOf site device ts r vc i).
Proof.
  unfold deviceEdges. rewrite !in_app_iff. intros [H | [H | [H | H]]].
  - left. apply in_emitted_singletons in H as (c & i & _ & _ & ->). eauto.
  - right. right. right. apply in_emitted_from in H as (vc & i & _ & _ & H).
    unfold vpnEntryEdges in H. fold (named (VpnConnection.to_site vc)) in H.
    fold is_router in H.
    destruct (List.find _ allSites) as [ts|] eqn:Hts; [| done].
    destruct (List.find _ (siteDevices ts)) as [r|] eqn:Hr; [| done].
    destruct H as [<- | []]. by exists ts, r, vc, i.
  - right. left. apply in_emitted_singletons in H as (c & i & _ & _ & ->). eauto.
  - right. right. left. apply in_emitted_singletons in H as (c & i & _ & _ & ->). eauto.
Qed.

(** X4. Every edge a load returns starts at a device of the document, and
    every VPN edge ends at a device of type [router] that exists in the
    document: a VPN edge never dangles, unlike the other three kinds. *)
Theorem vpn_edges_never_dangle (networkConfig : NetworkConfig) (allSites : list Site.t) :
  sites networkConfig = Some allSites ->
  forallb site_complete allSites = true ->
  exists ns es,
    layoutDocument (Some networkConfig) = Ok (ns, es)
    /\ forall e, In e es ->
         (exists device, In device (allDevices allSites)
                         /\ Edge.source e = Device.id device)
         /\ (Edge.type e = vpnEdge ->
             exists router, In router (allDevices allSites)
                            /\ Device.type router = Some (js "router")
                            /\ Edge.target e = Device.id router).
Proof.
  intros Hsites Hc.
  destruct (layoutDocument_spec _ _ Hsites Hc) as (P & boxes & Hrun & _).
  eexists _, _. split; [exact Hrun |].
  intros e He. apply in_flat_map in He as (site & Hsite & He).
  unfold siteEdges in He. apply in_flat_map in He as (device & Hdevice & He).
  assert (In device (allDevices allSites)) as Hdev
    by (apply in_flat_map; by exists site).
  apply in_deviceEdges in He
    as [(c & i & ->) | [(c & i & ->) | [(c & i & ->) | (ts & r & vc & i & Hts & Hr & ->)]]].
  1-3: split; [by exists device | done].
  split; [by exists device |]. intros _. exists r.
  apply find_some in Hts as [Hts _]. apply find_some in Hr as [Hr Hrouter].
  split; [apply in_flat_map; by exists ts |].
  split; [| done]. unfold is_router in Hrouter. by apply bool_decide_eq_true in Hrouter.
Qed.

Lemma vpn_edges_never_dangle_witness :
  exists ns es,
    layoutDocument (Some twoSites) = Ok (ns, es)
    /\ forall e, In e es -> Edge.type e = vpnEdge ->
         exists router, In router (allDevices [hqSite; branchSite])
                        /\ Edge.target e = Device.id router.
Proof.
  destruct (vpn_edges_never_dangle twoSites [hqSite; branchSite] eq_refl eq_refl)
    as (ns & es & Hrun & Hall).
  exists ns, es. split; [exact Hrun |].
  intros e He Hvpn. destruct (Hall e He) as [_ Hrouter].
  destruct (Hrouter Hvpn) as (router & Hin & _ & Htarget).
  exists router. split; [exact Hin | exact Htarget].
Defined.

(** The entry an edge of a device was built from. *)
Lemma in_deviceEdges_entry (allSites : list Site.t) (site : Site.t) (device : Device.t)
    (e : Edge.t) :
  In e (deviceEdges allSites site device) ->
  (exists c i, In c (default [] (Device.connections device))
               /\ e = connectionEdgeOf device c i)
  \/ (exists c i, In c (default [] (Device.trunk_connections device))
                  /\ e = trunkEdgeOf device c i)
  \/ (exists c i, In c (default [] (Device.san_connections device))
                  /\ e = sanEdgeOf device c i)
  \/ (exists ts r vc i, In vc (default [] (Device.vpn_connections device))
                        /\ e = vpnEdgeOf site device ts r vc i).
Proof.
  unfold deviceEdges. rewrite !in_app_iff. intros [H | [H | [H | H]]].
  - left. apply in_emitted_singletons in H as (c & i & Hc & _ & ->). eauto.
  - right. right. right. apply in_emitted_from in H as (vc & i & Hvc & _ & H).
    unfold vpnEntryEdges in H.
    destruct (List.find _ allSites) as [ts|]; [| done].
    destruct (List.find _ (siteDevices ts)) as [r|]; [| done].
    destruct H as [<- | []]. by exists ts, r, vc, i.
  - right. left. apply in_emitted_singletons in H as (c & i & Hc & _ & ->). eauto.
  - right. right. left. apply in_emitted_singletons in H as (c & i & Hc & _ & ->). eauto.
Qed.

(** X5. The label of every edge of a load is read off the entry the edge
    was built from: an entry of the edge's source device, of the list of the
    edge's kind, and for a connection, trunk or SAN edge the entry that
    names the edge's target. An edge of a plain connection has the entry's
    label, which may be missing. A VPN, trunk or SAN edge has the entry's
    label when that is a non-empty text, and else the default of its kind,
    [VPN], [Trunk] or [SAN]; so its label is never empty. *)
Theorem special_edges_are_labelled (networkConfig : NetworkConfig) (allSites : list Site.t) :
  sites networkConfig = Some allSites ->
  forallb site_complete allSites = true ->
  exists ns es,
    layoutDocument (Some networkConfig) = Ok (ns, es)
    /\ forall e, In e es ->
         (exists device,
             In device (allDevices allSites)
             /\ Edge.source e = Device.id device
             /\ match Edge.type e with
                | connectionEdge =>
                    exists c, In c (default [] (Device.connections device))
                              /\ Edge.target e = Some (Connection.to c)
                              /\ Edge.label e = Connection.label c
                | vpnEdge =>
                    exists vc, In vc (default [] (Device.vpn_connections device))
                               /\ Edge.label e
                                  = Some (match VpnConnection.label vc with
                                          | Some (ch :: text) => ch :: text
                                          | _ => js "VPN"
                                          end)
                | trunkEdge =>
                    exists c, In c (default [] (Device.trunk_connections device))
                              /\ Edge.target e = Some (Connection.to c)
                              /\ Edge.label e
                                 = Some (match Connection.label c with
                                         | Some (ch :: text) => ch :: text
                                         | _ => js "Trunk"
                                         end)
                | sanEdge =>
                    exists c, In c (default [] (Device.san_connections device))
                              /\ Edge.target e = Some (Connection.to c)
                              /\ Edge.label e
                                 = Some (match Connection.label c with
                                         | Some (ch :: text) => ch :: text
                                         | _ => js "SAN"
                                         end)
                end)
         /\ (Edge.type e <> connectionEdge ->
             exists ch text, Edge.label e = Some (ch :: text)).
Proof.
  intros Hsites Hc.
  destruct (layoutDocument_spec _ _ Hsites Hc) as (P & boxes & Hrun & _).
  eexists _, _. split; [exact Hrun |].
  intros e He. apply in_flat_map in He as (site & Hsite & He).
  unfold siteEdges in He. apply in_flat_map in He as (device & Hdevice & He).
  assert (In device (allDevices allSites)) as Hdev
    by (apply in_flat_map; by exists site).
  apply in_deviceEdges_entry in He
    as [(c & i & Hin & ->) | [(c & i & Hin & ->) | [(c & i & Hin & ->)
        | (ts & r & vc & i & Hin & ->)]]].
  - split; [| done]. exists device. split; [done |]. split; [done |]. by exists c.
  - split.
    + exists device. split; [done |]. split; [done |].
      exists c. split; [done |]. split; reflexivity.
    + intros _. cbn [trunkEdgeOf Edge.label].
      destruct (Connection.label c) as [[|a text]|]; simpl; eauto.
  - split.
    + exists device. split; [done |]. split; [done |].
      exists c. split; [done |]. split; reflexivity.
    + intros _. cbn [sanEdgeOf Edge.label].
      destruct (Connection.label c) as [[|a text]|]; simpl; eauto.
  - split.
    + exists device. split; [done |]. split; [done |].
      exists vc. split; [done |]. reflexivity.
    + intros _. unfold vpnEdgeOf. cbn [Edge.label].
      destruct (VpnConnection.label vc) as [[|a text]|]; simpl; eauto.
Qed.

Lemma special_edges_are_labelled_witness :
  exists ns es,
    layoutDocument (Some twoSites) = Ok (ns, es)
    /\ List.map Edge.label es = [None; Some (js "VPN")].
Proof.
  destruct (special_edges_are_labelled twoSites [hqSite; branchSite] eq_refl eq_refl)
    as (ns & es & Hrun & _).
  exists ns, es. split; [exact Hrun |].
  assert (Ok (ns, es) = layoutDocument (Some twoSites)) as Heq by (symmetry; exact Hrun).
  vm_compute in Heq. injection Heq as _ ->. reflexivity.
Defined.

(** ** Edge identifiers *)

Lemma uint_digits (d : Decimal.uint) :
  Forall (fun c => (48 <= c <= 57)%N) (js (NilEmpty.string_of_uint d)).
Proof.
  unfold js. induction d; simpl; constructor; try done; simpl; lia.
Qed.

Lemma js_of_nat_digits (n : nat) : Forall (fun c => (48 <= c <= 57)%N) (js_of_nat n).
Proof.
  unfold js_of_nat, NilZero.string_of_uint.
  destruct (Nat.to_uint n); try apply uint_digits.
  repeat constructor; simpl; lia.
Qed.

Lemma js_of_nat_no_dash (n : nat) : ~ In dash (js_of_nat n).
Proof.
  intros Hin. pose proof (js_of_nat_digits n) as Hd.
  rewrite List.Forall_forall in Hd. specialize (Hd _ Hin). unfold dash in Hd. lia.
Qed.

Lemma js_inj (s t : string) : js s = js t -> s = t.
Proof.
  unfold js. revert t; induction s as [|a s IH]; intros [|b t]; simpl; try done.
  intros [= Hab Hst]. f_equal; [| by apply IH].
  rewrite <- (ascii_N_embedding a), <- (ascii_N_embedding b). by rewrite Hab.
Qed.

Lemma js_of_nat_inj (n m : nat) : js_of_nat n = js_of_nat m -> n = m.
Proof.
  unfold js_of_nat. intros H. apply js_inj in H.
  assert (forall k, option_map Nat.of_uint
                      (NilZero.uint_of_string (NilZero.string_of_uint (Nat.to_uint k)))
                    = Some k) as Hdec.
  { intros k. destruct (Nat.to_uint k) eqn:Hk.
    - simpl. f_equal. rewrite <- (DecimalNat.Unsigned.of_to k), Hk. reflexivity.
    - rewrite NilZero.usu by done. simpl. by rewrite <- Hk, DecimalNat.Unsigned.of_to.
    - rewrite NilZero.usu by done. simpl. by rewrite <- Hk, DecimalNat.Unsigned.of_to.
    - rewrite NilZero.usu by done. simpl. by rewrite <- Hk, DecimalNat.Unsigned.of_to.
    - rewrite NilZero.usu by done. simpl. by rewrite <- Hk, DecimalNat.Unsigned.of_to.
    - rewrite NilZero.usu by done. simpl. by rewrite <- Hk, DecimalNat.Unsigned.of_to.
    - rewrite NilZero.usu by done. simpl. by rewrite <- Hk, DecimalNat.Unsigned.of_to.
    - rewrite NilZero.usu by done. simpl. by rewrite <- Hk, DecimalNat.Unsigned.of_to.
    - rewrite NilZero.usu by done. simpl. by rewrite <- Hk, DecimalNat.Unsigned.of_to.
    - rewrite NilZero.usu by done. simpl. by rewrite <- Hk, DecimalNat.Unsigned.of_to.
    - rewrite NilZero.usu by done. simpl. by rewrite <- Hk, DecimalNat.Unsigned.of_to. }
  pose proof (Hdec n) as Hn. rewrite H, Hdec in Hn. congruence.
Qed.

(** A text is cut in one way only at its last dash. *)
Lemma split_at_last_dash (t1 t2 d1 d2 : jsstring) :
  ~ In dash d1 -> ~ In dash d2 ->
  t1 ++ dash :: d1 = t2 ++ dash :: d2 -> t1 = t2 /\ d1 = d2.
Proof.
  intros H1 H2. revert t2; induction t1 as [|a t1 IH]; intros [|b t2]; simpl.
  - by intros [= ->].
  - intros [= <- ->]. exfalso. apply H1, in_or_app. right. by left.
  - intros [= -> <-]. exfalso. apply H2, in_or_app. right. by left.
  - intros [= <- Heq]. destruct (IH _ Heq) as [-> ->]. done.
Qed.

(** A text is cut in one way only at its first dash. *)
Lemma split_at_first_dash (t1 t2 r1 r2 : jsstring) :
  ~ In dash t1 -> ~ In dash t2 ->
  t1 ++ dash :: r1 = t2 ++ dash :: r2 -> t1 = t2 /\ r1 = r2.
Proof.
  revert t2; induction t1 as [|a t1 IH]; intros [|b t2] H1 H2; simpl.
  - by intros [= ->].
  - intros [= <- _]. exfalso. apply H2. by left.
  - intros [= -> _]. exfalso. apply H1. by left.
  - intros [= <- Heq].
    destruct (IH t2) as [-> ->]; [| | done | done].
    + intros Hin. apply H1. by right.
    + intros Hin. apply H2. by right.
Qed.

Lemma id_tail_inj (t1 t2 : jsstring) (i j : nat) :
  t1 ++ js "-" ++ js_of_nat i = t2 ++ js "-" ++ js_of_nat j -> t1 = t2 /\ i = j.
Proof.
  change (js "-") with [dash]. simpl. intros H.
  apply split_at_last_dash in H as [-> H]; try apply js_of_nat_no_dash.
  split; [done | by apply js_of_nat_inj].
Qed.

(** Two edges of one device with the same id have the same type and index. *)
Lemma same_id_same_key (allSites : list Site.t) (site : Site.t) (device : Device.t)
    (e1 e2 : Edge.t) :
  In e1 (deviceEdges allSites site device) ->
  In e2 (deviceEdges allSites site device) ->
  Edge.id e1 = Edge.id e2 -> edgeKey e1 = edgeKey e2.
Proof.
  intros H1 H2.
  apply in_deviceEdges in H1
    as [(c1 & i1 & ->) | [(c1 & i1 & ->) | [(c1 & i1 & ->) | (ts1 & r1 & v1 & i1 & _ & _ & ->)]]];
  apply in_deviceEdges in H2
    as [(c2 & i2 & ->) | [(c2 & i2 & ->) | [(c2 & i2 & ->) | (ts2 & r2 & v2 & i2 & _ & _ & ->)]]];
  unfold connectionEdgeOf, trunkEdgeOf, sanEdgeOf, vpnEdgeOf, edgeKey, edgeIndex;
  cbn [Edge.id Edge.type Edge.data]; intros Hid; try discriminate Hid.
  all: apply app_inv_head in Hid; apply app_inv_head in Hid;
    apply app_inv_head in Hid; apply id_tail_inj in Hid as [_ ->]; reflexivity.
Qed.

Lemma NoDup_map_finer {A B C : Type} (f : A -> B) (g : A -> C) (l : list A) :
  (forall a b, In a l -> In b l -> f a = f b -> g a = g b) ->
  NoDup (List.map g l) -> NoDup (List.map f l).
Proof.
  induction l as [|a l IH]; simpl; intros Hfg Hnd; [apply NoDup_nil_2 |].
  apply NoDup_cons in Hnd as [Ha Hnd]. apply NoDup_cons. split.
  - intros Hin. apply Ha.
    apply list_elem_of_In, in_map_iff in Hin as (b & Hfb & Hb).
    apply list_elem_of_In, in_map_iff. exists b. split; [| done].
    apply Hfg; [by right | by left | done].
  - apply IH; [| done]. intros x y Hx Hy. apply Hfg; by right.
Qed.

Lemma NoDup_map_app {A B : Type} (f : A -> B) (l1 l2 : list A) :
  NoDup (List.map f l1) -> NoDup (List.map f l2) ->
  (forall a b, In a l1 -> In b l2 -> f a <> f b) ->
  NoDup (List.map f (l1 ++ l2)).
Proof.
  intros H1 H2 Hdis. rewrite List.map_app. apply NoDup_app. split; [done |].
  split; [| done]. intros x Hx1 Hx2.
  apply list_elem_of_In, in_map_iff in Hx1 as (a & <- & Ha).
  apply list_elem_of_In, in_map_iff in Hx2 as (b & Hb & Hb').
  by apply (Hdis a b).
Qed.

Lemma emitted_indices_NoDup {A : Type} (g : A -> nat -> list Edge.t) (l : list A) :
  (forall a i e, In e (g a i) -> edgeIndex e = i) ->
  (forall a i, (length (g a i) <= 1)%nat) ->
  forall k, NoDup (List.map edgeIndex (emitted_from g l k)).
Proof.
  intros Hidx Hlen. induction l as [|a l IH]; intros k; simpl; [apply NoDup_nil_2 |].
  apply NoDup_map_app; [| apply IH |].
  - specialize (Hlen a k). destruct (g a k) as [|e [|e' rest]]; simpl in *; [| | lia].
    + apply NoDup_nil_2.
    + apply NoDup_singleton.
  - intros e e' He He'. rewrite (Hidx _ _ _ He).
    apply in_emitted_from in He' as (a' & i & _ & Hi & He').
    rewrite (Hidx _ _ _ He'). lia.
Qed.

Lemma kind_keys_NoDup {A : Type} (g : A -> nat -> list Edge.t) (l : list A) :
  (forall a i e, In e (g a i) -> edgeIndex e = i) ->
  (forall a i, (length (g a i) <= 1)%nat) ->
  NoDup (List.map edgeKey (emitted_from g l 0)).
Proof.
  intros Hidx Hlen. apply (NoDup_map_finer edgeKey edgeIndex).
  - intros a b _ _ Hkey. unfold edgeKey in Hkey. congruence.
  - by apply emitted_indices_NoDup.
Qed.

Lemma vpnEntryEdges_index (allSites : list Site.t) (site : Site.t) (device : Device.t)
    (vc : VpnConnection.t) (i : nat) (e : Edge.t) :
  In e (vpnEntryEdges allSites site device vc i) ->
  edgeIndex e = i /\ Edge.type e = vpnEdge.
Proof.
  unfold vpnEntryEdges.
  destruct (List.find _ allSites) as [ts|]; [| done].
  destruct (List.find _ (siteDevices ts)) as [r|]; [| done].
  by intros [<- | []].
Qed.

Lemma deviceEdges_keys_NoDup (allSites : list Site.t) (site : Site.t) (device : Device.t) :
  NoDup (List.map edgeKey (deviceEdges allSites site device)).
Proof.
  assert (forall (f : Connection.t -> nat -> Edge.t) l t,
            (forall c i, edgeKey (f c i) = (t, i)) ->
            NoDup (List.map edgeKey (emitted_from (fun c i => [f c i]) l 0))
            /\ forall e, In e (emitted_from (fun c i => [f c i]) l 0) -> Edge.type e = t)
    as Hkind.
  { intros f l t Hf. split.
    - apply kind_keys_NoDup; [| simpl; lia].
      intros c i e [<- | []]. specialize (Hf c i). unfold edgeKey in Hf. congruence.
    - intros e He. apply in_emitted_singletons in He as (c & i & _ & _ & ->).
      specialize (Hf c i). unfold edgeKey in Hf. congruence. }
  destruct (Hkind (connectionEdgeOf device) (default [] (Device.connections device))
              connectionEdge ltac:(done)) as [Hc Hct].
  destruct (Hkind (trunkEdgeOf device) (default [] (Device.trunk_connections device))
              trunkEdge ltac:(done)) as [Ht Htt].
  destruct (Hkind (sanEdgeOf device) (default [] (Device.san_connections device))
              sanEdge ltac:(done)) as [Hs Hst].
  assert (NoDup (List.map edgeKey (vpnEdges allSites site device))) as Hv.
  { apply kind_keys_NoDup.
    - intros vc i e He. by apply vpnEntryEdges_index in He as [? _].
    - intros vc i. rewrite vpnEntryEdges_length. destruct (vpn_resolves _ _); lia. }
  assert (forall e, In e (vpnEdges allSites site device) -> Edge.type e = vpnEdge) as Hvt.
  { intros e He. apply in_emitted_from in He as (vc & i & _ & _ & He).
    by apply vpnEntryEdges_index in He as [_ ?]. }
  unfold deviceEdges.
  apply NoDup_map_app; [done | |].
  - apply NoDup_map_app; [done | |].
    + apply NoDup_map_app; [done | done |].
      intros a b Ha Hb Hkey. unfold edgeKey in Hkey.
      rewrite (Htt a Ha), (Hst b Hb) in Hkey. discriminate.
    + intros a b Ha Hb Hkey. unfold edgeKey in Hkey. rewrite (Hvt a Ha) in Hkey.
      apply in_app_or in Hb as [Hb | Hb];
        [rewrite (Htt b Hb) in Hkey | rewrite (Hst b Hb) in Hkey]; discriminate.
  - intros a b Ha Hb Hkey. unfold edgeKey in Hkey. rewrite (Hct a Ha) in Hkey.
    apply in_app_or in Hb as [Hb | Hb]; [rewrite (Hvt b Hb) in Hkey; discriminate |].
    apply in_app_or in Hb as [Hb | Hb];
      [rewrite (Htt b Hb) in Hkey | rewrite (Hst b Hb) in Hkey]; discriminate.
Qed.

Lemma deviceEdges_ids_NoDup (allSites : list Site.t) (site : Site.t) (device : Device.t) :
  NoDup (List.map Edge.id (deviceEdges allSites site device)).
Proof.
  apply (NoDup_map_finer Edge.id edgeKey).
  - intros a b. apply same_id_same_key.
  - apply deviceEdges_keys_NoDup.
Qed.

(** X6. The edges a load returns for the connection entries of one device
    have pairwise different ids, whatever the device id and the targets are:
    the id ends in the entry's index, after the last dash, and begins with
    the name of the list the entry is in. *)
Theorem device_edge_ids_distinct (networkConfig : NetworkConfig) (allSites : list Site.t) :
  sites networkConfig = Some allSites ->
  forallb site_complete allSites = true ->
  exists ns es,
    layoutDocument (Some networkConfig) = Ok (ns, es)
    /\ es = flat_map (fun site => flat_map (deviceEdges allSites site) (siteDevices site))
                     allSites
    /\ forall site device,
         NoDup (List.map Edge.id (deviceEdges allSites site device)).
Proof.
  intros Hsites Hc.
  destruct (layoutDocument_spec _ _ Hsites Hc) as (P & boxes & Hrun & _).
  eexists _, _. split; [exact Hrun |]. split; [reflexivity |].
  intros site device. apply deviceEdges_ids_NoDup.
Qed.

Lemma device_edge_ids_distinct_witness :
  exists ns es,
    layoutDocument (Some twoSites) = Ok (ns, es)
    /\ NoDup (List.map Edge.id es).
Proof.
  destruct (device_edge_ids_distinct twoSites [hqSite; branchSite] eq_refl eq_refl)
    as (ns & es & Hrun & Hes & _).
  exists ns, es. split; [exact Hrun |]. rewrite Hes.
  refine (bool_decide_unpack _ _). vm_compute. exact I.
Defined.

Lemma plain_id_spec (d : Device.t) :
  plain_id d = true -> exists i, Device.id d = Some i /\ ~ In dash i.
Proof.
  unfold plain_id. destruct (Device.id d) as [i|]; [| done].
  intros H. exists i. split; [done |]. intros Hin.
  apply negb_true_iff in H. apply not_true_iff_false in H. apply H.
  apply existsb_exists. exists dash. split; [done | apply N.eqb_refl].
Qed.

(** Two edges of devices with plain ids that have the same id belong to
    devices of the same id. *)
Lemma same_id_same_device (allSites : list Site.t) (s1 s2 : Site.t) (d1 d2 : Device.t)
    (e1 e2 : Edge.t) :
  plain_id d1 = true -> plain_id d2 = true ->
  In e1 (deviceEdges allSites s1 d1) ->
  In e2 (deviceEdges allSites s2 d2) ->
  Edge.id e1 = Edge.id e2 -> Device.id d1 = Device.id d2.
Proof.
  intros Hp1 Hp2 H1 H2.
  destruct (plain_id_spec _ Hp1) as (i1 & Hi1 & Hd1).
  destruct (plain_id_spec _ Hp2) as (i2 & Hi2 & Hd2).
  apply in_deviceEdges in H1
    as [(c1 & k1 & ->) | [(c1 & k1 & ->) | [(c1 & k1 & ->) | (ts1 & r1 & v1 & k1 & _ & _ & ->)]]];
  apply in_deviceEdges in H2
    as [(c2 & k2 & ->) | [(c2 & k2 & ->) | [(c2 & k2 & ->) | (ts2 & r2 & v2 & k2 & _ & _ & ->)]]];
  unfold connectionEdgeOf, trunkEdgeOf, sanEdgeOf, vpnEdgeOf;
  cbn [Edge.id]; rewrite Hi1, Hi2; cbn [tpl]; intros Hid; try discriminate Hid.
  all: apply app_inv_head in Hid; change (js "-") with [dash] in Hid; simpl in Hid;
    apply split_at_first_dash in Hid as [-> _]; done.
Qed.

Lemma NoDup_flat_map_keys {A B K I : Type} (key : A -> K) (f : A -> list B)
    (ident : B -> I) (l : list A) :
  NoDup (List.map key l) ->
  (forall a, NoDup (List.map ident (f a))) ->
  (forall a b x y, In a l -> In b l -> In x (f a) -> In y (f b) ->
                   ident x = ident y -> key a = key b) ->
  NoDup (List.map ident (flat_map f l)).
Proof.
  induction l as [|a l IH]; simpl; intros Hnd Hf Hkey; [apply NoDup_nil_2 |].
  apply NoDup_cons in Hnd as [Ha Hnd].
  apply NoDup_map_app; [apply Hf | |].
  - apply IH; [done | done |]. intros x y u v Hx Hy. apply Hkey; by right.
  - intros x y Hx Hy Heq. apply in_flat_map in Hy as (b & Hb & Hy).
    apply Ha. rewrite (Hkey a b x y); [| by left | by right | done | done | done].
    apply list_elem_of_In, in_map, Hb.
Qed.

Lemma flat_map_sited {B : Type} (f : Site.t -> Device.t -> list B) (l : list Site.t) :
  flat_map (fun s => flat_map (f s) (siteDevices s)) l
  = flat_map (fun p => f p.1 p.2) (sitedDevices l).
Proof.
  unfold sitedDevices. induction l as [|s l IH]; simpl; [done |].
  rewrite flat_map_app, IH. f_equal.
  induction (siteDevices s) as [|d ds IHd]; simpl; [done | by rewrite IHd].
Qed.

Lemma sitedDevices_ids (l : list Site.t) :
  List.map (fun p => Device.id p.2) (sitedDevices l) = allDeviceIds l.
Proof.
  unfold sitedDevices, allDeviceIds. induction l as [|s l IH]; simpl; [done |].
  rewrite List.map_app, IH, List.map_map. reflexivity.
Qed.

Lemma sitedDevices_in (l : list Site.t) (p : Site.t * Device.t) :
  In p (sitedDevices l) -> In p.2 (allDevices l).
Proof.
  unfold sitedDevices, allDevices. intros H.
  apply in_flat_map in H as (s & Hs & Hp). apply in_map_iff in Hp as (d & <- & Hd).
  apply in_flat_map. by exists s.
Qed.

(** X7. When every device has an id without a dash and no two devices share
    an id, all the edges of a load have different ids, whatever the targets
    and labels are. *)
Theorem edge_ids_unique (networkConfig : NetworkConfig) (allSites : list Site.t) :
  sites networkConfig = Some allSites ->
  forallb site_complete allSites = true ->
  forallb plain_id (allDevices allSites) = true ->
  NoDup (allDeviceIds allSites) ->
  exists ns es,
    layoutDocument (Some networkConfig) = Ok (ns, es)
    /\ NoDup (List.map Edge.id es).
Proof.
  intros Hsites Hc Hplain Hnd.
  destruct (layoutDocument_spec _ _ Hsites Hc) as (P & boxes & Hrun & _).
  eexists _, _. split; [exact Hrun |].
  unfold siteEdges. rewrite flat_map_sited.
  apply (NoDup_flat_map_keys (fun p => Device.id p.2)).
  - by rewrite sitedDevices_ids.
  - intros [s d]. apply deviceEdges_ids_NoDup.
  - intros [s1 d1] [s2 d2] x y H1 H2 Hx Hy Hid. simpl in *.
    rewrite forallb_forall in Hplain.
    apply (same_id_same_device allSites s1 s2 d1 d2 x y); try done.
    + apply Hplain. by apply (sitedDevices_in _ (s1, d1)).
    + apply Hplain. by apply (sitedDevices_in _ (s2, d2)).
Qed.

Lemma edge_ids_unique_witness :
  exists ns es,
    layoutDocument (Some twoSites) = Ok (ns, es) /\ NoDup (List.map Edge.id es).
Proof.
  destruct (edge_ids_unique twoSites [hqSite; branchSite] eq_refl eq_refl eq_refl)
    as (ns & es & Hrun & Hnd).
  - refine (bool_decide_unpack _ _). vm_compute. exact I.
  - exists ns, es. split; [exact Hrun | exact Hnd].
Defined.

(** ** The stagger index of loader-built identifiers *)

Lemma N_mod3_cases (x : N) : exists q r, (x = 3 * q + r /\ r < 3 /\ x mod 3 = r)%N.
Proof.
  exists (x / 3)%N, (x mod 3)%N. split; [apply N.div_mod' |].
  split; [by apply N.mod_upper_bound | done].
Qed.

Lemma N_mod3_unique (x q r : N) : (x = 3 * q + r -> r < 3 -> x mod 3 = r)%N.
Proof.
  intros -> Hr. rewrite N.add_comm, N.mul_comm, N.Div0.mod_add. by apply N.mod_small.
Qed.

Lemma mod3_add_cancel (a x y : N) :
  ((a + x) mod 3 = (a + y) mod 3 <-> x mod 3 = y mod 3)%N.
Proof.
  destruct (N_mod3_cases (a + x)) as (q1 & r1 & H1 & Hr1 & ->).
  destruct (N_mod3_cases (a + y)) as (q2 & r2 & H2 & Hr2 & ->).
  destruct (N_mod3_cases x) as (q3 & r3 & H3 & Hr3 & ->).
  destruct (N_mod3_cases y) as (q4 & r4 & H4 & Hr4 & ->).
  lia.
Qed.

Lemma charCodeSum_app (a b : jsstring) :
  charCodeSum (a ++ b) = (charCodeSum a + charCodeSum b)%N.
Proof. induction a as [|c a IH]; simpl; [done | rewrite IH; lia]. Qed.

Lemma edgeNumber_app (a b : jsstring) :
  edgeNumber (a ++ b) = ((edgeNumber a + edgeNumber b) mod 3)%N.
Proof.
  unfold edgeNumber. rewrite !idSum_charCodeSum, charCodeSum_app.
  by rewrite N.Div0.add_mod.
Qed.

Lemma charCodeSum_Permutation (a b : jsstring) :
  Permutation a b -> charCodeSum a = charCodeSum b.
Proof. induction 1; simpl; lia. Qed.

(** A number and the sum of its decimal digits leave the same remainder
    modulo 3. *)
Lemma of_uint_acc_mod3 (d : Decimal.uint) :
  forall acc, (Nat.of_uint_acc d acc mod 3 = (acc + digitSum d) mod 3)%nat.
Proof.
  induction d as [|d IHd|d IHd|d IHd|d IHd|d IHd|d IHd|d IHd|d IHd|d IHd|d IHd];
    intros acc; cbn [Nat.of_uint_acc digitSum];
    rewrite ?IHd, ?Nat.tail_mul_spec; [by rewrite Nat.add_0_r | ..].
  all: match goal with
       | |- (?l mod 3 = ?r mod 3)%nat =>
           replace l with (r + acc * 3 * 3)%nat by lia
       end; by rewrite Nat.Div0.mod_add.
Qed.

Lemma digit_chars_mod3 (d : Decimal.uint) :
  (charCodeSum (js (NilEmpty.string_of_uint d)) mod 3 = N.of_nat (digitSum d) mod 3)%N.
Proof.
  unfold js.
  induction d as [|d IHd|d IHd|d IHd|d IHd|d IHd|d IHd|d IHd|d IHd|d IHd|d IHd];
    cbn [NilEmpty.string_of_uint digitSum list_ascii_of_string List.map charCodeSum];
    [done | ..].
  all: rewrite ?Nat2N.inj_add, N.Div0.add_mod, IHd.
  all: try rewrite (N.Div0.add_mod (N.of_nat _) (N.of_nat (digitSum d))).
  all: try (f_equal; f_equal; vm_compute; reflexivity).
  change (N_of_ascii "0" mod 3)%N with 0%N. by rewrite N.add_0_l, N.Div0.mod_mod.
Qed.

Lemma js_of_nat_mod3 (n : nat) :
  (charCodeSum (js_of_nat n) mod 3 = N.of_nat n mod 3)%N.
Proof.
  assert (Hn : (n mod 3 = digitSum (Nat.to_uint n) mod 3)%nat).
  { rewrite <- (DecimalNat.Unsigned.of_to n) at 1.
    unfold Nat.of_uint. by rewrite of_uint_acc_mod3. }
  assert (Hd : (N.of_nat n mod 3 = N.of_nat (digitSum (Nat.to_uint n)) mod 3)%N).
  { change 3%N with (N.of_nat 3). by rewrite <- !Nat2N.inj_mod, Hn. }
  rewrite Hd. unfold js_of_nat, NilZero.string_of_uint.
  destruct (Nat.to_uint n) eqn:E; try apply digit_chars_mod3. done.
Qed.

Lemma edgeNumber_index (prefix : jsstring) (i j : nat) :
  edgeNumber (prefix ++ js_of_nat i) = edgeNumber (prefix ++ js_of_nat j)
  <-> (i mod 3 = j mod 3)%nat.
Proof.
  unfold edgeNumber. rewrite !idSum_charCodeSum, !charCodeSum_app.
  rewrite mod3_add_cancel, !js_of_nat_mod3.
  change 3%N with (N.of_nat 3). rewrite <- !Nat2N.inj_mod.
  split; [apply Nat2N.inj | by intros ->].
Qed.

(** X8. Parallel entries fan out in threes. The edges the loader builds for
    two entries of one device to one target differ in their index alone, and
    they get the same stagger index exactly when their indices are congruent
    modulo 3: the sum of the character codes of a decimal numeral is
    congruent to the number. This holds for each of the four kinds. *)
Theorem parallel_entries_fan_out (device : Device.t) (i j : nat) :
  (forall c,
      edgeNumber (Edge.id (connectionEdgeOf device c i))
      = edgeNumber (Edge.id (connectionEdgeOf device c j))
      <-> (i mod 3 = j mod 3)%nat)
  /\ (forall c,
        edgeNumber (Edge.id (trunkEdgeOf device c i))
        = edgeNumber (Edge.id (trunkEdgeOf device c j))
        <-> (i mod 3 = j mod 3)%nat)
  /\ (forall c,
        edgeNumber (Edge.id (sanEdgeOf device c i))
        = edgeNumber (Edge.id (sanEdgeOf device c j))
        <-> (i mod 3 = j mod 3)%nat)
  /\ (forall site targetSite targetRouter v v',
        edgeNumber (Edge.id (vpnEdgeOf site device targetSite targetRouter v i))
        = edgeNumber (Edge.id (vpnEdgeOf site device targetSite targetRouter v' j))
        <-> (i mod 3 = j mod 3)%nat).
Proof.
  split; [| split; [| split]]; intros;
    cbn [connectionEdgeOf trunkEdgeOf sanEdgeOf vpnEdgeOf Edge.id];
    rewrite !app_assoc; apply edgeNumber_index.
Qed.

(** X9. The stagger index does not see the order of the characters of an
    identifier. So the trunk from [a] to [b] and the trunk from [b] to [a]
    with the same index, and likewise the two connections and the two SAN
    links, get the same stagger index and the same offsets. *)
Theorem reverse_links_share_stagger (device device' : Device.t) (c c' : Connection.t)
    (i : nat) :
  Device.id device' = Some (Connection.to c) ->
  Device.id device = Some (Connection.to c') ->
  edgeNumber (Edge.id (connectionEdgeOf device c i))
  = edgeNumber (Edge.id (connectionEdgeOf device' c' i))
  /\ edgeNumber (Edge.id (trunkEdgeOf device c i))
     = edgeNumber (Edge.id (trunkEdgeOf device' c' i))
  /\ edgeNumber (Edge.id (sanEdgeOf device c i))
     = edgeNumber (Edge.id (sanEdgeOf device' c' i)).
Proof.
  intros Hid' Hid.
  cbn [connectionEdgeOf trunkEdgeOf sanEdgeOf Edge.id]. rewrite Hid, Hid'. cbn [tpl].
  unfold edgeNumber. rewrite !idSum_charCodeSum, !charCodeSum_app.
  repeat split; f_equal; lia.
Qed.

Lemma reverse_links_share_stagger_witness :
  edgeNumber (Edge.id (trunkEdgeOf (sampleDevice "sw1" "switch" None None) (Connection.mk (js "sw2") None) 0))
  = edgeNumber (Edge.id (trunkEdgeOf (sampleDevice "sw2" "switch" None None) (Connection.mk (js "sw1") None) 0)).
Proof.
  apply (reverse_links_share_stagger (sampleDevice "sw1" "switch" None None) (sampleDevice "sw2" "switch" None None)
           (Connection.mk (js "sw2") None) (Connection.mk (js "sw1") None) 0);
    reflexivity.
Defined.

(** ** The shape of the routed paths *)

Ltac component_cases :=
  unfold allComponents;
  repeat match goal with
         | |- Forall _ _ => constructor
         end;
  intros;
  unfold Routing.OrthogonalConnectionEdge, Routing.OrthogonalVpnEdge,
    Routing.OrthogonalTrunkEdge, Routing.OrthogonalSanEdge,
    RoutingSnapshot.OrthogonalTrunkEdge, RoutingSnapshot.OrthogonalSanEdge,
    RoutingSnapshot.OrthogonalVpnEdge;
  cbv zeta;
  repeat match goal with
         | |- context [if ?b then _ else _] => destruct b
         end;
  cbn [edgePath].

(** X10. The path of every component is a move to the source anchor
    followed by one to five [H] and [V] commands in which the two kinds
    alternate: never a second move, never two [H] or two [V] in a row, and
    so at most five segments. (A segment can have length zero, see
    [gateway_path_doubles_back]: the statement is about the commands, not
    about the angles of the drawn line.) *)
Theorem path_commands_alternate :
  Forall (fun component : EdgeComponent =>
            forall id sourceX sourceY targetX targetY,
            exists rest,
              edgePath (component id sourceX sourceY targetX targetY)
              = MoveTo sourceX sourceY :: rest
              /\ alternates rest = true
              /\ (1 <= length rest <= 5)%nat)
         allComponents.
Proof.
  component_cases; eexists; (split; [reflexivity |]); split; try reflexivity;
    cbn [length]; lia.
Qed.

(** The commands alternate, the drawn line need not turn: for a gateway
    link whose target is 125 to the right, the second [H] of the VPN
    component stays at x = 125 and the path runs up and then back down the
    same vertical. *)
Lemma gateway_path_doubles_back :
  endpoints (edgePath (Routing.OrthogonalVpnEdge (js "vpn-fw1-GateWay-0") 0 0 125 300))
  = [(0, 0); (125, 0); (125, -150); (125, -150); (125, 300)]%float.
Proof. vm_compute. reflexivity. Qed.

(** X11. A path ends at the target anchor unless it is a single straight
    segment, which ends level with the source: [H targetX] keeps the source's
    y and [V targetY] the source's x. The registered VPN component and the
    trunk and SAN components of the second snapshot have no straight case
    and always end at the target anchor. *)
Theorem paths_end_at_target_or_run_straight (id : jsstring)
    (sourceX sourceY targetX targetY : float) :
  Forall (fun component : EdgeComponent =>
            let path := edgePath (component id sourceX sourceY targetX targetY) in
            endPoint path = Some (targetX, targetY)
            \/ (path = [MoveTo sourceX sourceY; HorizontalTo targetX]
                /\ endPoint path = Some (targetX, sourceY))
            \/ (path = [MoveTo sourceX sourceY; VerticalTo targetY]
                /\ endPoint path = Some (sourceX, targetY)))
         allComponents
  /\ Forall (fun component : EdgeComponent =>
               endPoint (edgePath (component id sourceX sourceY targetX targetY))
               = Some (targetX, targetY))
            [Routing.OrthogonalVpnEdge; RoutingSnapshot.OrthogonalTrunkEdge;
             RoutingSnapshot.OrthogonalSanEdge].
Proof.
  split.
  - component_cases; cbv zeta; cbn [edgePath];
      first [ by left | by right; left | by right; right ].
  - repeat match goal with
           | |- Forall _ _ => constructor
           end;
      unfold Routing.OrthogonalVpnEdge, RoutingSnapshot.OrthogonalTrunkEdge,
        RoutingSnapshot.OrthogonalSanEdge; cbv zeta;
      repeat match goal with
             | |- context [if ?b then _ else _] => destruct b
             end; reflexivity.
Qed.

Lemma connection_offsets :
  (Math_max (70 / 2 + 10) 25 = 45 /\ Math_max (150 / 2 + 10) 30 = 85)%float.
Proof. split; vm_compute; reflexivity. Qed.

(** X12. The stagger does not separate straight connections. When the
    anchors of a connection are less than 45 apart in height, or less than
    85 apart sideways, its path and its label position are the same for
    every identifier: parallel connections between two such devices are
    drawn on top of each other. *)
Theorem straight_connections_overlap (id id' : jsstring)
    (sourceX sourceY targetX targetY : float) :
  (abs (sourceY - targetY) <? 45)%float || (abs (sourceX - targetX) <? 85)%float = true ->
  Routing.OrthogonalConnectionEdge id sourceX sourceY targetX targetY
  = Routing.OrthogonalConnectionEdge id' sourceX sourceY targetX targetY.
Proof.
  destruct connection_offsets as [Hv Hh].
  unfold Routing.OrthogonalConnectionEdge. cbv zeta. rewrite Hv, Hh.
  intros Hnear. apply orb_true_iff in Hnear.
  destruct (abs (sourceY - targetY) <? 45)%float; [done |].
  destruct Hnear as [? | ->]; done.
Qed.

Lemma straight_connections_overlap_witness :
  Routing.OrthogonalConnectionEdge (js "connection-r1-sw1-0") 150 235 400 235
  = Routing.OrthogonalConnectionEdge (js "connection-r1-sw1-1") 150 235 400 235.
Proof.
  apply (straight_connections_overlap (js "connection-r1-sw1-0") (js "connection-r1-sw1-1")
           150 235 400 235).
  vm_compute. reflexivity.
Defined.

(** X13. Likewise for a trunk or a SAN link inside a site: when its anchors
    are at most 300 apart sideways and less than 30 apart in height or
    sideways, the path and the label position are the same for every
    identifier. *)
Theorem straight_trunks_overlap (id id' : jsstring)
    (sourceX sourceY targetX targetY : float) :
  (300 <? abs (targetX - sourceX))%float = false ->
  (abs (sourceY - targetY) <? 30)%float || (abs (sourceX - targetX) <? 30)%float = true ->
  Routing.OrthogonalTrunkEdge id sourceX sourceY targetX targetY
  = Routing.OrthogonalTrunkEdge id' sourceX sourceY targetX targetY
  /\ Routing.OrthogonalSanEdge id sourceX sourceY targetX targetY
     = Routing.OrthogonalSanEdge id' sourceX sourceY targetX targetY.
Proof.
  intros Hsite Hnear. apply orb_true_iff in Hnear.
  unfold Routing.OrthogonalTrunkEdge, Routing.OrthogonalSanEdge. cbv zeta.
  rewrite Hsite.
  destruct (abs (sourceY - targetY) <? 30)%float; [done |].
  destruct Hnear as [? | ->]; done.
Qed.

Lemma straight_trunks_overlap_witness :
  Routing.OrthogonalTrunkEdge (js "trunk-sw1-sw2-0") 150 235 400 235
  = Routing.OrthogonalTrunkEdge (js "trunk-sw1-sw2-1") 150 235 400 235
  /\ Routing.OrthogonalSanEdge (js "trunk-sw1-sw2-0") 150 235 400 235
     = Routing.OrthogonalSanEdge (js "trunk-sw1-sw2-1") 150 235 400 235.
Proof.
  apply (straight_trunks_overlap (js "trunk-sw1-sw2-0") (js "trunk-sw1-sw2-1")
           150 235 400 235); vm_compute; reflexivity.
Defined.

(** ** The map component *)

(** X14. Once mounted, the component shows a diagram exactly when the text
    is not blank and loads, and then it shows the nodes and edges of this
    text, draggable for an administrator only: after [setupNetwork] a
    diagram of an earlier text is never on screen, although a failed load
    keeps its nodes in the state. A blank text shows the error for a missing
    configuration, and the loading message is gone. *)
Theorem shown_diagram_is_current
    (yaml_load : jsstring -> outcome (option NetworkConfig)) (text : jsstring)
    (s : MapState) (isAdmin : bool) :
  (forall ns es draggable,
      renderMap true isAdmin (setupNetwork yaml_load text s) = DiagramView ns es draggable
      <-> blank text = false
          /\ parseNetworkConfig yaml_load text = Ok (ns, es)
          /\ draggable = isAdmin)
  /\ (renderMap true isAdmin (setupNetwork yaml_load text s) = ErrorView NoConfiguration
      <-> blank text = true)
  /\ (forall err,
        renderMap true isAdmin (setupNetwork yaml_load text s) = ErrorView (FailedToParse err)
        <-> blank text = false
            /\ parseNetworkConfig yaml_load text = Throw err
            /\ shownNodes (setupNetwork yaml_load text s) = shownNodes s
            /\ shownEdges (setupNetwork yaml_load text s) = shownEdges s)
  /\ renderMap true isAdmin (setupNetwork yaml_load text s) <> LoadingView.
Proof.
  unfold renderMap, setupNetwork.
  destruct (blank text); cbn.
  - repeat split; intros; intuition congruence.
  - destruct (parseNetworkConfig yaml_load text) as [[ns' es']|err']; cbn;
      repeat split; intros; intuition congruence.
Qed.

Lemma onNodeClick_shown (node : Node.t) (nds : list SelectableNode) :
  List.map shown (onNodeClick node nds) = List.map shown nds.
Proof. unfold onNodeClick. rewrite List.map_map. done. Qed.

Lemma filter_selected (node : Node.t) (nds : list SelectableNode) :
  List.map shown (List.filter is_selected (onNodeClick node nds))
  = List.filter (fun n => bool_decide (Node.id n = Node.id node)) (List.map shown nds).
Proof.
  induction nds as [|n nds IH]; [done |].
  cbn [onNodeClick List.map List.filter]. unfold is_selected at 1. cbn [selected shown].
  destruct (bool_decide (Node.id (shown n) = Node.id node)); cbn [List.map shown];
    by rewrite <- IH.
Qed.

(** X15. A click marks every node, keeps the nodes and their order, and the
    last click wins: the marks of an earlier click are all overwritten. When
    the node ids are distinct, the nodes marked as selected are the clicked
    node and nothing else. *)
Theorem click_selects_one_node (node earlier : Node.t) (nds : list SelectableNode) :
  NoDup (List.map (fun n => Node.id (shown n)) nds) ->
  In node (List.map shown nds) ->
  List.map shown (List.filter is_selected (onNodeClick node nds)) = [node]
  /\ List.map shown (onNodeClick node nds) = List.map shown nds
  /\ Forall (fun n => is_Some (selected n)) (onNodeClick node nds)
  /\ onNodeClick node (onNodeClick earlier nds) = onNodeClick node nds.
Proof.
  intros Hnd Hin. split; [| split; [apply onNodeClick_shown | split]].
  - rewrite filter_selected.
    rewrite <- (List.map_map shown Node.id) in Hnd.
    revert Hnd Hin. generalize (List.map shown nds). intros ns Hnd Hin.
    induction ns as [|n ns IH]; [done |].
    cbn [List.map] in Hnd. apply NoDup_cons in Hnd as [Hfresh Hnd].
    cbn [List.filter]. destruct Hin as [-> | Hin].
    + rewrite bool_decide_eq_true_2 by done. f_equal.
      apply filter_none. apply List.Forall_forall. intros m Hm.
      apply bool_decide_eq_false_2. intros Heq. apply Hfresh.
      rewrite <- Heq. apply list_elem_of_In. by apply in_map.
    + rewrite bool_decide_eq_false_2; [by apply IH |].
      intros Heq. apply Hfresh. rewrite Heq. apply list_elem_of_In. by apply in_map.
  - unfold onNodeClick. apply List.Forall_forall. intros n Hn.
    apply in_map_iff in Hn as (m & <- & _). by eexists.
  - unfold onNodeClick. rewrite List.map_map. done.
Qed.

Lemma click_selects_one_node_witness :
  let r1 := deviceNode (sampleDevice "r1" "router" None None) (150, 200) in
  let sw1 := deviceNode (sampleDevice "sw1" "switch" None None) (400, 200) in
  List.map shown
    (List.filter is_selected
       (onNodeClick sw1 [mkSelectable r1 (Some true); mkSelectable sw1 None]))
  = [sw1].
Proof.
  intros r1 sw1.
  apply (click_selects_one_node sw1 r1 [mkSelectable r1 (Some true); mkSelectable sw1 None]).
  - refine (bool_decide_unpack _ _). vm_compute. exact I.
  - right; left; reflexivity.
Defined.

(** ** The editor page *)

(** X16. On the editor page, whatever the order of loads, edits and
    applications: while the page does not announce unsaved changes, the
    preview shows the text of the editor. An edit always raises the
    announcement, even one that restores the applied text. *)
Theorem saved_means_preview_is_current (events : list AdminPage.Event) :
  AdminPage.isSaved (AdminPage.run events) = true ->
  AdminPage.activeYamlContent (AdminPage.run events)
  = AdminPage.yamlContent (AdminPage.run events).
Proof.
  unfold AdminPage.run.
  assert (forall s,
             (AdminPage.isSaved s = true ->
              AdminPage.activeYamlContent s = AdminPage.yamlContent s) ->
             AdminPage.isSaved (fold_left AdminPage.step events s) = true ->
             AdminPage.activeYamlContent (fold_left AdminPage.step events s)
             = AdminPage.yamlContent (fold_left AdminPage.step events s)) as Hinv.
  { induction events as [|e events IH]; intros s Hs; [exact Hs |].
    cbn [fold_left]. apply IH. destruct e; cbn; [done | done | done]. }
  apply Hinv. done.
Qed.

Lemma saved_means_preview_is_current_witness :
  AdminPage.activeYamlContent
    (AdminPage.run [AdminPage.EditorChange (js "sites: []"); AdminPage.ApplyChanges])
  = js "sites: []".
Proof.
  apply (saved_means_preview_is_current
           [AdminPage.EditorChange (js "sites: []"); AdminPage.ApplyChanges]).
  reflexivity.
Defined.

(** ** The editor's height *)

Lemma lineCount_app (a b : jsstring) :
  lineCount (a ++ b) = lineCount a + lineCount b - 1.
Proof. unfold lineCount. rewrite List.filter_app, length_app. lia. Qed.

Lemma lineCount_pos (value : jsstring) : 1 <= lineCount value.
Proof. unfold lineCount. lia. Qed.

(** X17. The editor is between 300 and 600 pixels high: 300 up to 15 lines,
    20 per line from 15 to 30 lines, 600 from 30 lines on. Text added at
    either end never makes it lower. *)
Theorem editor_height_bounds (value more : jsstring) :
  300 <= calculateHeight value <= 600
  /\ calculateHeight value
     = (if lineCount value <=? 15 then 300
        else if 30 <=? lineCount value then 600
        else 20 * lineCount value)
  /\ calculateHeight value <= calculateHeight (value ++ more)
  /\ calculateHeight value <= calculateHeight (more ++ value).
Proof.
  unfold calculateHeight. rewrite !lineCount_app.
  pose proof (lineCount_pos value). pose proof (lineCount_pos more).
  destruct (Z.leb_spec (lineCount value) 15), (Z.leb_spec 30 (lineCount value)); lia.
Qed.

(** ** Authentication *)

Lemma login_success (username password : jsstring) (st : Auth.Storage) :
  (Auth.login username password st).1 = true
  <-> username = js "admin" /\ password = js "network-admin".
Proof.
  unfold Auth.login.
  destruct (bool_decide_reflect (username = Auth.ADMIN_USERNAME)) as [Hu | Hu],
           (bool_decide_reflect (password = Auth.ADMIN_PASSWORD)) as [Hp | Hp];
    cbn; split; try done; by intros [? ?].
Qed.

(** X18. The login form succeeds for exactly one pair of credentials,
    [admin] and [network-admin], compared as they are typed. A successful
    submission leaves the session authenticated; any other submission
    leaves the storage, and with it an existing session, as it was; and no
    submission touches another key of the storage. *)
Theorem only_admin_logs_in (username password : jsstring) (st : Auth.Storage) :
  let result := Auth.handleSubmit username password st in
  (Auth.loginSucceeded result = true
   <-> username = js "admin" /\ password = js "network-admin")
  /\ (Auth.loginSucceeded result = true <-> Auth.formError result = None)
  /\ (Auth.loginSucceeded result = true ->
      Auth.isAuthenticated (Some (Auth.storage result)) = true)
  /\ (Auth.loginSucceeded result = false -> Auth.storage result = st)
  /\ (forall key, key <> Auth.AUTH_TOKEN_KEY -> Auth.storage result !! key = st !! key).
Proof.
  cbv zeta. unfold Auth.handleSubmit.
  pose proof (login_success username password st) as Hlogin.
  destruct (bool_decide_reflect (username = [])) as [-> | Hu]; cbn [orb].
  { cbn. repeat split; try done. by intros [? _]. }
  destruct (bool_decide_reflect (password = [])) as [-> | Hp]; cbn [orb].
  { cbn. repeat split; try done. by intros [_ ?]. }
  unfold Auth.login in *.
  destruct (bool_decide (username = Auth.ADMIN_USERNAME)
            && bool_decide (password = Auth.ADMIN_PASSWORD)); cbn in *.
  - repeat split; try done; try apply Hlogin; try done.
    + unfold Auth.isAuthenticated. by rewrite lookup_insert_eq.
    + intros key Hkey. by rewrite lookup_insert_ne.
  - repeat split; try done; try apply Hlogin.
Qed.

(** X19. [isAuthenticated] is false outside a browser and after [logout],
    and [logout] removes the token and nothing else. Inside a browser it is
    true for any non-empty value stored under the token key: the value is
    not compared with the one [login] writes. *)
Theorem session_token_is_not_checked (st : Auth.Storage) (token : jsstring) :
  Auth.isAuthenticated None = false
  /\ Auth.isAuthenticated (Auth.logout (Some st)) = false
  /\ Auth.logout None = None
  /\ (forall key, key <> Auth.AUTH_TOKEN_KEY ->
        exists st', Auth.logout (Some st) = Some st' /\ st' !! key = st !! key)
  /\ Auth.isAuthenticated (Some (<[Auth.AUTH_TOKEN_KEY := token]> st))
     = negb (bool_decide (token = []))
  /\ Auth.isAuthenticated (Auth.logout (Some (Auth.login (js "admin") (js "network-admin") st).2))
     = false.
Proof.
  unfold Auth.isAuthenticated, Auth.logout.
  repeat split; try done.
  - by rewrite lookup_delete_eq.
  - intros key Hkey. eexists. split; [done |]. by rewrite lookup_delete_ne.
  - rewrite lookup_insert_eq. by destruct token.
  - by rewrite lookup_delete_eq.
Qed.

(** ** The second revision of the parser *)

Section SnapshotFacts.
Import ParserSnapshot.

(** *** The stable sort *)

Lemma notAfter_rank (a b : Device.t) : notAfter a b = (rankOf a <=? rankOf b)%nat.
Proof.
  unfold notAfter, compareOrder, rankOf.
  destruct (orderOf a) as [x|], (orderOf b) as [y|]; cbn [default from_option id]; try done.
  destruct (Z.leb_spec (Z.of_nat x - Z.of_nat y) 0), (Nat.leb_spec x y); try done; lia.
Qed.

Lemma insertByOrder_perm (d : Device.t) (l : list Device.t) :
  Permutation (insertByOrder d l) (d :: l).
Proof.
  induction l as [|x l IH]; [done |]. cbn [insertByOrder]. rewrite notAfter_rank.
  destruct (rankOf d <=? rankOf x)%nat; [done |].
  rewrite IH. apply perm_swap.
Qed.

Lemma sortByOrder_perm (l : list Device.t) : Permutation (sortByOrder l) l.
Proof.
  induction l as [|d l IH]; [done |]. cbn [sortByOrder foldr].
  rewrite insertByOrder_perm. by constructor.
Qed.

Lemma insertByOrder_sorted (d : Device.t) (l : list Device.t) :
  StronglySorted by_order l -> StronglySorted by_order (insertByOrder d l).
Proof.
  induction 1 as [|x l Hl IH Hx]; cbn [insertByOrder]; [by repeat constructor |].
  rewrite notAfter_rank.
  destruct (Nat.leb_spec (rankOf d) (rankOf x)) as [Hle | Hgt].
  - constructor; [by constructor |]. constructor; [done |].
    eapply Forall_impl; [exact Hx |]. unfold by_order. intros; cbn in *; lia.
  - constructor; [done |].
    rewrite (insertByOrder_perm d l). constructor; [unfold by_order; lia | done].
Qed.

Lemma sortByOrder_sorted (l : list Device.t) : StronglySorted by_order (sortByOrder l).
Proof.
  induction l as [|d l IH]; [constructor |].
  cbn [sortByOrder foldr]. by apply insertByOrder_sorted.
Qed.

Lemma insertByOrder_filter (p : nat) (d : Device.t) (l : list Device.t) :
  List.filter (has_order p) (insertByOrder d l) = List.filter (has_order p) (d :: l).
Proof.
  induction l as [|x l IH]; [done |]. cbn [insertByOrder]. rewrite notAfter_rank.
  destruct (Nat.leb_spec (rankOf d) (rankOf x)) as [Hle | Hgt]; [done |].
  cbn [List.filter] in *. rewrite IH. unfold has_order.
  destruct (Nat.eqb_spec (rankOf x) p), (Nat.eqb_spec (rankOf d) p); try done; lia.
Qed.

Lemma sortByOrder_stable (p : nat) (l : list Device.t) :
  List.filter (has_order p) (sortByOrder l) = List.filter (has_order p) l.
Proof.
  induction l as [|d l IH]; [done |].
  cbn [sortByOrder foldr]. rewrite insertByOrder_filter.
  cbn [List.filter]. fold (sortByOrder l). by rewrite IH.
Qed.

(** A list sorted by order is determined by its devices of each order. *)
Lemma sorted_by_filters (l1 : list Device.t) :
  forall l2,
    StronglySorted by_order l1 -> StronglySorted by_order l2 ->
    (forall p, List.filter (has_order p) l1 = List.filter (has_order p) l2) ->
    l1 = l2.
Proof.
  induction l1 as [|a l1 IH]; intros l2 H1 H2 Hf.
  - destruct l2 as [|b l2]; [done |].
    specialize (Hf (rankOf b)). cbn in Hf. unfold has_order in Hf.
    by rewrite Nat.eqb_refl in Hf.
  - destruct l2 as [|b l2].
    { specialize (Hf (rankOf a)). cbn in Hf. unfold has_order in Hf.
      by rewrite Nat.eqb_refl in Hf. }
    apply StronglySorted_inv in H1 as [H1 Ha], H2 as [H2 Hb].
    assert (Hin_b : In b (a :: l1)).
    { apply (filter_In (has_order (rankOf b))). rewrite (Hf (rankOf b)).
      apply filter_In. split; [by left | apply Nat.eqb_refl]. }
    assert (Hin_a : In a (b :: l2)).
    { apply (filter_In (has_order (rankOf a))). rewrite <- (Hf (rankOf a)).
      apply filter_In. split; [by left | apply Nat.eqb_refl]. }
    assert (Hab : rankOf a = rankOf b).
    { rewrite List.Forall_forall in Ha, Hb. unfold by_order in *.
      destruct Hin_b as [-> | Hin_b]; [done |].
      destruct Hin_a as [-> | Hin_a]; [done |].
      specialize (Ha _ Hin_b). specialize (Hb _ Hin_a). lia. }
    pose proof (Hf (rankOf a)) as Hhead. cbn [List.filter] in Hhead.
    assert (Haa : has_order (rankOf a) a = true) by apply Nat.eqb_refl.
    assert (Hba : has_order (rankOf a) b = true)
      by (unfold has_order; rewrite Hab; apply Nat.eqb_refl).
    rewrite Haa, Hba in Hhead. injection Hhead as <- Htail. f_equal. apply IH; [done | done |].
    intros p. specialize (Hf p). cbn [List.filter] in Hf.
    destruct (has_order p a); [by injection Hf | done].
Qed.

(** *** Grouping by type *)

Lemma groupMap_lookup (l : list Device.t) :
  forall (m : gmap jsstring (list Device.t)) (key : jsstring),
    default [] (groupMap l m !! key)
    = default [] (m !! key) ++ List.filter (has_type key) l.
Proof.
  induction l as [|d l IH]; intros m key; cbn [groupMap fold_left List.filter].
  - by rewrite app_nil_r.
  - fold (groupMap l). rewrite IH. unfold has_type at 2.
    destruct (bool_decide_reflect (typeKey d = key)) as [<- | Hne].
    + rewrite lookup_insert_eq. cbn. by rewrite <- app_assoc.
    + by rewrite lookup_insert_ne.
Qed.

Lemma pushByType_eq (d : Device.t) (i : nat) (m : gmap jsstring (list Device.t)) :
  pushByType d i m
  = if bool_decide (typeKey d ∈ inheritedKeys) then Throw TypeError
    else Ok (<[typeKey d := default [] (m !! typeKey d) ++ [d]]> m).
Proof. reflexivity. Qed.

Lemma pushByType_run (l : list Device.t) :
  types_groupable l = true ->
  forall i m, forEach_from pushByType l i m = Ok (groupMap l m).
Proof.
  induction l as [|d l IH]; intros Hok i m; [done |].
  cbn [types_groupable forallb] in Hok. apply andb_true_iff in Hok as [Hd Hok].
  cbn [forEach_from groupMap fold_left]. rewrite pushByType_eq.
  apply negb_true_iff in Hd. rewrite Hd, bind_Ok.
  by apply IH.
Qed.

Lemma pushByType_throw (l : list Device.t) :
  types_groupable l = false ->
  forall i m, forEach_from pushByType l i m = Throw TypeError.
Proof.
  induction l as [|d l IH]; intros Hok i m; [done |].
  cbn [types_groupable forallb] in Hok. cbn [forEach_from].
  rewrite pushByType_eq.
  destruct (bool_decide (typeKey d ∈ inheritedKeys)); [done |].
  rewrite bind_Ok. by apply IH.
Qed.

Lemma types_groupable_sorted (l : list Device.t) :
  types_groupable (sortByOrder l) = types_groupable l.
Proof.
  apply eq_true_iff_eq. unfold types_groupable. rewrite !forallb_forall.
  split; intros H d Hd; apply H.
  - eapply Permutation_in; [symmetry; apply sortByOrder_perm | exact Hd].
  - eapply Permutation_in; [apply sortByOrder_perm | exact Hd].
Qed.

(** Whether a device list can be grouped does not depend on its order. *)
Lemma types_groupable_perm (l l' : list Device.t) :
  Permutation l l' -> types_groupable l = types_groupable l'.
Proof.
  intros Hp. apply eq_true_iff_eq. unfold types_groupable. rewrite !forallb_forall.
  split; intros H d Hd; apply H.
  - eapply Permutation_in; [symmetry; exact Hp | exact Hd].
  - eapply Permutation_in; [exact Hp | exact Hd].
Qed.

(** Where the comparator of the sort is not a number, the order the engine
    leaves the devices in does not matter: a device whose type is an
    inherited name makes the grouping loop throw in whatever order the
    devices reach it. *)
Lemma grouping_throws_in_any_order (devices arranged : list Device.t) :
  types_groupable devices = false -> Permutation arranged devices ->
  forall i m, forEach_from pushByType arranged i m = Throw TypeError.
Proof.
  intros Hg Hp. apply pushByType_throw.
  by rewrite (types_groupable_perm arranged devices Hp).
Qed.

(** On devices that can be grouped the comparator is the difference of the
    two ranks. *)
Lemma compareOrder_groupable (a b : Device.t) :
  types_groupable [a; b] = true ->
  compareOrder a b = Some (Z.of_nat (rankOf a) - Z.of_nat (rankOf b))%Z.
Proof.
  unfold types_groupable, compareOrder, rankOf, orderOf. cbn [forallb].
  fold (typeKey a) (typeKey b).
  destruct (bool_decide (typeKey a ∈ inheritedKeys)); [done |].
  destruct (bool_decide (typeKey b ∈ inheritedKeys)); [done |].
  done.
Qed.

(** The rank is the order of the seven types and 99 for every other type,
    an inherited name among them. *)
Lemma rankOf_eq (d : Device.t) :
  rankOf d
  = default 99%nat
      (snd <$> List.find (fun entry : jsstring * nat => bool_decide (entry.1 = typeKey d))
                         deviceTypeOrder).
Proof.
  unfold rankOf, orderOf. fold (typeKey d).
  destruct (bool_decide_reflect (typeKey d ∈ inheritedKeys)) as [Hin | _]; [| done].
  apply list_elem_of_In in Hin. unfold inheritedKeys in Hin. cbn [In] in Hin.
  intuition; match goal with H : _ = typeKey d |- _ => rewrite <- H end; reflexivity.
Qed.

Lemma has_type_order (entry : jsstring * nat) (d : Device.t) :
  In entry deviceTypeOrder -> has_type entry.1 d = true -> has_order entry.2 d = true.
Proof.
  unfold has_type, has_order. rewrite rankOf_eq. intros Hin Hd.
  apply bool_decide_eq_true in Hd. rewrite Hd.
  cbn in Hin. intuition subst; reflexivity.
Qed.

(** The group of an entry of [deviceTypeOrder] holds the devices of that
    type in input order. *)
Lemma group_of_entry (entry : jsstring * nat) (devices : list Device.t) :
  In entry deviceTypeOrder ->
  default [] (groupMap (sortByOrder devices) ∅ !! entry.1)
  = List.filter (has_type entry.1) devices.
Proof.
  intros Hin. rewrite groupMap_lookup, lookup_empty. cbn [default app].
  assert (Hsub : forall l, List.filter (has_type entry.1) l
                           = List.filter (has_type entry.1)
                               (List.filter (has_order entry.2) l)).
  { intros l. rewrite <- filter_filter_and. apply filter_ext_in. intros d _.
    destruct (has_type entry.1 d) eqn:Hd; [| by rewrite andb_false_r].
    by rewrite (has_type_order entry d Hin Hd). }
  by rewrite Hsub, sortByOrder_stable, <- Hsub.
Qed.

(** *** The loops of a site *)

Lemma snapshot_layoutDevice_spec (site : Site.t) (base : float * float)
    (cfg : TypeConfig) (startX y : float) (device : Device.t) (i : nat) (st : Stores)
    (ids : list (option jsstring)) (dim : Dimensions) :
  siteNodeIds st !! siteKey site = Some ids ->
  siteDimensions st !! siteKey site = Some dim ->
  layoutDevice site base cfg startX y device i st
  = Ok (mkStores (nodes st ++ [deviceNode site cfg device (devicePosition cfg startX y i)])
                 (sitePositions st)
                 (<[siteKey site := ids ++ [Device.id device]]> (siteNodeIds st))
                 (<[siteKey site := growDim base cfg startX y dim i]> (siteDimensions st))).
Proof.
  intros Hids Hdim. unfold layoutDevice. fold (siteKey site). by rewrite Hids, Hdim.
Qed.

Lemma groupNodes_ids (site : Site.t) (cfg : TypeConfig) (startX y : float)
    (devices : list Device.t) :
  forall i, List.map Node.id (groupNodes site cfg startX y devices i)
            = List.map Device.id devices.
Proof.
  induction devices as [|d devices IH]; intros i; [done |].
  unfold groupNodes in *. cbn. by rewrite IH.
Qed.

Lemma snapshot_layoutDevices_spec (site : Site.t) (base : float * float)
    (cfg : TypeConfig) (startX y : float) (devices : list Device.t) :
  forall (i : nat) (st : Stores) (ids : list (option jsstring)) (dim : Dimensions),
    siteNodeIds st !! siteKey site = Some ids ->
    siteDimensions st !! siteKey site = Some dim ->
    forEach_from (layoutDevice site base cfg startX y) devices i st
    = Ok (mkStores (nodes st ++ groupNodes site cfg startX y devices i)
                   (sitePositions st)
                   (<[siteKey site := ids ++ List.map Device.id devices]> (siteNodeIds st))
                   (<[siteKey site := growDims base cfg startX y dim (length devices) i]>
                      (siteDimensions st))).
Proof.
  induction devices as [|d devices IH]; intros i st ids dim Hids Hdim.
  - cbn. rewrite !app_nil_r, !insert_id by done. by destruct st.
  - cbn [forEach_from]. rewrite (snapshot_layoutDevice_spec _ _ _ _ _ _ _ _ ids dim) by done.
    rewrite bind_Ok.
    rewrite (IH _ _ (ids ++ [Device.id d]) (growDim base cfg startX y dim i));
      cbn [siteNodeIds siteDimensions]; [| apply lookup_insert_eq | apply lookup_insert_eq].
    unfold groupNodes. cbn.
    by rewrite !insert_insert_eq, <- !app_assoc.
Qed.

Lemma snapshot_layoutGroup_spec (site : Site.t) (base : float * float)
    (m : gmap jsstring (list Device.t)) (entry : jsstring * nat) (i : nat)
    (r : GroupState) (st : Stores) (before : list Node.t)
    (ids : list (option jsstring)) :
  nodes st = before ++ g_nodes r ->
  siteNodeIds st !! siteKey site = Some (ids ++ List.map Node.id (g_nodes r)) ->
  siteDimensions st !! siteKey site = Some (g_dim r) ->
  let r' := groupStep site base m r entry in
  layoutGroup site base m entry i (g_currentY r, st)
  = Ok (g_currentY r',
        mkStores (before ++ g_nodes r') (sitePositions st)
          (<[siteKey site := ids ++ List.map Node.id (g_nodes r')]> (siteNodeIds st))
          (<[siteKey site := g_dim r']> (siteDimensions st))).
Proof.
  intros Hn Hids Hdim r'. subst r'. unfold layoutGroup, groupStep. fold (siteKey site).
  cbn [fst snd].
  destruct (m !! entry.1) as [[|d devices]|] eqn:Hm; cbn [default from_option id].
  1, 3: rewrite !insert_id by done; rewrite <- Hn; by destruct st.
  rewrite Hdim. unfold forEach.
  rewrite (snapshot_layoutDevices_spec _ _ _ _ _ _ _ _ _ (g_dim r) Hids Hdim), bind_Ok.
  cbn [g_currentY g_dim g_nodes]. rewrite Hn, List.map_app, groupNodes_ids.
  by rewrite <- !app_assoc.
Qed.

Lemma snapshot_layoutGroups_spec (site : Site.t) (base : float * float)
    (m : gmap jsstring (list Device.t)) (entries : list (jsstring * nat)) :
  forall (i : nat) (r : GroupState) (st : Stores) (before : list Node.t)
         (ids : list (option jsstring)),
    nodes st = before ++ g_nodes r ->
    siteNodeIds st !! siteKey site = Some (ids ++ List.map Node.id (g_nodes r)) ->
    siteDimensions st !! siteKey site = Some (g_dim r) ->
    let r' := fold_left (groupStep site base m) entries r in
    forEach_from (layoutGroup site base m) entries i (g_currentY r, st)
    = Ok (g_currentY r',
          mkStores (before ++ g_nodes r') (sitePositions st)
            (<[siteKey site := ids ++ List.map Node.id (g_nodes r')]> (siteNodeIds st))
            (<[siteKey site := g_dim r']> (siteDimensions st))).
Proof.
  induction entries as [|entry entries IH]; intros i r st before ids Hn Hids Hdim.
  - cbn. rewrite !insert_id by done. rewrite <- Hn. by destruct st.
  - cbn [forEach_from fold_left].
    rewrite (snapshot_layoutGroup_spec _ _ _ _ _ _ _ before ids Hn Hids Hdim), bind_Ok.
    rewrite (IH _ _ _ before ids); cbn [nodes siteNodeIds siteDimensions sitePositions];
      [| done | apply lookup_insert_eq | apply lookup_insert_eq].
    by rewrite !insert_insert_eq.
Qed.

(** *** The edges of a device *)

Lemma forEach_from_append {A B : Type} (f : A -> nat -> list B -> outcome (list B))
    (g : A -> nat -> list B) (l : list A) :
  (forall a j s, f a j s = Ok (s ++ g a j)) ->
  forall i s, forEach_from f l i s = Ok (s ++ emitted_from g l i).
Proof.
  intros Hf. induction l as [|a l IH]; intros i s; cbn.
  - by rewrite app_nil_r.
  - rewrite Hf, bind_Ok, IH. by rewrite <- app_assoc.
Qed.

Lemma forEachPresent_append {A B : Type} (f : A -> nat -> list B -> outcome (list B))
    (g : A -> nat -> list B) (l : option (list A)) (s : list B) :
  (forall a j s, f a j s = Ok (s ++ g a j)) ->
  forEachPresent f l s = Ok (s ++ emitted_from g (default [] l) 0).
Proof.
  intros Hf. destruct l as [l|]; cbn.
  - by apply forEach_from_append.
  - by rewrite app_nil_r.
Qed.

Lemma snapshot_processVpn_spec (allSites : list Site.t) (site : Site.t)
    (device : Device.t) (vc : VpnConnection.t) (idx : nat) (es : list Edge.t) :
  forallb has_devices allSites = true ->
  processVpnConnection allSites site device vc idx es
  = Ok (es ++ vpnEntryEdges allSites site device vc idx).
Proof.
  intros Hall. unfold processVpnConnection, vpnEntryEdges.
  destruct (List.find _ allSites) as [ts|] eqn:Hsite.
  - rewrite (find_has_devices _ _ _ Hall Hsite).
    destruct (List.find _ (siteDevices ts)); [done |].
    by rewrite app_nil_r.
  - by rewrite app_nil_r.
Qed.

Lemma snapshot_processDevice_spec (allSites : list Site.t) (site : Site.t)
    (device : Device.t) (i : nat) (es : list Edge.t) :
  forallb has_devices allSites = true ->
  processDevice allSites site device i es = Ok (es ++ deviceEdges allSites site device).
Proof.
  intros Hall. unfold processDevice.
  rewrite (forEachPresent_append _ (fun c i => [connectionEdgeOf device c i])) by done.
  rewrite bind_Ok.
  rewrite (forEachPresent_append _ (vpnEntryEdges allSites site device))
    by (intros; by apply snapshot_processVpn_spec).
  rewrite bind_Ok.
  rewrite (forEachPresent_append _ (fun c i => [trunkEdgeOf device c i])) by done.
  rewrite bind_Ok.
  rewrite (forEachPresent_append _ (fun c i => [sanEdgeOf device c i])) by done.
  unfold deviceEdges, connectionEdges, vpnEdges, trunkEdges, sanEdges.
  by rewrite <- !app_assoc.
Qed.

Lemma snapshot_processDevices_spec (allSites : list Site.t) (site : Site.t)
    (devices : list Device.t) :
  forallb has_devices allSites = true ->
  forall i es,
    forEach_from (processDevice allSites site) devices i es
    = Ok (es ++ flat_map (deviceEdges allSites site) devices).
Proof.
  intros Hall. induction devices as [|d devices IH]; intros i es; cbn.
  - by rewrite app_nil_r.
  - rewrite snapshot_processDevice_spec, bind_Ok, IH by done. by rewrite <- app_assoc.
Qed.

Lemma snapshot_layoutSite_spec (allSites : list Site.t) (site : Site.t) (siteIndex : nat)
    (st : Stores) (es : list Edge.t) (base : float * float)
    (ids : list (option jsstring)) (dim : Dimensions) :
  forallb has_devices allSites = true ->
  site_complete site = true ->
  types_groupable (siteDevices site) = true ->
  sitePositions st !! siteKey site = Some base ->
  siteNodeIds st !! siteKey site = Some ids ->
  siteDimensions st !! siteKey site = Some dim ->
  let r := runGroups site base dim in
  let box := paddedBox site (g_dim r) in
  layoutSite allSites site siteIndex (st, es)
  = Ok (mkStores
          ((backgroundNode (siteKey site) base box :: nodes st ++ g_nodes r)
             ++ [headerNode site (siteKey site) base])
          (sitePositions st)
          (<[siteKey site := ids ++ List.map Node.id (g_nodes r)]> (siteNodeIds st))
          (<[siteKey site := box]> (siteDimensions st)),
        es ++ siteEdges allSites site).
Proof.
  intros Hall Hc Hok Hpos Hids Hdim r box. subst r box.
  unfold site_complete, has_devices, has_id in Hc.
  unfold layoutSite, siteEdges, runGroups, paddedBox. fold (siteKey site).
  rewrite Hpos. unfold siteDevices in *.
  destruct (Site.devices site) as [devs|]; [| done]. cbn [default from_option id] in *.
  unfold forEach.
  rewrite pushByType_run, bind_Ok by (by rewrite types_groupable_sorted).
  rewrite (snapshot_layoutGroups_spec site base _ deviceTypeOrder 0
             (mkGroup (base.2 + 120) dim []) st (nodes st) ids);
    cbn [g_nodes g_dim g_currentY List.map];
    [| by rewrite app_nil_r | by rewrite app_nil_r | done].
  rewrite bind_Ok. cbn [snd].
  rewrite (snapshot_processDevices_spec _ _ _ Hall), bind_Ok.
  cbn [siteDimensions nodes sitePositions siteNodeIds]. rewrite lookup_insert_eq.
  unfold siteKey at 3. unfold siteKey at 3.
  destruct (Site.id site) as [sid|] eqn:Hsid; [| done].
  unfold siteKey. rewrite Hsid. cbn [tpl].
  by rewrite insert_insert_eq.
Qed.

(** *** The two site loops *)

Lemma snapshot_placeSite_Some (s : Site.t) (i : nat) (st : Stores) (devs : list Device.t) :
  Site.devices s = Some devs ->
  placeSite s i st
  = Ok (mkStores (nodes st)
          (<[siteKey s := (num_of_nat i * siteSpacing + 100, 100)%float]> (sitePositions st))
          (<[siteKey s := []]> (siteNodeIds st))
          (<[siteKey s := mkDim 0 0 (length devs)]> (siteDimensions st))).
Proof. intros H. unfold placeSite. by rewrite H. Qed.

Lemma snapshot_placeSites_spec (todo : list Site.t) :
  forallb has_devices todo = true ->
  forall (i : nat) (st : Stores),
  exists st',
    forEach_from placeSite todo i st = Ok st'
    /\ nodes st' = nodes st
    /\ (forall s, In s todo ->
          is_Some (sitePositions st' !! siteKey s)
          /\ is_Some (siteNodeIds st' !! siteKey s)
          /\ is_Some (siteDimensions st' !! siteKey s))
    /\ (forall k, ~ In k (List.map siteKey todo) ->
          sitePositions st' !! k = sitePositions st !! k
          /\ siteNodeIds st' !! k = siteNodeIds st !! k
          /\ siteDimensions st' !! k = siteDimensions st !! k)
    /\ (NoDup (List.map siteKey todo) ->
        forall j s, todo !! j = Some s ->
          sitePositions st' !! siteKey s
          = Some (num_of_nat (i + j) * siteSpacing + 100, 100)%float
          /\ siteDimensions st' !! siteKey s
             = Some (mkDim 0 0 (length (siteDevices s)))).
Proof.
  induction todo as [|s todo IH]; intros Hall i st.
  - exists st. repeat split; try done; intros _ [|?] ?; done.
  - cbn [forallb] in Hall. apply andb_true_iff in Hall as [Hs Hall].
    cbn [forEach_from]. unfold has_devices in Hs.
    destruct (Site.devices s) as [devs|] eqn:Hdevs; [| done].
    rewrite (snapshot_placeSite_Some _ _ _ _ Hdevs), bind_Ok.
    set (st1 := mkStores _ _ _ _).
    destruct (IH Hall (S i) st1) as (st' & Hrun & Hn & Hdom & Hframe & Hnodup).
    exists st'. split; [done |]. split; [by rewrite Hn |].
    split; [| split].
    + intros s' [<- | Hin]; [| by apply Hdom].
      destruct (decide (siteKey s ∈ List.map siteKey todo)) as [Hk | Hk];
        rewrite list_elem_of_In in Hk.
      * apply in_map_iff in Hk as (s'' & Hkey & Hin). rewrite <- Hkey. by apply Hdom.
      * destruct (Hframe _ Hk) as (-> & -> & ->). subst st1; cbn.
        rewrite !lookup_insert_eq. eauto.
    + intros k Hk. cbn [List.map In] in Hk.
      destruct (Hframe k) as (-> & -> & ->); [tauto |].
      subst st1; cbn. rewrite !lookup_insert_ne by tauto. done.
    + intros Hnd j s' Hj. cbn [List.map] in Hnd. apply NoDup_cons in Hnd as [Hk Hnd].
      destruct j as [|j]; cbn in Hj.
      * simplify_eq. rewrite list_elem_of_In in Hk.
        destruct (Hframe _ Hk) as (-> & _ & ->). subst st1; cbn.
        rewrite !lookup_insert_eq, Nat.add_0_r.
        unfold siteDevices. by rewrite Hdevs.
      * replace (i + S j)%nat with (S i + j)%nat by lia. by apply Hnodup.
Qed.

Lemma snapshot_layoutSites_spec (allSites todo : list Site.t) :
  forallb has_devices allSites = true ->
  forallb site_complete todo = true ->
  forallb (fun s => types_groupable (siteDevices s)) todo = true ->
  forall (i : nat) (st : Stores) (es : list Edge.t),
    (forall s, In s todo ->
       is_Some (sitePositions st !! siteKey s)
       /\ is_Some (siteNodeIds st !! siteKey s)
       /\ is_Some (siteDimensions st !! siteKey s)) ->
    exists st' starts,
      forEach_from (layoutSite allSites) todo i (st, es)
      = Ok (st', es ++ flat_map (siteEdges allSites) todo)
      /\ length starts = length todo
      /\ nodes st'
         = rev (zip_with (siteBackground (sitePositions st)) todo starts)
             ++ nodes st ++ concat (zip_with (pushedNodes (sitePositions st)) todo starts)
      /\ (NoDup (List.map siteKey todo) ->
          forall j s d, todo !! j = Some s ->
            siteDimensions st !! siteKey s = Some d ->
            starts !! j = Some d).
Proof.
  intros Hall. induction todo as [|s todo IH]; intros Hc Hg i st es Hdom.
  - exists st, []. repeat split; cbn; try (by rewrite ?app_nil_r);
      intros _ [|?] ?; done.
  - cbn [forallb] in Hc, Hg.
    apply andb_true_iff in Hc as [Hs Hc]. apply andb_true_iff in Hg as [Hgs Hg].
    destruct (Hdom s) as ([base Hbase] & [ids Hids] & [dim Hdim]); [by left |].
    cbn [forEach_from].
    rewrite (snapshot_layoutSite_spec _ _ _ _ _ base ids dim) by done.
    rewrite bind_Ok.
    set (box := paddedBox _ _). set (st1 := mkStores _ _ _ _).
    destruct (IH Hc Hg (S i) st1 (es ++ siteEdges allSites s))
      as (st' & starts & Hrun & Hlen & Hn & Hnodup).
    { intros s' Hin. destruct (Hdom s') as (? & ? & ?); [by right |].
      subst st1; cbn. split; [done |].
      split; apply lookup_insert_is_Some'; by right. }
    exists st', (dim :: starts). split; [| split; [cbn; by rewrite Hlen | split]].
    + rewrite Hrun. cbn [flat_map]. by rewrite <- app_assoc.
    + assert (Hb : basePosition (sitePositions st) s = base)
        by (unfold basePosition; by rewrite Hbase).
      assert (Hbg : siteBackground (sitePositions st) s dim
                    = backgroundNode (siteKey s) base
                        (paddedBox s (g_dim (runGroups s base dim))))
        by (unfold siteBackground; by rewrite Hb).
      assert (Hpn : pushedNodes (sitePositions st) s dim
                    = g_nodes (runGroups s base dim) ++ [headerNode s (siteKey s) base])
        by (unfold pushedNodes; by rewrite Hb).
      rewrite Hn. subst st1 box. cbn [nodes sitePositions zip_with rev concat].
      rewrite Hbg, Hpn. cbn [app]. rewrite <- !app_assoc. reflexivity.
    + intros Hnd j s' d Hj Hd. cbn [List.map] in Hnd. apply NoDup_cons in Hnd as [Hk Hnd].
      destruct j as [|j]; cbn in Hj.
      * by simplify_eq.
      * cbn. apply (Hnodup Hnd j s' d Hj). subst st1; cbn.
        rewrite lookup_insert_ne; [done |].
        intros Heq. apply Hk. rewrite Heq. apply list_elem_of_In, in_map.
        apply list_elem_of_In. by eapply list_elem_of_lookup_2.
Qed.

Lemma snapshot_layoutDocument_spec (networkConfig : NetworkConfig)
    (allSites : list Site.t) :
  sites networkConfig = Some allSites ->
  forallb site_complete allSites = true ->
  forallb (fun s => types_groupable (siteDevices s)) allSites = true ->
  exists P starts,
    layoutDocument (Some networkConfig)
    = Ok (rev (zip_with (siteBackground P) allSites starts)
            ++ concat (zip_with (pushedNodes P) allSites starts),
          flat_map (siteEdges allSites) allSites)
    /\ length starts = length allSites
    /\ (NoDup (List.map siteKey allSites) ->
        forall j s, allSites !! j = Some s ->
          P !! siteKey s = Some (num_of_nat j * siteSpacing + 100, 100)%float
          /\ starts !! j = Some (mkDim 0 0 (length (siteDevices s)))).
Proof.
  intros Hsites Hc Hg. pose proof (site_complete_has_devices _ Hc) as Hall.
  destruct (snapshot_placeSites_spec allSites Hall 0 emptyStores)
    as (st1 & Hrun1 & Hn1 & Hdom1 & _ & Hnd1).
  destruct (snapshot_layoutSites_spec allSites allSites Hall Hc Hg 0 st1 [] Hdom1)
    as (st2 & starts & Hrun2 & Hlen & Hn2 & Hnd2).
  exists (sitePositions st1), starts.
  split; [| split; [done |]].
  - unfold layoutDocument. rewrite Hsites. unfold forEach.
    rewrite Hrun1, bind_Ok, Hrun2, bind_Ok. cbn [fst snd]. by rewrite Hn2, Hn1.
  - intros Hnd j s Hj. destruct (Hnd1 Hnd j s Hj) as [Hpos Hdim].
    split; [exact Hpos |]. by apply (Hnd2 Hnd j s _ Hj).
Qed.

(** *** Failures *)

Lemma snapshot_placeSites_throw (todo : list Site.t) :
  forallb has_devices todo = false ->
  forall (i : nat) (st : Stores), forEach_from placeSite todo i st = Throw TypeError.
Proof.
  induction todo as [|s todo IH]; intros Hall i st; [done |].
  cbn [forallb] in Hall. cbn [forEach_from].
  destruct (Site.devices s) as [devs|] eqn:Hdevs.
  - rewrite (snapshot_placeSite_Some _ _ _ _ Hdevs), bind_Ok. apply IH.
    unfold has_devices in Hall at 1. by rewrite Hdevs in Hall.
  - unfold placeSite. by rewrite Hdevs.
Qed.

Lemma snapshot_layoutSite_throws (allSites : list Site.t) (site : Site.t) (siteIndex : nat)
    (st : Stores) (es : list Edge.t) :
  forallb has_devices allSites = true ->
  has_devices site = true ->
  site_complete site && types_groupable (siteDevices site) = false ->
  is_Some (sitePositions st !! siteKey site) ->
  is_Some (siteNodeIds st !! siteKey site) ->
  is_Some (siteDimensions st !! siteKey site) ->
  layoutSite allSites site siteIndex (st, es) = Throw TypeError.
Proof.
  intros Hall Hdevs Hbad [base Hbase] [ids Hids] [dim Hdim].
  unfold layoutSite. fold (siteKey site). rewrite Hbase.
  unfold site_complete in Hbad. rewrite Hdevs in Hbad. cbn [andb] in Hbad.
  unfold has_devices in Hdevs. unfold siteDevices in Hbad.
  destruct (Site.devices site) as [devs|]; [| done]. cbn [default from_option id] in Hbad.
  unfold forEach.
  destruct (types_groupable devs) eqn:Hg.
  - rewrite pushByType_run, bind_Ok by (by rewrite types_groupable_sorted).
    rewrite (snapshot_layoutGroups_spec site base _ deviceTypeOrder 0
               (mkGroup (base.2 + 120) dim []) st (nodes st) ids);
      cbn [g_nodes g_dim g_currentY List.map];
      [| by rewrite app_nil_r | by rewrite app_nil_r | done].
    rewrite bind_Ok. cbn [snd].
    rewrite (snapshot_processDevices_spec _ _ _ Hall), bind_Ok.
    rewrite andb_true_r in Hbad. unfold has_id in Hbad.
    cbn [siteDimensions]. rewrite lookup_insert_eq.
    unfold siteKey in *. by destruct (Site.id site).
  - rewrite pushByType_throw by (by rewrite types_groupable_sorted). done.
Qed.

Lemma snapshot_layoutSites_throw (allSites todo : list Site.t) :
  forallb has_devices allSites = true ->
  forallb has_devices todo = true ->
  forallb (fun s => site_complete s && types_groupable (siteDevices s)) todo = false ->
  forall (i : nat) (st : Stores) (es : list Edge.t),
    (forall s, In s todo ->
       is_Some (sitePositions st !! siteKey s)
       /\ is_Some (siteNodeIds st !! siteKey s)
       /\ is_Some (siteDimensions st !! siteKey s)) ->
    forEach_from (layoutSite allSites) todo i (st, es) = Throw TypeError.
Proof.
  intros Hall. induction todo as [|s todo IH]; intros Hd Hc i st es Hdom; [done |].
  cbn [forallb] in Hd, Hc. apply andb_true_iff in Hd as [Hds Hd].
  cbn [forEach_from].
  destruct (Hdom s) as ([base Hbase] & [ids Hids] & [dim Hdim]); [by left |].
  destruct (site_complete s && types_groupable (siteDevices s)) eqn:Hs.
  - apply andb_true_iff in Hs as [Hs Hgs].
    rewrite (snapshot_layoutSite_spec _ _ _ _ _ base ids dim), bind_Ok by done.
    apply IH; [done | done |].
    intros s' Hin. destruct (Hdom s') as (? & ? & ?); [by right |].
    cbn. split; [done |]. split; apply lookup_insert_is_Some'; by right.
  - rewrite snapshot_layoutSite_throws; eauto.
Qed.

Lemma forallb_andb {A : Type} (p q : A -> bool) (l : list A) :
  forallb (fun a => p a && q a) l = forallb p l && forallb q l.
Proof.
  induction l as [|a l IH]; [done |]. cbn [forallb]. rewrite IH.
  destruct (p a), (q a), (forallb p l), (forallb q l); done.
Qed.

Lemma snapshot_layoutDocument_throws (doc : option NetworkConfig) :
  document_complete doc && document_groupable doc = false ->
  layoutDocument doc = Throw TypeError.
Proof.
  destruct doc as [cfg|]; [| done]. cbn [document_complete document_groupable layoutDocument].
  destruct (sites cfg) as [allSites|]; [| done]. intros Hbad.
  unfold forEach.
  destruct (forallb has_devices allSites) eqn:Hall.
  - destruct (snapshot_placeSites_spec allSites Hall 0 emptyStores)
      as (st1 & Hrun1 & _ & Hdom1 & _).
    rewrite Hrun1, bind_Ok.
    rewrite (snapshot_layoutSites_throw allSites allSites Hall Hall); [done | | done].
    by rewrite forallb_andb.
  - by rewrite snapshot_placeSites_throw.
Qed.

Lemma snapshot_layoutDocument_ok (doc : option NetworkConfig) :
  is_ok (layoutDocument doc) = document_complete doc && document_groupable doc.
Proof.
  destruct (document_complete doc && document_groupable doc) eqn:Hc.
  - apply andb_true_iff in Hc as [Hc Hg].
    destruct doc as [cfg|]; [| done]. cbn in Hc, Hg.
    destruct (sites cfg) as [allSites|] eqn:Hsites; [| done].
    destruct (snapshot_layoutDocument_spec _ _ Hsites Hc Hg) as (P & starts & -> & _).
    done.
  - by rewrite snapshot_layoutDocument_throws.
Qed.

(** *** The placed devices and the sort *)

Lemma order_type (entry : jsstring * nat) (d : Device.t) :
  In entry deviceTypeOrder -> has_order entry.2 d = true -> has_type entry.1 d = true.
Proof.
  unfold has_type, has_order. rewrite rankOf_eq. intros Hin.
  unfold deviceTypeOrder in *. cbn [List.find fst snd].
  repeat (case_bool_decide; cbn [fmap option_fmap option_map default from_option id snd]);
    cbn [In] in Hin; intuition subst; cbn [fst snd] in *;
    try discriminate; try (apply bool_decide_eq_true; congruence); try congruence.
Qed.

Lemma known_type_order (d : Device.t) :
  known_type d = true -> exists entry, In entry deviceTypeOrder /\ has_type entry.1 d = true.
Proof.
  unfold known_type. intros H. apply existsb_exists in H as (entry & Hin & Hd). eauto.
Qed.

Lemma filter_comm {A : Type} (p q : A -> bool) (l : list A) :
  List.filter p (List.filter q l) = List.filter q (List.filter p l).
Proof.
  rewrite <- !filter_filter_and. apply filter_ext. intros a. apply andb_comm.
Qed.

Lemma known_of_order (entry : jsstring * nat) (l : list Device.t) :
  In entry deviceTypeOrder ->
  List.filter known_type (List.filter (has_order entry.2) l)
  = List.filter (has_type entry.1) l.
Proof.
  intros Hin. rewrite <- filter_filter_and. apply filter_ext_in. intros d _.
  destruct (has_type entry.1 d) eqn:Hd.
  - rewrite (has_type_order entry d Hin Hd). cbn [andb].
    unfold known_type. apply existsb_exists. eauto.
  - destruct (has_order entry.2 d) eqn:Ho; [| done].
    by rewrite (order_type entry d Hin Ho) in Hd.
Qed.

Lemma type_of_order (entry : jsstring * nat) (p : nat) (l : list Device.t) :
  In entry deviceTypeOrder ->
  List.filter (has_order p) (List.filter (has_type entry.1) l)
  = if (entry.2 =? p)%nat then List.filter (has_type entry.1) l else [].
Proof.
  intros Hin. destruct (Nat.eqb_spec entry.2 p) as [<- | Hne].
  - apply filter_all. apply List.Forall_forall. intros d Hd.
    apply filter_In in Hd as [_ Hd]. by apply has_type_order.
  - apply filter_none. apply List.Forall_forall. intros d Hd.
    apply filter_In in Hd as [_ Hd]. apply (has_type_order entry d Hin) in Hd.
    unfold has_order in *. apply Nat.eqb_eq in Hd. apply Nat.eqb_neq. lia.
Qed.

Lemma unknown_order (p : nat) (l : list Device.t) :
  (forall entry, In entry deviceTypeOrder -> entry.2 <> p) ->
  List.filter known_type (List.filter (has_order p) l) = [].
Proof.
  intros Hp. apply filter_none. apply List.Forall_forall. intros d Hd.
  apply filter_In in Hd as [_ Hd].
  destruct (known_type d) eqn:Hk; [| done].
  apply known_type_order in Hk as (entry & Hin & Ht).
  apply (has_type_order entry d Hin) in Ht.
  unfold has_order in *. apply Nat.eqb_eq in Hd, Ht. by destruct (Hp entry Hin); lia.
Qed.

Lemma placedDevices_filter (p : nat) (l : list Device.t) :
  List.filter (has_order p) (placedDevices l)
  = List.filter known_type (List.filter (has_order p) l).
Proof.
  unfold placedDevices. rewrite filter_flat_map.
  assert (Hstep : forall entries,
             (forall entry, In entry entries -> In entry deviceTypeOrder) ->
             flat_map (fun entry : jsstring * nat =>
                         List.filter (has_order p) (List.filter (has_type entry.1) l))
                      entries
             = flat_map (fun entry : jsstring * nat =>
                           if (entry.2 =? p)%nat then List.filter (has_type entry.1) l
                           else [])
                        entries).
  { induction entries as [|entry entries IH]; intros Hin; [done |].
    cbn [flat_map]. rewrite type_of_order by (apply Hin; by left).
    rewrite IH; [done |]. intros; apply Hin; by right. }
  rewrite Hstep by done. clear Hstep.
  assert (Hcases : (exists entry, In entry deviceTypeOrder /\ entry.2 = p)
                   \/ ~ (exists entry, In entry deviceTypeOrder /\ entry.2 = p)).
  { destruct (List.find (fun e : jsstring * nat => (e.2 =? p)%nat) deviceTypeOrder)
      as [entry|] eqn:Hfind.
    - apply find_some in Hfind as [Hin Heq]. apply Nat.eqb_eq in Heq. eauto.
    - right. intros (entry & Hin & Heq).
      apply (find_none _ _ Hfind) in Hin. apply Nat.eqb_neq in Hin. done. }
  destruct Hcases as [(entry & Hin & <-) | Hno].
  - rewrite (known_of_order entry l Hin).
    unfold deviceTypeOrder in *. cbn [In] in Hin.
    intuition subst; cbn; by rewrite ?app_nil_r.
  - rewrite unknown_order by (intros entry Hin Heq; apply Hno; eauto).
    unfold deviceTypeOrder in *. cbn [flat_map fst snd].
    repeat match goal with
           | |- context [(?n =? p)%nat] =>
               destruct (Nat.eqb_spec n p) as [Heq | _];
               [exfalso; apply Hno; eexists (_, n); split; [| exact Heq]; cbn; tauto |]
           end.
    done.
Qed.

Lemma StronglySorted_app {A : Type} (R : A -> A -> Prop) (l1 l2 : list A) :
  StronglySorted R l1 -> StronglySorted R l2 ->
  (forall a b, In a l1 -> In b l2 -> R a b) ->
  StronglySorted R (l1 ++ l2).
Proof.
  induction 1 as [|a l1 H1 IH Ha]; intros H2 Hcross; [done |].
  cbn. constructor.
  - apply IH; [done |]. intros; apply Hcross; [by right | done].
  - apply Forall_app. split; [done |].
    apply List.Forall_forall. intros b Hb. apply Hcross; [by left | done].
Qed.

Lemma StronglySorted_filter {A : Type} (R : A -> A -> Prop) (p : A -> bool) (l : list A) :
  StronglySorted R l -> StronglySorted R (List.filter p l).
Proof.
  induction 1 as [|a l H IH Ha]; [constructor |].
  cbn. destruct (p a); [| done]. constructor; [done |].
  apply List.Forall_forall. intros b Hb. apply filter_In in Hb as [Hb _].
  rewrite List.Forall_forall in Ha. by apply Ha.
Qed.

Lemma same_order_sorted (p : nat) (l : list Device.t) :
  Forall (fun d => rankOf d = p) l -> StronglySorted by_order l.
Proof.
  induction 1 as [|d l Hd Hl IH]; constructor; [done |].
  eapply Forall_impl; [exact Hl |]. unfold by_order. intros; cbn in *; lia.
Qed.

Lemma placedDevices_sorted (l : list Device.t) : StronglySorted by_order (placedDevices l).
Proof.
  unfold placedDevices.
  assert (Hgen : forall entries,
             (forall entry, In entry entries -> In entry deviceTypeOrder) ->
             StronglySorted (fun e e' : jsstring * nat => (e.2 <= e'.2)%nat) entries ->
             StronglySorted by_order
               (flat_map (fun entry : jsstring * nat => List.filter (has_type entry.1) l)
                         entries)).
  { induction entries as [|entry entries IH]; intros Hin Hsorted; [constructor |].
    apply StronglySorted_inv in Hsorted as [Hsorted Hle].
    cbn [flat_map]. apply StronglySorted_app.
    - apply (same_order_sorted entry.2). apply List.Forall_forall. intros d Hd.
      apply filter_In in Hd as [_ Hd].
      apply (has_type_order entry d) in Hd; [| apply Hin; by left].
      by apply Nat.eqb_eq in Hd.
    - apply IH; [intros; apply Hin; by right | done].
    - intros a b Ha Hb. apply filter_In in Ha as [_ Ha].
      apply in_flat_map in Hb as (entry' & Hin' & Hb). apply filter_In in Hb as [_ Hb].
      apply (has_type_order entry a) in Ha; [| apply Hin; by left].
      apply (has_type_order entry' b) in Hb; [| apply Hin; by right].
      rewrite List.Forall_forall in Hle. specialize (Hle _ Hin').
      unfold has_order, by_order in *. apply Nat.eqb_eq in Ha, Hb. lia. }
  apply Hgen; [done |].
  unfold deviceTypeOrder. repeat constructor; cbn; lia.
Qed.

(** The placed devices are the sorted devices without those of an unknown
    type. *)
Lemma placedDevices_sort (l : list Device.t) :
  placedDevices l = List.filter known_type (sortByOrder l).
Proof.
  apply sorted_by_filters.
  - apply placedDevices_sorted.
  - apply StronglySorted_filter, sortByOrder_sorted.
  - intros p. rewrite placedDevices_filter.
    rewrite (filter_comm (has_order p) known_type (sortByOrder l)).
    by rewrite sortByOrder_stable.
Qed.

(** *** The nodes of a load *)

Lemma groupNodes_core (site : Site.t) (cfg : TypeConfig) (startX y : float)
    (devices : list Device.t) :
  forall i, List.map nodeCore (groupNodes site cfg startX y devices i)
            = List.map (deviceCore site) devices.
Proof.
  induction devices as [|d devices IH]; intros i; [done |].
  unfold groupNodes in *. cbn [emitted_from List.map app]. by rewrite IH.
Qed.

Lemma runGroups_core (site : Site.t) (base : float * float)
    (entries : list (jsstring * nat)) :
  (forall entry, In entry entries -> In entry deviceTypeOrder) ->
  forall r,
    List.map nodeCore
      (g_nodes (fold_left (groupStep site base (groupMap (sortByOrder (siteDevices site)) ∅))
                          entries r))
    = List.map nodeCore (g_nodes r)
        ++ List.map (deviceCore site)
             (flat_map (fun entry : jsstring * nat =>
                          List.filter (has_type entry.1) (siteDevices site))
                       entries).
Proof.
  induction entries as [|entry entries IH]; intros Hin r.
  - cbn. by rewrite app_nil_r.
  - cbn [fold_left flat_map]. rewrite IH by (intros; apply Hin; by right).
    unfold groupStep. rewrite group_of_entry by (apply Hin; by left).
    rewrite List.map_app, app_assoc. f_equal.
    destruct (List.filter (has_type entry.1) (siteDevices site)) as [|d devices] eqn:Hf;
      [by rewrite app_nil_r |].
    cbn [g_nodes]. by rewrite List.map_app, groupNodes_core.
Qed.

Lemma pushedNodes_core (P : gmap jsstring (float * float)) (s : Site.t) (dim : Dimensions) :
  List.map nodeCore (pushedNodes P s dim)
  = List.map (deviceCore s) (placedDevices (siteDevices s)) ++ [headerCore s].
Proof.
  unfold pushedNodes, runGroups. rewrite List.map_app. f_equal.
  by rewrite runGroups_core.
Qed.

Lemma zip_with_core {A B C D : Type} (h : C -> D) (f : A -> B -> C) (g : A -> D)
    (l1 : list A) :
  (forall a b, h (f a b) = g a) ->
  forall l2, length l2 = length l1 ->
    List.map h (zip_with f l1 l2) = List.map g l1.
Proof.
  intros Hfg. induction l1 as [|a l1 IH]; intros [|b l2] Hlen; try done.
  cbn. rewrite Hfg, IH; [done | by injection Hlen].
Qed.

Lemma concat_zip_with_core {A B C D : Type} (h : C -> D) (f : A -> B -> list C)
    (g : A -> list D) (l1 : list A) :
  (forall a b, List.map h (f a b) = g a) ->
  forall l2, length l2 = length l1 ->
    List.map h (concat (zip_with f l1 l2)) = flat_map g l1.
Proof.
  intros Hfg. induction l1 as [|a l1 IH]; intros [|b l2] Hlen; try done.
  cbn. rewrite List.map_app, Hfg, IH; [done | by injection Hlen].
Qed.

Lemma snapshot_node_cores (networkConfig : NetworkConfig) (allSites : list Site.t) :
  sites networkConfig = Some allSites ->
  forallb site_complete allSites = true ->
  forallb (fun s => types_groupable (siteDevices s)) allSites = true ->
  exists ns es,
    layoutDocument (Some networkConfig) = Ok (ns, es)
    /\ List.map nodeCore ns
       = rev (List.map backgroundCore allSites)
           ++ flat_map (fun s => List.map (deviceCore s) (placedDevices (siteDevices s))
                                   ++ [headerCore s])
                       allSites.
Proof.
  intros Hsites Hc Hg.
  destruct (snapshot_layoutDocument_spec _ _ Hsites Hc Hg) as (P & starts & Hrun & Hlen & _).
  eexists _, _. split; [exact Hrun |].
  rewrite List.map_app, List.map_rev. f_equal.
  - f_equal. by apply zip_with_core.
  - apply concat_zip_with_core; [| done]. intros s d. apply pushedNodes_core.
Qed.



(** *** An empty site *)

Lemma in_rev_zip_with {A B C : Type} (f : A -> B -> C) (l1 : list A) (l2 : list B)
    (j : nat) (a : A) (b : B) :
  l1 !! j = Some a -> l2 !! j = Some b -> In (f a b) (rev (zip_with f l1 l2)).
Proof.
  intros Ha Hb. apply in_rev. rewrite rev_involutive.
  apply list_elem_of_In. eapply list_elem_of_lookup_2.
  rewrite lookup_zip_with, Ha. cbn. rewrite Hb. reflexivity.
Qed.

Lemma runGroups_empty (s : Site.t) (base : float * float) (dim : Dimensions) :
  siteDevices s = [] -> runGroups s base dim = mkGroup (base.2 + 120) dim [].
Proof.
  intros Hempty. unfold runGroups. rewrite Hempty.
  cbn [sortByOrder foldr groupMap fold_left].
  generalize (mkGroup (base.2 + 120) dim []). generalize deviceTypeOrder.
  induction l as [|entry l IH]; intros r; [done |].
  cbn [fold_left]. rewrite IH.
  unfold groupStep. by rewrite lookup_empty.
Qed.

(** X23. With unique site ids, the background of a site without devices is
    500 high and its width is not a number: the mean width of the devices
    of an empty site is 0 / 0, and [Math.max] keeps the [NaN]. *)
Theorem empty_site_box_is_nan (networkConfig : NetworkConfig) (allSites : list Site.t) :
  sites networkConfig = Some allSites ->
  forallb site_complete allSites = true ->
  forallb (fun s => types_groupable (siteDevices s)) allSites = true ->
  NoDup (List.map Site.id allSites) ->
  exists ns es,
    layoutDocument (Some networkConfig) = Ok (ns, es)
    /\ forall j s,
         allSites !! j = Some s ->
         siteDevices s = [] ->
         exists n,
           In n ns
           /\ Node.id n = Some (js "site-" ++ siteKey s ++ js "-bg")
           /\ Node.position n = (num_of_nat j * siteSpacing + 100 - 100, 100 - 150)%float
           /\ Node.style n = BackgroundStyle nan 500 (paletteOf (siteKey s)).
Proof.
  intros Hsites Hc Hg Hnd. pose proof (NoDup_siteKeys _ Hc Hnd) as Hkeys.
  destruct (snapshot_layoutDocument_spec _ _ Hsites Hc Hg)
    as (P & starts & Hrun & Hlen & Hunique).
  eexists _, _. split; [exact Hrun |].
  intros j s Hj Hempty. destruct (Hunique Hkeys j s Hj) as [Hpos Hstart].
  eexists. split.
  - apply in_or_app. left. by apply (in_rev_zip_with _ _ _ j s _ Hj Hstart).
  - unfold siteBackground, basePosition. rewrite Hpos. cbn [default from_option id].
    rewrite runGroups_empty by done. unfold paddedBox. rewrite Hempty.
    cbn [backgroundNode Node.id Node.position Node.style g_dim fst snd].
    repeat split.
Qed.

Lemma empty_site_box_is_nan_witness :
  exists ns es,
    layoutDocument (Some emptyLabConfig) = Ok (ns, es)
    /\ exists n, In n ns /\ Node.style n = BackgroundStyle nan 500 otherColors.
Proof.
  destruct (empty_site_box_is_nan emptyLabConfig [emptyLab] eq_refl eq_refl eq_refl)
    as (ns & es & Hrun & Hbox).
  - refine (bool_decide_unpack _ _). vm_compute. exact I.
  - exists ns, es. split; [exact Hrun |].
    destruct (Hbox 0%nat _ eq_refl eq_refl) as (n & Hin & _ & _ & Hstyle).
    exists n. split; [exact Hin | exact Hstyle].
Defined.

(** *** The grid of a type group *)

Lemma groupStep_keeps (site : Site.t) (base : float * float)
    (m : gmap jsstring (list Device.t)) (r : GroupState) (entry : jsstring * nat)
    (n : Node.t) :
  In n (g_nodes r) -> In n (g_nodes (groupStep site base m r entry)).
Proof.
  intros Hn. unfold groupStep.
  destruct (default [] (m !! entry.1)); [done |].
  cbn [g_nodes]. apply in_or_app. by left.
Qed.

Lemma fold_groups_keep (site : Site.t) (base : float * float)
    (m : gmap jsstring (list Device.t)) (entries : list (jsstring * nat)) (n : Node.t) :
  forall r, In n (g_nodes r) ->
            In n (g_nodes (fold_left (groupStep site base m) entries r)).
Proof.
  induction entries as [|entry entries IH]; intros r Hn; [done |].
  cbn [fold_left]. apply IH. by apply groupStep_keeps.
Qed.

Lemma groupNodes_lookup (site : Site.t) (cfg : TypeConfig) (startX y : float)
    (devices : list Device.t) (i : nat) (d : Device.t) :
  devices !! i = Some d ->
  In (deviceNode site cfg d (devicePosition cfg startX y i))
     (groupNodes site cfg startX y devices 0).
Proof.
  intros Hi. apply list_elem_of_In. eapply list_elem_of_lookup_2.
  unfold groupNodes.
  by rewrite (emitted_from_singletons_lookup
                (fun d j => deviceNode site cfg d (devicePosition cfg startX y j))
                devices 0 i d Hi).
Qed.

Lemma fold_groups_grid (site : Site.t) (base : float * float)
    (m : gmap jsstring (list Device.t)) (entries : list (jsstring * nat))
    (entry : jsstring * nat) :
  In entry entries ->
  forall r,
  exists startX currentY,
    forall i d,
      default [] (m !! entry.1) !! i = Some d ->
      In (deviceNode site (default serverConfig (deviceTypeConfig entry.1)) d
            (devicePosition (default serverConfig (deviceTypeConfig entry.1))
                            startX currentY i))
         (g_nodes (fold_left (groupStep site base m) entries r)).
Proof.
  induction entries as [|e entries IH]; intros Hin r; [done |].
  cbn [fold_left]. destruct Hin as [-> | Hin]; [| by apply IH].
  exists (startXOf base (g_dim r) (default serverConfig (deviceTypeConfig entry.1))
                   (length (default [] (m !! entry.1)))), (g_currentY r).
  intros i d Hi. apply fold_groups_keep. unfold groupStep.
  destruct (default [] (m !! entry.1)) as [|d0 devices] eqn:Hgroup; [done |].
  cbn [g_nodes]. apply in_or_app. right. by apply groupNodes_lookup.
Qed.

(** X27. Every type group of a site is laid out on a grid of its own, three
    devices to a row: the group has one start position, and the [i]-th
    device of the type, in input order, stands in column [i mod 3] and row
    [i / 3] from it, the columns [spacing] apart and the rows [height + 60]
    apart, with the spacing, width and height of the type. *)
Theorem type_groups_form_grids (networkConfig : NetworkConfig) (allSites : list Site.t) :
  sites networkConfig = Some allSites ->
  forallb site_complete allSites = true ->
  forallb (fun s => types_groupable (siteDevices s)) allSites = true ->
  exists ns es,
    layoutDocument (Some networkConfig) = Ok (ns, es)
    /\ forall s entry,
         In s allSites -> In entry deviceTypeOrder ->
         let typeConfig := default serverConfig (deviceTypeConfig entry.1) in
         exists startX currentY,
           forall i d,
             List.filter (has_type entry.1) (siteDevices s) !! i = Some d ->
             exists n,
               In n ns
               /\ nodeCore n = deviceCore s d
               /\ Node.style n
                  = DeviceStyle (cfg_width typeConfig)
                      (if bool_decide (entry.1 = js "hypervisor") then None
                       else Some (cfg_height typeConfig))
               /\ Node.position n
                  = (startX + num_of_nat (i mod 3) * cfg_spacing typeConfig,
                     currentY + num_of_nat (i / 3) * (cfg_height typeConfig + 60))%float.
Proof.
  intros Hsites Hc Hg.
  destruct (snapshot_layoutDocument_spec _ _ Hsites Hc Hg) as (P & starts & Hrun & Hlen & _).
  eexists _, _. split; [exact Hrun |].
  intros s entry Hs Hentry typeConfig.
  apply list_elem_of_In, list_elem_of_lookup_1 in Hs as [j Hj].
  destruct (lookup_lt_is_Some_2 starts j) as [dim Hdim].
  { rewrite Hlen. by eapply lookup_lt_Some. }
  destruct (fold_groups_grid s (basePosition P s)
              (groupMap (sortByOrder (siteDevices s)) ∅) deviceTypeOrder entry Hentry
              (mkGroup ((basePosition P s).2 + 120) dim []))
    as (startX & currentY & Hgrid).
  exists startX, currentY. intros i d Hi.
  rewrite <- (group_of_entry entry (siteDevices s) Hentry) in Hi.
  specialize (Hgrid i d Hi).
  exists (deviceNode s typeConfig d (devicePosition typeConfig startX currentY i)).
  split; [| split; [reflexivity | split]].
  - apply in_or_app. right. apply in_concat.
    exists (pushedNodes P s dim). split.
    + apply list_elem_of_In. eapply list_elem_of_lookup_2.
      rewrite lookup_zip_with, Hj. cbn. rewrite Hdim. reflexivity.
    + unfold pushedNodes, runGroups. apply in_or_app. left. exact Hgrid.
  - cbn [Node.style deviceNode]. f_equal.
    rewrite (group_of_entry entry (siteDevices s) Hentry) in Hi.
    apply list_elem_of_lookup_2, list_elem_of_In, filter_In in Hi as [_ Hd].
    unfold has_type, typeKey in Hd. apply bool_decide_eq_true in Hd.
    destruct (Device.type d) as [t|] eqn:Ht; cbn [tpl] in Hd.
    + subst t. destruct (bool_decide_reflect (entry.1 = js "hypervisor")) as [-> | Hne].
      * by rewrite bool_decide_eq_true_2.
      * rewrite bool_decide_eq_false_2; [done | congruence].
    + rewrite <- Hd.
      assert (Hne : js "undefined" <> js "hypervisor") by (vm_compute; discriminate).
      rewrite (bool_decide_eq_false_2 (None = Some (js "hypervisor"))) by done.
      by rewrite (bool_decide_eq_false_2 (js "undefined" = js "hypervisor")).
  - reflexivity.
Qed.

Lemma type_groups_form_grids_witness :
  exists ns es,
    layoutDocument (Some serverFirstConfig) = Ok (ns, es)
    /\ exists n, In n ns /\ (nodeCore n).1.1 = Some (js "s1").
Proof.
  destruct (type_groups_form_grids serverFirstConfig [serverFirstSite]
              eq_refl eq_refl eq_refl) as (ns & es & Hrun & Hgrid).
  exists ns, es. split; [exact Hrun |].
  destruct (Hgrid serverFirstSite (js "server", 5%nat)) as (startX & currentY & Hnode);
    [by left | cbn; tauto |].
  destruct (Hnode 0%nat (sampleDevice "s1" "server" None None) eq_refl)
    as (n & Hin & Hcore & _).
  exists n. split; [exact Hin |]. by rewrite Hcore.
Defined.

End SnapshotFacts.

(** *** The two revisions *)

(** X21. The revision fails on the documents the first revision fails on
    (malformed text, missing [sites], a site without [devices] or [id]) and
    on one more kind: a document with a device whose type is a name every
    object inherits, such as [constructor] or [toString], throws a
    [TypeError] when the devices are grouped by type, although the first
    revision lays it out. In all other cases it returns nodes and edges. *)
Theorem snapshot_load_failures (yaml_load : jsstring -> outcome (option NetworkConfig))
    (yamlContent : jsstring) :
  ParserSnapshot.parseNetworkConfig yaml_load yamlContent
  = match yaml_load yamlContent with
    | Throw error => Throw error
    | Ok doc =>
        if document_complete doc && ParserSnapshot.document_groupable doc
        then ParserSnapshot.layoutDocument doc
        else Throw TypeError
    end
  /\ (forall doc,
        is_ok (ParserSnapshot.layoutDocument doc)
        = is_ok (layoutDocument doc) && ParserSnapshot.document_groupable doc)
  /\ (forall name site,
        In name inheritedKeys ->
        site_complete site = true ->
        In (Device.mk None (Some name) None None None None None None None None None None)
           (siteDevices site) ->
        let doc := Some (mkConfig None None (Some [site])) in
        is_ok (layoutDocument doc) = true
        /\ ParserSnapshot.layoutDocument doc = Throw TypeError).
Proof.
  split; [| split].
  - unfold ParserSnapshot.parseNetworkConfig.
    destruct (yaml_load yamlContent) as [doc|error]; [| done].
    rewrite bind_Ok.
    destruct (document_complete doc && ParserSnapshot.document_groupable doc) eqn:Hc.
    + by destruct (ParserSnapshot.layoutDocument doc).
    + by rewrite snapshot_layoutDocument_throws.
  - intros doc. by rewrite snapshot_layoutDocument_ok, layoutDocument_ok.
  - intros name site Hname Hc Hin doc. subst doc. split.
    + rewrite layoutDocument_ok. cbn. by rewrite Hc.
    + apply snapshot_layoutDocument_throws. apply andb_false_iff. right.
      cbn [ParserSnapshot.document_groupable sites forallb]. rewrite andb_true_r.
      unfold ParserSnapshot.types_groupable.
      apply not_true_is_false. intros Hall. rewrite forallb_forall in Hall.
      specialize (Hall _ Hin). apply negb_true_iff, bool_decide_eq_false in Hall.
      apply Hall. apply list_elem_of_In. exact Hname.
Qed.

Lemma map_emitted_from {A B C : Type} (h : B -> C) (g : A -> nat -> list B) (l : list A) :
  forall i, List.map h (emitted_from g l i) = emitted_from (fun a j => List.map h (g a j)) l i.
Proof.
  induction l as [|a l IH]; intros i; [done |]. cbn. by rewrite List.map_app, IH.
Qed.

Lemma emitted_from_ext {A B : Type} (g g' : A -> nat -> list B) (l : list A) :
  (forall a j, g a j = g' a j) ->
  forall i, emitted_from g l i = emitted_from g' l i.
Proof.
  intros Hg. induction l as [|a l IH]; intros i; [done |]. cbn. by rewrite Hg, IH.
Qed.

Lemma deviceEdges_core (allSites : list Site.t) (site : Site.t) (device : Device.t) :
  List.map ParserSnapshot.edgeCore (ParserSnapshot.deviceEdges allSites site device)
  = List.map edgeCore (deviceEdges allSites site device).
Proof.
  unfold ParserSnapshot.deviceEdges, deviceEdges.
  unfold ParserSnapshot.connectionEdges, ParserSnapshot.vpnEdges,
    ParserSnapshot.trunkEdges, ParserSnapshot.sanEdges,
    connectionEdges, vpnEdges, trunkEdges, sanEdges.
  rewrite !List.map_app, !map_emitted_from.
  rewrite (emitted_from_ext
             (fun a j => List.map ParserSnapshot.edgeCore
                           [ParserSnapshot.connectionEdgeOf device a j])
             (fun a j => List.map edgeCore [connectionEdgeOf device a j])) by done.
  rewrite (emitted_from_ext
             (fun a j => List.map ParserSnapshot.edgeCore
                           [ParserSnapshot.trunkEdgeOf device a j])
             (fun a j => List.map edgeCore [trunkEdgeOf device a j])) by done.
  rewrite (emitted_from_ext
             (fun a j => List.map ParserSnapshot.edgeCore
                           [ParserSnapshot.sanEdgeOf device a j])
             (fun a j => List.map edgeCore [sanEdgeOf device a j])) by done.
  rewrite (emitted_from_ext
             (fun a j => List.map ParserSnapshot.edgeCore
                           (ParserSnapshot.vpnEntryEdges allSites site device a j))
             (fun a j => List.map edgeCore (vpnEntryEdges allSites site device a j)));
    [done |].
  intros a j. unfold ParserSnapshot.vpnEntryEdges, vpnEntryEdges.
  destruct (List.find _ allSites) as [ts|]; [| done].
  by destruct (List.find _ (siteDevices ts)).
Qed.

Lemma map_flat_map_core {A B C : Type} (h : B -> C) (f : A -> list B) (l : list A) :
  List.map h (flat_map f l) = flat_map (fun a => List.map h (f a)) l.
Proof. induction l as [|a l IH]; [done |]. cbn. by rewrite List.map_app, IH. Qed.

Lemma Permutation_flat_map_pointwise {A B : Type} (f g : A -> list B) (l : list A) :
  (forall a, Permutation (f a) (g a)) -> Permutation (flat_map f l) (flat_map g l).
Proof.
  intros Hfg. induction l as [|a l IH]; [done |]. cbn. by apply Permutation_app.
Qed.

Lemma flat_map_ext_all {A B : Type} (f g : A -> list B) (l : list A) :
  Forall (fun a => f a = g a) l -> flat_map f l = flat_map g l.
Proof. induction 1 as [|a l Ha _ IH]; [done |]. cbn. by rewrite Ha, IH. Qed.

(** X24. On every document both revisions load, they emit the same edges
    up to order: identifier, source, target, type and label agree; the
    revision emits the edges of a site device by device in sorted order, so
    the two edge arrays are equal when the devices of every site are listed
    in type order already. *)
Theorem revisions_emit_same_edges (networkConfig : NetworkConfig) (allSites : list Site.t) :
  sites networkConfig = Some allSites ->
  forallb site_complete allSites = true ->
  forallb (fun s => ParserSnapshot.types_groupable (siteDevices s)) allSites = true ->
  exists ns es ns' es',
    layoutDocument (Some networkConfig) = Ok (ns, es)
    /\ ParserSnapshot.layoutDocument (Some networkConfig) = Ok (ns', es')
    /\ Permutation (List.map ParserSnapshot.edgeCore es') (List.map edgeCore es)
    /\ (Forall (fun s => StronglySorted ParserSnapshot.by_order (siteDevices s)) allSites ->
        List.map ParserSnapshot.edgeCore es' = List.map edgeCore es).
Proof.
  intros Hsites Hc Hg.
  destruct (layoutDocument_spec _ _ Hsites Hc) as (P & boxes & Hrun & _).
  destruct (snapshot_layoutDocument_spec _ _ Hsites Hc Hg) as (P' & starts & Hrun' & _).
  eexists _, _, _, _. split; [exact Hrun |]. split; [exact Hrun' |].
  rewrite !map_flat_map_core.
  assert (Hsite : forall s,
             List.map ParserSnapshot.edgeCore (ParserSnapshot.siteEdges allSites s)
             = flat_map (fun d => List.map edgeCore (deviceEdges allSites s d))
                        (ParserSnapshot.sortByOrder (siteDevices s))).
  { intros s. unfold ParserSnapshot.siteEdges. rewrite map_flat_map_core.
    apply flat_map_ext. intros d. apply deviceEdges_core. }
  split.
  - apply Permutation_flat_map_pointwise. intros s.
    rewrite Hsite. unfold siteEdges. rewrite map_flat_map_core.
    apply Permutation_flat_map, sortByOrder_perm.
  - intros Hsorted. apply flat_map_ext_all.
    eapply Forall_impl; [exact Hsorted |]. intros s Hs. cbn beta.
    rewrite Hsite. unfold siteEdges. rewrite map_flat_map_core.
    f_equal. symmetry. apply sorted_by_filters; [done | apply sortByOrder_sorted |].
    intros p. by rewrite sortByOrder_stable.
Qed.

Lemma revisions_emit_same_edges_witness :
  exists ns es ns' es',
    layoutDocument (Some twoSites) = Ok (ns, es)
    /\ ParserSnapshot.layoutDocument (Some twoSites) = Ok (ns', es')
    /\ Permutation (List.map ParserSnapshot.edgeCore es') (List.map edgeCore es).
Proof.
  destruct (revisions_emit_same_edges twoSites [hqSite; branchSite] eq_refl eq_refl eq_refl)
    as (ns & es & ns' & es' & Hrun & Hrun' & Hperm & _).
  exists ns, es, ns', es'. split; [exact Hrun |]. split; [exact Hrun' | exact Hperm].
Defined.

(** ** The toolbar *)

Lemma collectSite_core (n n' : ParserSnapshot.Node.t) (i : nat)
    (siteMap : list (jsstring * option jsstring)) :
  ParserSnapshot.nodeCore n = ParserSnapshot.nodeCore n' ->
  Toolbar.collectSite n i siteMap = Toolbar.collectSite n' i siteMap.
Proof.
  unfold ParserSnapshot.nodeCore, Toolbar.collectSite. by intros [= -> _ ->].
Qed.

Lemma endsWith_bg (k : jsstring) : endsWith (js "site-" ++ k ++ js "-bg") (js "-header") = false.
Proof. unfold endsWith. by rewrite !rev_app_distr. Qed.

Lemma collectSite_background (sid : jsstring) (base : float * float)
    (dim : ParserSnapshot.Dimensions) (i : nat) (siteMap : list (jsstring * option jsstring)) :
  Toolbar.collectSite (ParserSnapshot.backgroundNode sid base dim) i siteMap = Ok siteMap.
Proof.
  unfold Toolbar.collectSite, ParserSnapshot.backgroundNode.
  cbn [ParserSnapshot.Node.data ParserSnapshot.Node.id ParserSnapshot.NodeData.siteId
       ParserSnapshot.NodeData.label].
  destruct sid as [|c k]; [done |].
  by rewrite endsWith_bg, andb_false_r.
Qed.

Lemma collectSite_device (site : Site.t) (cfg : ParserSnapshot.TypeConfig) (d : Device.t)
    (position : float * float) (id : jsstring) (i : nat)
    (siteMap : list (jsstring * option jsstring)) :
  Device.id d = Some id ->
  Toolbar.header_like id = false ->
  Toolbar.collectSite (ParserSnapshot.deviceNode site cfg d position) i siteMap = Ok siteMap.
Proof.
  intros Hid Hform. unfold Toolbar.collectSite, ParserSnapshot.deviceNode.
  cbn [ParserSnapshot.Node.data ParserSnapshot.Node.id ParserSnapshot.NodeData.siteId
       ParserSnapshot.NodeData.label].
  rewrite Hid. unfold Toolbar.header_like in Hform. rewrite Hform.
  by destruct (Site.id site) as [[|c k]|].
Qed.

Lemma collectSite_nameless (site : Site.t) (cfg : ParserSnapshot.TypeConfig) (d : Device.t)
    (position : float * float) (c : N) (k : jsstring) (i : nat)
    (siteMap : list (jsstring * option jsstring)) :
  Device.id d = None ->
  Site.id site = Some (c :: k) ->
  Toolbar.collectSite (ParserSnapshot.deviceNode site cfg d position) i siteMap
  = Throw TypeError.
Proof.
  intros Hid Hsite. unfold Toolbar.collectSite, ParserSnapshot.deviceNode.
  cbn [ParserSnapshot.Node.data ParserSnapshot.Node.id ParserSnapshot.NodeData.siteId
       ParserSnapshot.NodeData.label].
  by rewrite Hid, Hsite.
Qed.

Lemma forEach_from_skip {A S : Type} (f : A -> nat -> S -> outcome S) (l : list A) :
  (forall a, In a l -> forall i s, f a i s = Ok s) ->
  forall i s, forEach_from f l i s = Ok s.
Proof.
  induction l as [|a l IH]; intros Hf i s; [done |].
  cbn [forEach_from]. rewrite Hf by (by left). rewrite bind_Ok.
  apply IH. intros; apply Hf; by right.
Qed.

Lemma placedDevices_in (d : Device.t) (l : list Device.t) :
  In d (ParserSnapshot.placedDevices l) -> In d l.
Proof.
  unfold ParserSnapshot.placedDevices. intros Hin.
  apply in_flat_map in Hin as (entry & _ & Hin). by apply filter_In in Hin as [Hin _].
Qed.

(** The shape of every node of a load, up to its geometry. *)
Lemma snapshot_node_shapes (networkConfig : NetworkConfig) (allSites : list Site.t)
    (ns : list ParserSnapshot.Node.t) (es : list ParserSnapshot.Edge.t) :
  sites networkConfig = Some allSites ->
  forallb site_complete allSites = true ->
  forallb (fun s => ParserSnapshot.types_groupable (siteDevices s)) allSites = true ->
  ParserSnapshot.layoutDocument (Some networkConfig) = Ok (ns, es) ->
  forall n, In n ns ->
    exists s, In s allSites
      /\ (ParserSnapshot.nodeCore n = ParserSnapshot.backgroundCore s
          \/ ParserSnapshot.nodeCore n = ParserSnapshot.headerCore s
          \/ exists d, In d (ParserSnapshot.placedDevices (siteDevices s))
                       /\ ParserSnapshot.nodeCore n = ParserSnapshot.deviceCore s d).
Proof.
  intros Hsites Hc Hg Hrun n Hn.
  destruct (snapshot_node_cores _ _ Hsites Hc Hg) as (ns' & es' & Hrun' & Hcores).
  rewrite Hrun in Hrun'. injection Hrun' as <- <-.
  apply (in_map ParserSnapshot.nodeCore) in Hn. rewrite Hcores in Hn.
  apply in_app_or in Hn as [Hn | Hn].
  - apply in_rev, in_map_iff in Hn as (s & Hcore & Hs). exists s. split; [done |].
    by left.
  - apply in_flat_map in Hn as (s & Hs & Hn). exists s. split; [done |].
    apply in_app_or in Hn as [Hn | [Hn | []]].
    + apply in_map_iff in Hn as (d & Hcore & Hd). right; right. by exists d.
    + right; left. done.
Qed.

(** X25. The toolbar offers no site button. It collects a site from nodes
    that carry a site id and have an id of the form [site-...-header]; the
    loader gives a site id to backgrounds and devices only and the header
    form to headers only. So when every device has an id that is not of
    the header form, the site list of a loaded document is empty, whatever
    the number of sites. *)
Theorem toolbar_offers_no_site (networkConfig : NetworkConfig) (allSites : list Site.t) :
  sites networkConfig = Some allSites ->
  forallb site_complete allSites = true ->
  forallb (fun s => ParserSnapshot.types_groupable (siteDevices s)) allSites = true ->
  (forall s d, In s allSites -> In d (siteDevices s) ->
     exists id, Device.id d = Some id /\ Toolbar.header_like id = false) ->
  exists ns es,
    ParserSnapshot.layoutDocument (Some networkConfig) = Ok (ns, es)
    /\ Toolbar.sites ns = Ok [].
Proof.
  intros Hsites Hc Hg Hids.
  destruct (snapshot_node_cores _ _ Hsites Hc Hg) as (ns & es & Hrun & _).
  exists ns, es. split; [exact Hrun |].
  unfold Toolbar.sites, forEach. apply forEach_from_skip.
  intros n Hn i siteMap.
  destruct (snapshot_node_shapes _ _ _ _ Hsites Hc Hg Hrun n Hn)
    as (s & Hs & [Hcore | [Hcore | (d & Hd & Hcore)]]).
  - rewrite (collectSite_core n _ i siteMap Hcore). apply collectSite_background.
  - by rewrite (collectSite_core n _ i siteMap Hcore).
  - rewrite (collectSite_core n _ i siteMap Hcore).
    destruct (Hids s d Hs (placedDevices_in _ _ Hd)) as (id & Hid & Hform).
    by apply (collectSite_device _ _ _ _ id).
Qed.

Lemma toolbar_offers_no_site_witness :
  exists ns es,
    ParserSnapshot.layoutDocument (Some twoSites) = Ok (ns, es)
    /\ Toolbar.sites ns = Ok [].
Proof.
  apply (toolbar_offers_no_site twoSites [hqSite; branchSite] eq_refl eq_refl eq_refl).
  intros s d [<- | [<- | []]] Hd; cbn in Hd;
    repeat (destruct Hd as [<- | Hd]; [eexists; split; reflexivity |]); destruct Hd.
Defined.

Lemma forEach_from_hits {A S : Type} (f : A -> nat -> S -> outcome S) (a : A) :
  (forall b i s e, f b i s = Throw e -> e = TypeError) ->
  (forall i s, f a i s = Throw TypeError) ->
  forall l, In a l -> forall i s, forEach_from f l i s = Throw TypeError.
Proof.
  intros Honly Ha. induction l as [|b l IH]; intros Hin i s; [done |].
  cbn [forEach_from]. destruct Hin as [-> | Hin]; [by rewrite Ha |].
  destruct (f b i s) as [s'|e] eqn:Hb.
  - rewrite bind_Ok. by apply IH.
  - by rewrite (Honly _ _ _ _ Hb).
Qed.

(** X26. A device without an id, which the loader accepts, makes the
    toolbar throw: when a site has a non-empty id and one of its devices of
    a known type has no id, computing the site list of the loaded document
    raises a [TypeError] ([node.id.startsWith] on [undefined]). *)
Theorem toolbar_throws_on_missing_id (networkConfig : NetworkConfig)
    (allSites : list Site.t) (s : Site.t) (d : Device.t) :
  sites networkConfig = Some allSites ->
  forallb site_complete allSites = true ->
  forallb (fun s => ParserSnapshot.types_groupable (siteDevices s)) allSites = true ->
  In s allSites ->
  In d (siteDevices s) ->
  ParserSnapshot.known_type d = true ->
  Device.id d = None ->
  siteKey s <> [] ->
  exists ns es,
    ParserSnapshot.layoutDocument (Some networkConfig) = Ok (ns, es)
    /\ Toolbar.sites ns = Throw TypeError.
Proof.
  intros Hsites Hc Hg Hs Hd Hknown Hid Hkey.
  destruct (snapshot_node_cores _ _ Hsites Hc Hg) as (ns & es & Hrun & Hcores).
  exists ns, es. split; [exact Hrun |].
  assert (Hin : In (ParserSnapshot.deviceCore s d) (List.map ParserSnapshot.nodeCore ns)).
  { rewrite Hcores. apply in_or_app. right. apply in_flat_map. exists s. split; [done |].
    apply in_or_app. left. apply in_map. rewrite placedDevices_sort.
    apply filter_In. split; [| done].
    eapply Permutation_in; [symmetry; apply sortByOrder_perm | done]. }
  apply in_map_iff in Hin as (n & Hcore & Hn).
  unfold Toolbar.sites, forEach.
  apply (forEach_from_hits Toolbar.collectSite n); [| | done].
  - intros b i m e. unfold Toolbar.collectSite.
    repeat case_match; congruence.
  - intros i m. rewrite (collectSite_core n _ i m Hcore).
    rewrite forallb_forall in Hc. specialize (Hc s Hs).
    unfold site_complete, has_id, siteKey in *.
    destruct (Site.id s) as [[|c k]|] eqn:Hsid; cbn [tpl] in Hkey; [done | |].
    + by apply (collectSite_nameless _ _ _ _ c k).
    + by rewrite andb_false_r in Hc.
Qed.

Lemma toolbar_throws_on_missing_id_witness :
  exists ns es,
    ParserSnapshot.layoutDocument (Some namelessConfig) = Ok (ns, es)
    /\ Toolbar.sites ns = Throw TypeError.
Proof.
  apply (toolbar_throws_on_missing_id namelessConfig [namelessSite] namelessSite
           namelessRouter eq_refl eq_refl eq_refl);
    [by left | by left | reflexivity | reflexivity | discriminate].
Defined.
